(** * runsc debug: a shallow embedding of [Debug.Execute]

    Source: runsc/cmd/debug.go.

    The command resolves a sandbox (by container ID or by sandbox PID), then
    runs the requested diagnostic actions in a fixed order.  Everything the
    command does to the outside (registry, sandbox RPCs, files, signals,
    logging, sleeping) is recorded as an ordered list of events; what the
    outside answers is read from a [World].  Go's [defer] and early [return]
    are modelled by a small monad that collects events and a stack of
    deferred closures. *)

From Stdlib Require Import ZArith List String Ascii Bool Lia Sorted.
Import ListNotations.
Local Open Scope string_scope.
Local Open Scope Z_scope.
Local Open Scope list_scope.

(** Go's [==] and [+] on strings. *)
Infix "==" := String.eqb (at level 70, no associativity).
Infix "+++" := String.append (at level 60, right associativity).

(** ** Go values used by the command *)

(** A Go [error], identified with the text of [err.Error()]. *)
Definition error := string.

Inductive Result (A : Type) : Type :=
| Ok (a : A)
| Err (e : error).
Arguments Ok {A} a.
Arguments Err {A} e.

(** An [*os.File] as returned by [os.Create]. *)
Record File := { fd : Z; name : string }.

(** [subcommands.ExitStatus]. *)
Inductive ExitStatus := ExitSuccess | ExitFailure | ExitUsageError.

(** Package [log]: the levels, numbered as the flag's help text numbers
    them (warning 0, info 1, debug 2); the zero value is [Warning]. *)
Module log.
Inductive Level := Warning | Info | Debug.
End log.

(** Package [control].
    Modelled from the spec: the declaration of [control.LoggingArgs] is not
    part of the file; the record has the independent set-flags and the values
    they gate, as the data model of the specification lists them. *)
Module control.
Record LoggingArgs := {
  SetLevel : bool;
  Level : log.Level;
  SetLogPackets : bool;
  LogPackets : bool;
  SetStrace : bool;
  EnableStrace : bool;
  StraceWhitelist : list string
}.

(** The composite literal [control.LoggingArgs{SetStrace: true}]: every
    other field has its zero value. *)
Definition SetStrace_true : LoggingArgs :=
  {| SetLevel := false; Level := log.Warning;
     SetLogPackets := false; LogPackets := false;
     SetStrace := true; EnableStrace := false; StraceWhitelist := [] |}.

Definition with_EnableStrace (a : LoggingArgs) (b : bool) : LoggingArgs :=
  {| SetLevel := SetLevel a; Level := Level a;
     SetLogPackets := SetLogPackets a; LogPackets := LogPackets a;
     SetStrace := SetStrace a; EnableStrace := b;
     StraceWhitelist := StraceWhitelist a |}.

Definition with_StraceWhitelist (a : LoggingArgs) (l : list string) : LoggingArgs :=
  {| SetLevel := SetLevel a; Level := Level a;
     SetLogPackets := SetLogPackets a; LogPackets := LogPackets a;
     SetStrace := SetStrace a; EnableStrace := EnableStrace a;
     StraceWhitelist := l |}.

Definition with_SetLevel (a : LoggingArgs) (b : bool) : LoggingArgs :=
  {| SetLevel := b; Level := Level a;
     SetLogPackets := SetLogPackets a; LogPackets := LogPackets a;
     SetStrace := SetStrace a; EnableStrace := EnableStrace a;
     StraceWhitelist := StraceWhitelist a |}.

Definition with_Level (a : LoggingArgs) (l : log.Level) : LoggingArgs :=
  {| SetLevel := SetLevel a; Level := l;
     SetLogPackets := SetLogPackets a; LogPackets := LogPackets a;
     SetStrace := SetStrace a; EnableStrace := EnableStrace a;
     StraceWhitelist := StraceWhitelist a |}.

Definition with_SetLogPackets (a : LoggingArgs) (b : bool) : LoggingArgs :=
  {| SetLevel := SetLevel a; Level := Level a;
     SetLogPackets := b; LogPackets := LogPackets a;
     SetStrace := SetStrace a; EnableStrace := EnableStrace a;
     StraceWhitelist := StraceWhitelist a |}.

Definition with_LogPackets (a : LoggingArgs) (b : bool) : LoggingArgs :=
  {| SetLevel := SetLevel a; Level := Level a;
     SetLogPackets := SetLogPackets a; LogPackets := b;
     SetStrace := SetStrace a; EnableStrace := EnableStrace a;
     StraceWhitelist := StraceWhitelist a |}.
End control.

(** Package [sandbox]: what the command reads of a [*sandbox.Sandbox]:
    its ID, the PID of the sandbox process and the answer of
    [IsRunning()]. *)
Module sandbox.
Record Sandbox := { ID : string; Pid : Z; IsRunning : bool }.
End sandbox.

(** Package [container]: what the command reads of a loaded
    [*container.Container]: the [Sandbox] pointer ([None] is nil) and the
    answer of the method [SandboxPid()]. *)
Module container.
Record Container := { Sandbox : option sandbox.Sandbox; SandboxPid : Z }.
End container.

(** Package [boot]: the part of [boot.Config] the command reads. *)
Module boot.
Record Config := { RootDir : string }.
End boot.

(** The receiver: the flags of the command (lines 34-45); [int] is 64 bits
    wide on the platforms runsc builds for. *)
Record Debug := {
  pid : Z;
  stacks : bool;
  signal : Z;
  profileHeap : string;
  profileCPU : string;
  profileDelay : Z;
  trace : string;
  strace : string;
  logLevel : string;
  logPackets : string
}.

(** ** The Go library functions the command calls *)

Module strings.

Definition isUpperByte (c : ascii) : bool :=
  ((65 <=? nat_of_ascii c) && (nat_of_ascii c <=? 90))%nat.

(** ['A'..'Z'] moved by ['a' - 'A']; every other byte unchanged. *)
Definition lowerByte (c : ascii) : ascii :=
  if isUpperByte c then ascii_of_nat (nat_of_ascii c + 32) else c.

(** No byte is [>= utf8.RuneSelf] (0x80). *)
Fixpoint isASCII (s : string) : bool :=
  match s with
  | EmptyString => true
  | String c r => (nat_of_ascii c <? 128)%nat && isASCII r
  end.

Fixpoint mapBytes (f : ascii -> ascii) (s : string) : string :=
  match s with
  | EmptyString => EmptyString
  | String c r => String (f c) (mapBytes f r)
  end.

(** [strings.ToLower]: an ASCII-only string is lowered byte by byte; any
    other string goes through [strings.Map(unicode.ToLower, s)], whose
    Unicode tables are outside this development and are taken as the
    parameter [mapUnicodeToLower]. *)
Definition ToLower (mapUnicodeToLower : string -> string) (s : string) : string :=
  if isASCII s then mapBytes lowerByte s else mapUnicodeToLower s.

(** [strings.Split(s, sep)] for a separator [sep] of one byte: the
    substrings between the separators, in order; n separators give n+1
    substrings. *)
Fixpoint Split (s : string) (sep : ascii) : list string :=
  match s with
  | EmptyString => [EmptyString]
  | String c r =>
      if Ascii.eqb c sep then EmptyString :: Split r sep
      else match Split r sep with
           | h :: t => String c h :: t
           | [] => [String c EmptyString]
           end
  end.

(** [strings.Join(l, sep)], used to state what [Split] returns. *)
Fixpoint Join (l : list string) (sep : string) : string :=
  match l with
  | [] => EmptyString
  | [x] => x
  | x :: rest => x +++ sep +++ Join rest sep
  end.

Fixpoint containsByte (c : ascii) (s : string) : bool :=
  match s with
  | EmptyString => false
  | String x r => Ascii.eqb x c || containsByte c r
  end.

Fixpoint countByte (c : ascii) (s : string) : nat :=
  match s with
  | EmptyString => O
  | String x r => if Ascii.eqb x c then S (countByte c r) else countByte c r
  end.

End strings.

Module strconv.

(** [strconv.ParseBool]: the twelve accepted spellings, else an error. *)
Definition ParseBool (str : string) : Result bool :=
  if (str == "1") || (str == "t") || (str == "T")
     || (str == "true") || (str == "TRUE") || (str == "True") then Ok true
  else if (str == "0") || (str == "f") || (str == "F")
     || (str == "false") || (str == "FALSE") || (str == "False") then Ok false
  else Err ("strconv.ParseBool: parsing " +++ str +++ ": invalid syntax").

End strconv.

Module time.

(** [time.Duration] is an [int64] count of nanoseconds; arithmetic on it
    wraps around. *)
Definition wrap64 (z : Z) : Z := (z + 2 ^ 63) mod 2 ^ 64 - 2 ^ 63.

Definition Second : Z := 1000000000.

(** [time.Duration(n) * time.Second]. *)
Definition seconds (n : Z) : Z := wrap64 (wrap64 n * Second).

End time.

(** ** The outside world *)

(** An argument of a format string ([%d], [%q], [%s], [%v]). *)
Inductive Arg :=
| AInt (z : Z)
| AStr (s : string)
| AErr (e : error)
| ALevel (l : log.Level).

(** What the command does to the outside, in the order it does it. *)
Inductive Event :=
| EUsage                                                   (* f.Usage() *)
| EList (rootDir : string)                                 (* container.List *)
| ELoad (rootDir id : string)                              (* container.Load *)
| EKill (pid sig : Z)                                      (* syscall.Kill *)
| EStacks (sb : sandbox.Sandbox)                           (* Sandbox.Stacks *)
| ECreate (path : string)                                  (* os.Create *)
| EClose (f : File)                                        (* f.Close *)
| EHeapProfile (sb : sandbox.Sandbox) (f : File)           (* Sandbox.HeapProfile *)
| EStartCPUProfile (sb : sandbox.Sandbox) (f : File)       (* Sandbox.StartCPUProfile *)
| EStopCPUProfile (sb : sandbox.Sandbox)                   (* Sandbox.StopCPUProfile *)
| EStartTrace (sb : sandbox.Sandbox) (f : File)            (* Sandbox.StartTrace *)
| EStopTrace (sb : sandbox.Sandbox)                        (* Sandbox.StopTrace *)
| EChangeLogging (sb : sandbox.Sandbox) (args : control.LoggingArgs)
| ESleep (d : Z)                                           (* time.Sleep, nanoseconds *)
| EInfof (format : string) (args : list Arg)               (* log.Infof; the format as written *)
| EErrorf (format : string) (args : list Arg)              (* Errorf *)
| EFatalf (format : string) (args : list Arg).             (* Fatalf *)

(** What the outside answers.  Every call site of [Execute] runs at most
    once, except [container.Load], which the scan calls once per listed
    identifier. *)
Record World := {
  mapUnicodeToLower : string -> string;
  container_List : string -> Result (list string);
  container_Load : string -> string -> Result container.Container;
  syscall_Kill : Z -> Z -> option error;
  os_Create : string -> Result File;
  Stacks : sandbox.Sandbox -> Result string;
  HeapProfile : sandbox.Sandbox -> File -> option error;
  StartCPUProfile : sandbox.Sandbox -> File -> option error;
  StopCPUProfile : sandbox.Sandbox -> option error;
  StartTrace : sandbox.Sandbox -> File -> option error;
  StopTrace : sandbox.Sandbox -> option error;
  ChangeLogging : sandbox.Sandbox -> control.LoggingArgs -> option error
}.

(** ** Control flow: events, [defer] and early [return] *)

(** The closures the command defers: [f.Close] (line 141) and the two
    function literals of lines 156-162 and 174-180, with the variables they
    capture. *)
Inductive Deferred :=
| DeferClose (f : File)
| DeferStopCPUProfile (sb : sandbox.Sandbox) (f : File) (profileCPU : string)
| DeferStopTrace (sb : sandbox.Sandbox) (f : File) (trace : string).

Inductive Flow (A : Type) : Type :=
| Next (a : A)                (* execution goes on with [a] *)
| Return (s : ExitStatus).    (* a [return] statement was executed *)
Arguments Next {A} a.
Arguments Return {A} s.

(** A piece of the function body that has run: the events it produced, the
    closures it deferred (the most recent first) and where it left off. *)
Record M (A : Type) : Type := mkRun {
  events : list Event;
  deferred : list Deferred;
  flow : Flow A
}.
Arguments mkRun {A} events deferred flow.
Arguments events {A} m.
Arguments deferred {A} m.
Arguments flow {A} m.

Definition pure {A} (a : A) : M A := mkRun [] [] (Next a).

Definition bind {A B} (m : M A) (k : A -> M B) : M B :=
  match flow m with
  | Return s => mkRun (events m) (deferred m) (Return s)
  | Next a =>
      let r := k a in
      mkRun (events m ++ events r) (deferred r ++ deferred m) (flow r)
  end.

Declare Scope go_scope.
Delimit Scope go_scope with go.
Notation "x <- m ;; k" := (bind m (fun x => k))
  (at level 61, m at next level, right associativity) : go_scope.
Notation "m ;; k" := (bind m (fun _ => k))
  (at level 61, right associativity) : go_scope.
Local Open Scope go_scope.

(** An external call: the event, and the answer of the world. *)
Definition call {A} (e : Event) (answer : A) : M A := mkRun [e] [] (Next answer).

Definition defer (c : Deferred) : M unit := mkRun [] [c] (Next tt).

Definition return_ {A} (s : ExitStatus) : M A := mkRun [] [] (Return s).

Definition Infof (format : string) (args : list Arg) : M unit :=
  call (EInfof format args) tt.

(** Modelled from the spec: [Errorf] is defined elsewhere in package [cmd];
    by the specification it reports a descriptive message and gives the
    failure status. *)
Definition Errorf (format : string) (args : list Arg) : M ExitStatus :=
  call (EErrorf format args) ExitFailure.

(** [return Errorf(...)]. *)
Notation "'return!' m" := (bind m (fun s => return_ s))
  (at level 61, m at next level) : go_scope.

(** How an invocation of the command ends. *)
Inductive Outcome :=
| Exited (s : ExitStatus)     (* [Execute] returned [s] *)
| Terminated.                 (* the process was ended inside [Fatalf] *)

(** Running one deferred closure: its events, and whether it ended the
    process.
    Modelled from the spec: [Fatalf] is defined elsewhere in package [cmd];
    by the specification a stop failure is escalated to unconditional
    process termination, so nothing runs after it. *)
Definition runClosure (w : World) (c : Deferred) : list Event * bool :=
  match c with
  | DeferClose f => ([EClose f], false)
  | DeferStopCPUProfile sb f profileCPU =>
      match StopCPUProfile w sb with
      | Some err => ([EClose f; EStopCPUProfile sb; EFatalf err []], true)
      | None =>
          ([EClose f; EStopCPUProfile sb;
            EInfof "CPU profile written to %q" [AStr profileCPU]], false)
      end
  | DeferStopTrace sb f trace =>
      match StopTrace w sb with
      | Some err => ([EClose f; EStopTrace sb; EFatalf err []], true)
      | None =>
          ([EClose f; EStopTrace sb;
            EInfof "Trace written to %q" [AStr trace]], false)
      end
  end.

(** The deferred closures run when the function returns, the most recently
    deferred first; a closure that ends the process ends the run. *)
Fixpoint runDeferred (w : World) (stack : list Deferred) : list Event * bool :=
  match stack with
  | [] => ([], false)
  | c :: rest =>
      let (evs, exited) := runClosure w c in
      if exited then (evs, true)
      else let (evs', exited') := runDeferred w rest in (evs ++ evs', exited')
  end.

(** The status a body that has run returns; the body of [Execute] always
    ends in a [return]. *)
Definition status {A} (m : M A) : ExitStatus :=
  match flow m with
  | Return s => s
  | Next _ => ExitSuccess
  end.

(** Leaving the function: the deferred closures run after the body; the
    events of the whole invocation and how it ended. *)
Definition finish {A} (w : World) (m : M A) : list Event * Outcome :=
  let (evs, exited) := runDeferred w (deferred m) in
  (events m ++ evs, if exited then Terminated else Exited (status m)).

(** ** [Debug.Execute], block by block *)

Section Execute.

Variable w : World.
Variable d : Debug.
Variable conf : boot.Config.
(** The positional arguments left in the flag set [f]: [f.NArg()] is their
    number and [f.Arg(i)] the i-th of them (the empty string out of
    range). *)
Variable fargs : list string.

Definition NArg : nat := List.length fargs.
Definition f_Arg (i : nat) : string := nth i fargs "".

(** Lines 102-111: the scan over the listed identifiers; [None] is the
    nil [c] the loop leaves when nothing matched. *)
Fixpoint scan (ids : list string) : M (option container.Container) :=
  match ids with
  | [] => pure None
  | id :: rest =>
      r <- call (ELoad (boot.RootDir conf) id)
                (container_Load w (boot.RootDir conf) id) ;;
      match r with
      | Err err =>
          return! Errorf "loading container %q: %v" [AStr id; AErr err]
      | Ok candidate =>
          if container.SandboxPid candidate =? pid d
          then pure (Some candidate)
          else scan rest
      end
  end.

(** Lines 81-115: which container. *)
Definition resolve : M container.Container :=
  if pid d =? 0 then
    if negb (Nat.eqb NArg 1) then
      call EUsage tt ;;
      return_ ExitUsageError
    else
      r <- call (ELoad (boot.RootDir conf) (f_Arg 0))
                (container_Load w (boot.RootDir conf) (f_Arg 0)) ;;
      match r with
      | Err err =>
          return! Errorf "loading container %q: %v" [AStr (f_Arg 0); AErr err]
      | Ok c => pure c
      end
  else
    if negb (Nat.eqb NArg 0) then
      call EUsage tt ;;
      return_ ExitUsageError
    else
      r <- call (EList (boot.RootDir conf)) (container_List w (boot.RootDir conf)) ;;
      match r with
      | Err err => return! Errorf "listing containers: %v" [AErr err]
      | Ok ids =>
          c <- scan ids ;;
          match c with
          | None => return! Errorf "container with PID %d not found" [AInt (pid d)]
          | Some c => pure c
          end
      end.

(** Lines 117-120: the sandbox must be there and running. *)
Definition running (c : container.Container) : M sandbox.Sandbox :=
  match container.Sandbox c with
  | None => return! Errorf "container sandbox is not running" []
  | Some sb =>
      if negb (sandbox.IsRunning sb)
      then return! Errorf "container sandbox is not running" []
      else
        Infof "Found sandbox %q, PID: %d"
              [AStr (sandbox.ID sb); AInt (sandbox.Pid sb)] ;;
        pure sb
  end.

(** Lines 122-127. *)
Definition sendSignal (sb : sandbox.Sandbox) : M unit :=
  if signal d >? 0 then
    Infof "Sending signal %d to process: %d"
          [AInt (signal d); AInt (sandbox.Pid sb)] ;;
    e <- call (EKill (sandbox.Pid sb) (signal d))
              (syscall_Kill w (sandbox.Pid sb) (signal d)) ;;
    match e with
    | Some err =>
        return! Errorf "failed to send signal %d to processs %d"
                       [AInt (signal d); AInt (sandbox.Pid sb)]
    | None => pure tt
    end
  else pure tt.

(** Lines 128-135. *)
Definition dumpStacks (sb : sandbox.Sandbox) : M unit :=
  if stacks d then
    Infof "Retrieving sandbox stacks" [] ;;
    r <- call (EStacks sb) (Stacks w sb) ;;
    match r with
    | Err err => return! Errorf "retrieving stacks: %v" [AErr err]
    | Ok stacks => Infof "     *** Stack dump ***\n%s" [AStr stacks]
    end
  else pure tt.

(** Lines 136-147. *)
Definition heapProfile (sb : sandbox.Sandbox) : M unit :=
  if negb (profileHeap d == "") then
    r <- call (ECreate (profileHeap d)) (os_Create w (profileHeap d)) ;;
    match r with
    | Err err => return! Errorf err []
    | Ok f =>
        defer (DeferClose f) ;;
        e <- call (EHeapProfile sb f) (HeapProfile w sb f) ;;
        match e with
        | Some err => return! Errorf err []
        | None => Infof "Heap profile written to %q" [AStr (profileHeap d)]
        end
    end
  else pure tt.

(** Lines 150-167; the result is the value of [delay] afterwards. *)
Definition cpuProfile (sb : sandbox.Sandbox) (delay : bool) : M bool :=
  if negb (profileCPU d == "") then
    let delay := true in
    r <- call (ECreate (profileCPU d)) (os_Create w (profileCPU d)) ;;
    match r with
    | Err err => return! Errorf err []
    | Ok f =>
        defer (DeferStopCPUProfile sb f (profileCPU d)) ;;
        e <- call (EStartCPUProfile sb f) (StartCPUProfile w sb f) ;;
        match e with
        | Some err => return! Errorf err []
        | None =>
            Infof "CPU profile started for %d sec, writing to %q"
                  [AInt (profileDelay d); AStr (profileCPU d)] ;;
            pure delay
        end
    end
  else pure delay.

(** Lines 168-186; the result is the value of [delay] afterwards. *)
Definition traceSession (sb : sandbox.Sandbox) (delay : bool) : M bool :=
  if negb (trace d == "") then
    let delay := true in
    r <- call (ECreate (trace d)) (os_Create w (trace d)) ;;
    match r with
    | Err err => return! Errorf err []
    | Ok f =>
        defer (DeferStopTrace sb f (trace d)) ;;
        e <- call (EStartTrace sb f) (StartTrace w sb f) ;;
        match e with
        | Some err => return! Errorf err []
        | None =>
            Infof "Tracing started for %d sec, writing to %q"
                  [AInt (profileDelay d); AStr (trace d)] ;;
            pure delay
        end
    end
  else pure delay.

Definition ToLower (s : string) : string :=
  strings.ToLower (mapUnicodeToLower w) s.

(** Lines 191-205. *)
Definition straceArgs (args : control.LoggingArgs) : M control.LoggingArgs :=
  if negb (strace d == "") then
    if ToLower (strace d) == "off" then
      Infof "Disabling strace" [] ;;
      pure args
    else
      let args := control.with_EnableStrace args true in
      if ToLower (strace d) == "all" then
        Infof "Enabling all straces" [] ;;
        pure args
      else
        let args :=
          control.with_StraceWhitelist args (strings.Split (strace d) ",") in
        Infof "Enabling strace for syscalls: %s" [AStr (strace d)] ;;
        pure args
  else pure args.

(** Lines 207-220. *)
Definition levelArgs (args : control.LoggingArgs) : M control.LoggingArgs :=
  if negb (Nat.eqb (String.length (logLevel d)) 0) then
    let args := control.with_SetLevel args true in
    let l := ToLower (logLevel d) in
    args <- (if (l == "warning") || (l == "0") then
               pure (control.with_Level args log.Warning)
             else if (l == "info") || (l == "1") then
               pure (control.with_Level args log.Info)
             else if (l == "debug") || (l == "2") then
               pure (control.with_Level args log.Debug)
             else
               return! Errorf "invalid log level %d" [AStr (logLevel d)]) ;;
    Infof "Setting log level %v" [ALevel (control.Level args)] ;;
    pure args
  else pure args.

(** Lines 222-234. *)
Definition logPacketsArgs (args : control.LoggingArgs) : M control.LoggingArgs :=
  if negb (Nat.eqb (String.length (logPackets d)) 0) then
    let args := control.with_SetLogPackets args true in
    match strconv.ParseBool (logPackets d) with
    | Err err =>
        return! Errorf "invalid value for log_packets %q" [AStr (logPackets d)]
    | Ok lp =>
        let args := control.with_LogPackets args lp in
        (if control.LogPackets args
         then Infof "Enabling package logging" []
         else Infof "Disabling package logging" []) ;;
        pure args
    end
  else pure args.

(** Lines 188-240. *)
Definition changeLogging (sb : sandbox.Sandbox) : M unit :=
  if negb (strace d == "")
     || negb (Nat.eqb (String.length (logLevel d)) 0)
     || negb (Nat.eqb (String.length (logPackets d)) 0) then
    let args := control.SetStrace_true in
    args <- straceArgs args ;;
    args <- levelArgs args ;;
    args <- logPacketsArgs args ;;
    e <- call (EChangeLogging sb args) (ChangeLogging w sb args) ;;
    match e with
    | Some err => return! Errorf err []
    | None => Infof "Logging options changed" []
    end
  else pure tt.

(** Lines 242-244. *)
Definition sleep (delay : bool) : M unit :=
  if delay then call (ESleep (time.seconds (profileDelay d))) tt else pure tt.

(** The body of [Execute], lines 78-246. *)
Definition body : M unit :=
  c <- resolve ;;
  sb <- running c ;;
  sendSignal sb ;;
  dumpStacks sb ;;
  heapProfile sb ;;
  let delay := false in
  delay <- cpuProfile sb delay ;;
  delay <- traceSession sb delay ;;
  changeLogging sb ;;
  sleep delay ;;
  return_ ExitSuccess.

(** [Execute]: the body, then the deferred closures; the events of the
    whole invocation and how it ended. *)
Definition Execute : list Event * Outcome := finish w body.

End Execute.

(** ** Stages of the body

    The body up to a given point; a stage whose [flow] is [Next] says that
    the command got that far without returning. *)

Section Stages.

Variable w : World.
Variable d : Debug.
Variable conf : boot.Config.
Variable fargs : list string.

(** Lines 81-120: the running sandbox the actions are applied to. *)
Definition target : M sandbox.Sandbox :=
  c <- resolve w d conf fargs ;;
  running c.

(** Lines 122-246: the actions on the running sandbox, to the end. *)
Definition actions (sb : sandbox.Sandbox) : M unit :=
  sendSignal w d sb ;;
  dumpStacks w d sb ;;
  heapProfile w d sb ;;
  delay <- cpuProfile w d sb false ;;
  delay <- traceSession w d sb delay ;;
  changeLogging w d sb ;;
  sleep d delay ;;
  return_ ExitSuccess.

(** Lines 81-147: everything before the CPU profile. *)
Definition beforeCPUProfile : M sandbox.Sandbox :=
  sb <- target ;;
  sendSignal w d sb ;;
  dumpStacks w d sb ;;
  heapProfile w d sb ;;
  pure sb.

(** Lines 81-167: everything before the trace; with the sandbox, the value
    of [delay]. *)
Definition beforeTrace : M (sandbox.Sandbox * bool) :=
  sb <- beforeCPUProfile ;;
  delay <- cpuProfile w d sb false ;;
  pure (sb, delay).

(** Lines 81-186: everything before the logging change. *)
Definition beforeLogging : M (sandbox.Sandbox * bool) :=
  x <- beforeTrace ;;
  delay <- traceSession w d (fst x) (snd x) ;;
  pure (fst x, delay).

(** Lines 81-240: the main sequence, everything before the delay. *)
Definition beforeSleep : M (sandbox.Sandbox * bool) :=
  x <- beforeLogging ;;
  changeLogging w d (fst x) ;;
  pure x.

(** Lines 189-234: the [control.LoggingArgs] the three inputs build. *)
Definition loggingArgs : M control.LoggingArgs :=
  args <- straceArgs w d control.SetStrace_true ;;
  args <- levelArgs w d args ;;
  logPacketsArgs d args.

End Stages.

(** ** Reading a list of events *)

Definition isLoad (e : Event) : bool :=
  match e with ELoad _ _ => true | _ => false end.

Definition isKill (e : Event) : bool :=
  match e with EKill _ _ => true | _ => false end.

Definition isSleep (e : Event) : bool :=
  match e with ESleep _ => true | _ => false end.

Definition isChangeLogging (e : Event) : bool :=
  match e with EChangeLogging _ _ => true | _ => false end.

Definition isStopCPUProfile (e : Event) : bool :=
  match e with EStopCPUProfile _ => true | _ => false end.

Definition isStopTrace (e : Event) : bool :=
  match e with EStopTrace _ => true | _ => false end.

Definition isStop (e : Event) : bool := isStopCPUProfile e || isStopTrace e.

Definition fileEqb (f g : File) : bool := (fd f =? fd g) && (name f == name g).

Definition isCloseOf (f : File) (e : Event) : bool :=
  match e with EClose g => fileEqb f g | _ => false end.

(** Events that only write to the log or to the terminal. *)
Definition isMessage (e : Event) : bool :=
  match e with
  | EUsage | EInfof _ _ | EErrorf _ _ | EFatalf _ _ => true
  | _ => false
  end.

(** The calls to the registry, the sandbox and the operating system. *)
Definition externalCalls (evs : list Event) : list Event :=
  filter (fun e => negb (isMessage e)) evs.

(** The index of the first event that satisfies [p]. *)
Fixpoint position (p : Event -> bool) (evs : list Event) : option nat :=
  match evs with
  | [] => None
  | e :: rest =>
      if p e then Some O
      else match position p rest with
           | Some n => Some (S n)
           | None => None
           end
  end.

(** The first stop request comes before the first close of [f]. *)
Definition stopBeforeClose (stop : Event -> bool) (f : File) (evs : list Event) : Prop :=
  exists i j,
    position stop evs = Some i /\ position (isCloseOf f) evs = Some j /\ (i < j)%nat.

(** The logging changes sent in a list of events. *)
Fixpoint changesSent (evs : list Event) : list control.LoggingArgs :=
  match evs with
  | [] => []
  | EChangeLogging _ args :: rest => args :: changesSent rest
  | _ :: rest => changesSent rest
  end.

(** The listed identifier [id] loads, and its sandbox PID is not the one
    asked for. *)
Definition passedOver (w : World) (d : Debug) (conf : boot.Config) (id : string) : Prop :=
  exists c,
    container_Load w (boot.RootDir conf) id = Ok c /\
    container.SandboxPid c <> pid d.

(** A deferred stop closure holds the destination that was created for its
    session. *)
Definition holdsDestination (w : World) (d : Debug) (c : Deferred) : Prop :=
  match c with
  | DeferClose _ => True
  | DeferStopCPUProfile _ f _ => os_Create w (profileCPU d) = Ok f
  | DeferStopTrace _ f _ => os_Create w (trace d) = Ok f
  end.

(** An input of the logging change is present. *)
Definition present (s : string) : bool := negb (s == "").

(** ** Which step of the command an event belongs to *)

Inductive Step :=
| Message          (* usage text, log lines, error reports *)
| Resolving        (* container.List, container.Load *)
| Signalling       (* syscall.Kill *)
| DumpingStacks    (* Sandbox.Stacks *)
| Opening          (* os.Create *)
| Closing          (* f.Close *)
| HeapProfiling    (* Sandbox.HeapProfile *)
| Starting         (* Sandbox.StartCPUProfile, Sandbox.StartTrace *)
| Stopping         (* Sandbox.StopCPUProfile, Sandbox.StopTrace *)
| Logging          (* Sandbox.ChangeLogging *)
| Sleeping.        (* time.Sleep *)

Definition step (e : Event) : Step :=
  match e with
  | EUsage | EInfof _ _ | EErrorf _ _ | EFatalf _ _ => Message
  | EList _ | ELoad _ _ => Resolving
  | EKill _ _ => Signalling
  | EStacks _ => DumpingStacks
  | ECreate _ => Opening
  | EClose _ => Closing
  | EHeapProfile _ _ => HeapProfiling
  | EStartCPUProfile _ _ | EStartTrace _ _ => Starting
  | EStopCPUProfile _ | EStopTrace _ => Stopping
  | EChangeLogging _ _ => Logging
  | ESleep _ => Sleeping
  end.

(** Every event of the list belongs to one of the given steps. *)
Definition within (steps : list Step) (evs : list Event) : Prop :=
  Forall (fun e => In (step e) steps) evs.

(** What the strace input asks of the change: the strace flag set; tracing
    disabled for off, enabled with an empty whitelist for all, and enabled
    with the input split at the commas in any other case. *)
Definition straceFields (w : World) (d : Debug) (args : control.LoggingArgs) : Prop :=
  control.SetStrace args = true
  /\ (ToLower w (strace d) = "off" -> control.EnableStrace args = false)
  /\ (ToLower w (strace d) = "all" ->
      control.EnableStrace args = true /\ control.StraceWhitelist args = [])
  /\ (ToLower w (strace d) <> "off" -> ToLower w (strace d) <> "all" ->
      control.EnableStrace args = true
      /\ control.StraceWhitelist args = strings.Split (strace d) ",").

(** The six accepted spellings of a log level, lowered. *)
Definition levelNames : list string :=
  ["warning"; "0"; "info"; "1"; "debug"; "2"].

(** ** Sample invocations *)

Module Sample.

Definition sb : sandbox.Sandbox :=
  {| sandbox.ID := "abc"; sandbox.Pid := 42; sandbox.IsRunning := true |}.

Definition abc : container.Container :=
  {| container.Sandbox := Some sb; container.SandboxPid := 42 |}.

Definition stopped : container.Container :=
  {| container.Sandbox := None; container.SandboxPid := -1 |}.

Definition conf : boot.Config := {| boot.RootDir := "/var/run/runsc" |}.

Definition file (path : string) : File := {| fd := 3; name := path |}.

(** A registry that lists [ids]; abc is the container of the sandbox with
    PID 42, z does not load, every other one loads with no sandbox; the
    answers of the sandbox and of the system are parameters. *)
Definition world (ids : list string) (kill : option error)
    (create : string -> Result File)
    (startCPU stopCPU startTrace stopTrace : option error) : World :=
  {| mapUnicodeToLower := fun s => s;
     container_List := fun _ => Ok ids;
     container_Load := fun _ id =>
       if id == "z" then Err "no such file"
       else if id == "abc" then Ok abc else Ok stopped;
     syscall_Kill := fun _ _ => kill;
     os_Create := create;
     Stacks := fun _ => Ok "goroutine 1 [running]";
     HeapProfile := fun _ _ => None;
     StartCPUProfile := fun _ _ => startCPU;
     StopCPUProfile := fun _ => stopCPU;
     StartTrace := fun _ _ => startTrace;
     StopTrace := fun _ => stopTrace;
     ChangeLogging := fun _ _ => None |}.

(** Every call succeeds. *)
Definition calm : World :=
  world ["x"; "abc"; "z"] None (fun p => Ok (file p)) None None None None.

(** The same with a registry in which every container loads. *)
Definition unmatched : World :=
  world ["x"; "abc"] None (fun p => Ok (file p)) None None None None.

(** The signal cannot be delivered. *)
Definition deaf : World :=
  world ["x"; "abc"; "z"] (Some "no such process") (fun p => Ok (file p))
        None None None None.

(** The sandbox refuses to start a CPU profile, and then to stop one. *)
Definition noCPUProfile : World :=
  world ["x"; "abc"; "z"] None (fun p => Ok (file p))
        (Some "cpu profiling already enabled") (Some "cpu profiling not enabled")
        None None.

(** The sandbox refuses to start a trace. *)
Definition noTrace : World :=
  world ["x"; "abc"; "z"] None (fun p => Ok (file p))
        None None (Some "trace already started") None.

(** The destination of the trace cannot be created. *)
Definition noTraceFile : World :=
  world ["x"; "abc"; "z"] None
        (fun p => if p == "/tmp/trace.out" then Err "permission denied"
                  else Ok (file p))
        None None None None.

(** No flag set: the defaults of [SetFlags]. *)
Definition flags : Debug :=
  {| pid := 0; stacks := false; signal := -1;
     profileHeap := ""; profileCPU := ""; profileDelay := 5; trace := "";
     strace := ""; logLevel := ""; logPackets := "" |}.

Definition with_pid (d : Debug) (n : Z) : Debug :=
  {| pid := n; stacks := stacks d; signal := signal d;
     profileHeap := profileHeap d; profileCPU := profileCPU d;
     profileDelay := profileDelay d; trace := trace d;
     strace := strace d; logLevel := logLevel d; logPackets := logPackets d |}.

Definition with_signal (d : Debug) (n : Z) : Debug :=
  {| pid := pid d; stacks := stacks d; signal := n;
     profileHeap := profileHeap d; profileCPU := profileCPU d;
     profileDelay := profileDelay d; trace := trace d;
     strace := strace d; logLevel := logLevel d; logPackets := logPackets d |}.

Definition with_profileCPU (d : Debug) (p : string) : Debug :=
  {| pid := pid d; stacks := stacks d; signal := signal d;
     profileHeap := profileHeap d; profileCPU := p;
     profileDelay := profileDelay d; trace := trace d;
     strace := strace d; logLevel := logLevel d; logPackets := logPackets d |}.

Definition with_trace (d : Debug) (p : string) : Debug :=
  {| pid := pid d; stacks := stacks d; signal := signal d;
     profileHeap := profileHeap d; profileCPU := profileCPU d;
     profileDelay := profileDelay d; trace := p;
     strace := strace d; logLevel := logLevel d; logPackets := logPackets d |}.

Definition with_strace (d : Debug) (s : string) : Debug :=
  {| pid := pid d; stacks := stacks d; signal := signal d;
     profileHeap := profileHeap d; profileCPU := profileCPU d;
     profileDelay := profileDelay d; trace := trace d;
     strace := s; logLevel := logLevel d; logPackets := logPackets d |}.

Definition with_logLevel (d : Debug) (s : string) : Debug :=
  {| pid := pid d; stacks := stacks d; signal := signal d;
     profileHeap := profileHeap d; profileCPU := profileCPU d;
     profileDelay := profileDelay d; trace := trace d;
     strace := strace d; logLevel := s; logPackets := logPackets d |}.

End Sample.

(** More sample worlds. *)
Module Sample2.

(** The registry cannot be listed. *)
Definition noRegistry : World :=
  {| mapUnicodeToLower := fun s => s;
     container_List := fun _ => Err "permission denied";
     container_Load := container_Load Sample.calm;
     syscall_Kill := syscall_Kill Sample.calm;
     os_Create := os_Create Sample.calm;
     Stacks := Stacks Sample.calm;
     HeapProfile := HeapProfile Sample.calm;
     StartCPUProfile := StartCPUProfile Sample.calm;
     StopCPUProfile := StopCPUProfile Sample.calm;
     StartTrace := StartTrace Sample.calm;
     StopTrace := StopTrace Sample.calm;
     ChangeLogging := ChangeLogging Sample.calm |}.

(** The stacks cannot be retrieved. *)
Definition noStacks : World :=
  {| mapUnicodeToLower := fun s => s;
     container_List := container_List Sample.calm;
     container_Load := container_Load Sample.calm;
     syscall_Kill := syscall_Kill Sample.calm;
     os_Create := os_Create Sample.calm;
     Stacks := fun _ => Err "stacks unavailable";
     HeapProfile := HeapProfile Sample.calm;
     StartCPUProfile := StartCPUProfile Sample.calm;
     StopCPUProfile := StopCPUProfile Sample.calm;
     StartTrace := StartTrace Sample.calm;
     StopTrace := StopTrace Sample.calm;
     ChangeLogging := ChangeLogging Sample.calm |}.

(** The heap profile fails, and its destination when it is /root/heap.out
    cannot be created. *)
Definition noHeapProfile : World :=
  {| mapUnicodeToLower := fun s => s;
     container_List := container_List Sample.calm;
     container_Load := container_Load Sample.calm;
     syscall_Kill := syscall_Kill Sample.calm;
     os_Create := fun p => if p == "/root/heap.out" then Err "permission denied"
                           else Ok (Sample.file p);
     Stacks := Stacks Sample.calm;
     HeapProfile := fun _ _ => Some "heap profile failed";
     StartCPUProfile := StartCPUProfile Sample.calm;
     StopCPUProfile := StopCPUProfile Sample.calm;
     StartTrace := StartTrace Sample.calm;
     StopTrace := StopTrace Sample.calm;
     ChangeLogging := ChangeLogging Sample.calm |}.

(** The trace cannot be stopped. *)
Definition noTraceStop : World :=
  {| mapUnicodeToLower := fun s => s;
     container_List := container_List Sample.calm;
     container_Load := container_Load Sample.calm;
     syscall_Kill := syscall_Kill Sample.calm;
     os_Create := os_Create Sample.calm;
     Stacks := Stacks Sample.calm;
     HeapProfile := HeapProfile Sample.calm;
     StartCPUProfile := StartCPUProfile Sample.calm;
     StopCPUProfile := StopCPUProfile Sample.calm;
     StartTrace := StartTrace Sample.calm;
     StopTrace := fun _ => Some "trace not started";
     ChangeLogging := ChangeLogging Sample.calm |}.

(** The sandbox rejects the logging change. *)
Definition noLogging : World :=
  {| mapUnicodeToLower := fun s => s;
     container_List := container_List Sample.calm;
     container_Load := container_Load Sample.calm;
     syscall_Kill := syscall_Kill Sample.calm;
     os_Create := os_Create Sample.calm;
     Stacks := Stacks Sample.calm;
     HeapProfile := HeapProfile Sample.calm;
     StartCPUProfile := StartCPUProfile Sample.calm;
     StopCPUProfile := StopCPUProfile Sample.calm;
     StartTrace := StartTrace Sample.calm;
     StopTrace := StopTrace Sample.calm;
     ChangeLogging := fun _ _ => Some "logging rejected" |}.

End Sample2.

(** ** The rest of the command *)

(** Package [flag]: a [*flag.FlagSet] as the names defined in it, in the
    order of their definition.  [Var] defines a name, and panics ([None])
    when the name is already defined ("flag redefined"). *)
Module flag.

Definition FlagSet := list string.

Definition defined (f : FlagSet) (name : string) : bool :=
  existsb (String.eqb name) f.

Definition Var (f : FlagSet) (name : string) : option FlagSet :=
  if defined f name then None else Some (f ++ [name]).

End flag.

(** Assignments to the fields of the receiver. *)
Definition set_pid (d : Debug) (v : Z) : Debug :=
  {| pid := v; stacks := stacks d; signal := signal d;
     profileHeap := profileHeap d; profileCPU := profileCPU d;
     profileDelay := profileDelay d; trace := trace d;
     strace := strace d; logLevel := logLevel d; logPackets := logPackets d |}.

Definition set_stacks (d : Debug) (v : bool) : Debug :=
  {| pid := pid d; stacks := v; signal := signal d;
     profileHeap := profileHeap d; profileCPU := profileCPU d;
     profileDelay := profileDelay d; trace := trace d;
     strace := strace d; logLevel := logLevel d; logPackets := logPackets d |}.

Definition set_signal (d : Debug) (v : Z) : Debug :=
  {| pid := pid d; stacks := stacks d; signal := v;
     profileHeap := profileHeap d; profileCPU := profileCPU d;
     profileDelay := profileDelay d; trace := trace d;
     strace := strace d; logLevel := logLevel d; logPackets := logPackets d |}.

Definition set_profileHeap (d : Debug) (v : string) : Debug :=
  {| pid := pid d; stacks := stacks d; signal := signal d;
     profileHeap := v; profileCPU := profileCPU d;
     profileDelay := profileDelay d; trace := trace d;
     strace := strace d; logLevel := logLevel d; logPackets := logPackets d |}.

Definition set_profileCPU (d : Debug) (v : string) : Debug :=
  {| pid := pid d; stacks := stacks d; signal := signal d;
     profileHeap := profileHeap d; profileCPU := v;
     profileDelay := profileDelay d; trace := trace d;
     strace := strace d; logLevel := logLevel d; logPackets := logPackets d |}.

Definition set_profileDelay (d : Debug) (v : Z) : Debug :=
  {| pid := pid d; stacks := stacks d; signal := signal d;
     profileHeap := profileHeap d; profileCPU := profileCPU d;
     profileDelay := v; trace := trace d;
     strace := strace d; logLevel := logLevel d; logPackets := logPackets d |}.

Definition set_trace (d : Debug) (v : string) : Debug :=
  {| pid := pid d; stacks := stacks d; signal := signal d;
     profileHeap := profileHeap d; profileCPU := profileCPU d;
     profileDelay := profileDelay d; trace := v;
     strace := strace d; logLevel := logLevel d; logPackets := logPackets d |}.

Definition set_strace (d : Debug) (v : string) : Debug :=
  {| pid := pid d; stacks := stacks d; signal := signal d;
     profileHeap := profileHeap d; profileCPU := profileCPU d;
     profileDelay := profileDelay d; trace := trace d;
     strace := v; logLevel := logLevel d; logPackets := logPackets d |}.

Definition set_logLevel (d : Debug) (v : string) : Debug :=
  {| pid := pid d; stacks := stacks d; signal := signal d;
     profileHeap := profileHeap d; profileCPU := profileCPU d;
     profileDelay := profileDelay d; trace := trace d;
     strace := strace d; logLevel := v; logPackets := logPackets d |}.

Definition set_logPackets (d : Debug) (v : string) : Debug :=
  {| pid := pid d; stacks := stacks d; signal := signal d;
     profileHeap := profileHeap d; profileCPU := profileCPU d;
     profileDelay := profileDelay d; trace := trace d;
     strace := strace d; logLevel := logLevel d; logPackets := v |}.

Declare Scope panic_scope.
Delimit Scope panic_scope with panic.
Notation "x <-- m ;; k" :=
  (match m with Some x => k | None => None end)
  (at level 61, m at next level, right associativity) : panic_scope.

(** [f.IntVar(p, name, value, usage)], [f.BoolVar] and [f.StringVar]: the
    variable gets the default at once, and the name is defined in the flag
    set; the usage texts are left out.  The result is the new value of the
    variable, through [set], and the new flag set. *)
Definition flagVar {V} (set : Debug -> V -> Debug) (d : Debug) (f : flag.FlagSet)
    (name : string) (value : V) : option (Debug * flag.FlagSet) :=
  (f' <-- flag.Var f name ;; Some (set d value, f'))%panic.

(** Lines 63-74: [SetFlags]. *)
Definition SetFlags (d : Debug) (f : flag.FlagSet) : option (Debug * flag.FlagSet) :=
  (s <-- flagVar set_pid d f "pid" 0 ;;
   s <-- flagVar set_stacks (fst s) (snd s) "stacks" false ;;
   s <-- flagVar set_profileHeap (fst s) (snd s) "profile-heap" "" ;;
   s <-- flagVar set_profileCPU (fst s) (snd s) "profile-cpu" "" ;;
   s <-- flagVar set_profileDelay (fst s) (snd s) "profile-delay" 5 ;;
   s <-- flagVar set_trace (fst s) (snd s) "trace" "" ;;
   s <-- flagVar set_signal (fst s) (snd s) "signal" (-1) ;;
   s <-- flagVar set_strace (fst s) (snd s) "strace" "" ;;
   s <-- flagVar set_logLevel (fst s) (snd s) "log-level" "" ;;
   flagVar set_logPackets (fst s) (snd s) "log-packets" "")%panic.

(** The names [SetFlags] defines, in the order of lines 64-73. *)
Definition flagNames : list string :=
  ["pid"; "stacks"; "profile-heap"; "profile-cpu"; "profile-delay"; "trace";
   "signal"; "strace"; "log-level"; "log-packets"].

(** The receiver of a command line that gives no flag. *)
Definition defaults : Debug :=
  {| pid := 0; stacks := false; signal := -1;
     profileHeap := ""; profileCPU := ""; profileDelay := 5; trace := "";
     strace := ""; logLevel := ""; logPackets := "" |}.

(** The flags ask for no action. *)
Definition idle (d : Debug) : Prop :=
  signal d <= 0 /\ stacks d = false
  /\ profileHeap d = "" /\ profileCPU d = "" /\ trace d = ""
  /\ strace d = "" /\ logLevel d = "" /\ logPackets d = "".

Section MoreStages.

Variable w : World.
Variable d : Debug.
Variable conf : boot.Config.
Variable fargs : list string.

(** Lines 81-127: everything before the stack dump. *)
Definition beforeStacks : M sandbox.Sandbox :=
  sb <- target w d conf fargs ;;
  sendSignal w d sb ;;
  pure sb.

(** Lines 81-135: everything before the heap profile. *)
Definition beforeHeapProfile : M sandbox.Sandbox :=
  sb <- beforeStacks ;;
  dumpStacks w d sb ;;
  pure sb.

End MoreStages.

(** *** More readers of a list of events *)

Definition isErrorf (e : Event) : bool :=
  match e with EErrorf _ _ => true | _ => false end.

Definition isFatalf (e : Event) : bool :=
  match e with EFatalf _ _ => true | _ => false end.

Definition isStacks (e : Event) : bool :=
  match e with EStacks _ => true | _ => false end.

Definition isHeapProfile (e : Event) : bool :=
  match e with EHeapProfile _ _ => true | _ => false end.

(** The files closed, in the order they are closed. *)
Fixpoint closed (evs : list Event) : list File :=
  match evs with
  | [] => []
  | EClose f :: rest => f :: closed rest
  | _ :: rest => closed rest
  end.

(** The files that [os.Create] has given, in the order they are created. *)
Fixpoint created (w : World) (evs : list Event) : list File :=
  match evs with
  | [] => []
  | ECreate path :: rest =>
      match os_Create w path with
      | Ok f => f :: created w rest
      | Err _ => created w rest
      end
  | _ :: rest => created w rest
  end.

(** The file a deferred closure closes. *)
Definition closes (c : Deferred) : File :=
  match c with
  | DeferClose f => f
  | DeferStopCPUProfile _ f _ => f
  | DeferStopTrace _ f _ => f
  end.

(** The place of a call in the fixed order of the command; messages and
    [os.Create], which belongs to three steps, have none. *)
Definition phase (e : Event) : option nat :=
  match e with
  | EList _ | ELoad _ _ => Some 0%nat
  | EKill _ _ => Some 1%nat
  | EStacks _ => Some 2%nat
  | EHeapProfile _ _ => Some 3%nat
  | EStartCPUProfile _ _ => Some 4%nat
  | EStartTrace _ _ => Some 5%nat
  | EChangeLogging _ _ => Some 6%nat
  | ESleep _ => Some 7%nat
  | EClose _ | EStopCPUProfile _ | EStopTrace _ => Some 8%nat
  | EUsage | ECreate _ | EInfof _ _ | EErrorf _ _ | EFatalf _ _ => None
  end.

Fixpoint phases (evs : list Event) : list nat :=
  match evs with
  | [] => []
  | e :: rest =>
      match phase e with
      | Some n => n :: phases rest
      | None => phases rest
      end
  end.

(** A call comes before another: in an earlier phase, or both in the
    resolution (phase 0) or both in the cleanup (phase 8). *)
Definition inOrder (a b : nat) : Prop :=
  (a < b \/ (a = b /\ (a = 0 \/ a = 8)))%nat.

(** A piece of the body reports what it returns: nothing is reported with
    [Errorf] while it goes on or returns success, and a return with the
    failure status (the usage status) comes right after the one [Errorf]
    (the usage text). *)
Definition reported {A} (m : M A) : Prop :=
  match flow m with
  | Next _ | Return ExitSuccess => filter isErrorf (events m) = []
  | Return ExitFailure =>
      exists evs fmt args,
        events m = evs ++ [EErrorf fmt args] /\ filter isErrorf evs = []
  | Return ExitUsageError =>
      exists evs, events m = evs ++ [EUsage] /\ filter isErrorf evs = []
  end.

(** A piece of the body does not return the usage status. *)
Definition noUsage {A} (m : M A) : Prop :=
  flow m <> Return ExitUsageError.

(** A piece of the body keeps account of its files: it closes none, and
    the closures it has deferred close the files it has created, the last
    created first. *)
Definition accounted {A} (w : World) (m : M A) : Prop :=
  closed (events m) = []
  /\ map closes (deferred m) = rev (created w (events m)).

(** A piece of the body has deferred the stop of every session it has asked
    the sandbox to start. *)
Definition stopsDeferred {A} (m : M A) : Prop :=
  forall sb f,
    (In (EStartCPUProfile sb f) (events m) ->
     exists p, In (DeferStopCPUProfile sb f p) (deferred m))
    /\ (In (EStartTrace sb f) (events m) ->
        exists p, In (DeferStopTrace sb f p) (deferred m)).

(** The calls of a piece of the body are in order, in phases from [lo] to
    [hi]. *)
Definition ordered {A} (lo hi : nat) (m : M A) : Prop :=
  StronglySorted inOrder (phases (events m))
  /\ Forall (fun n => (lo <= n <= hi)%nat) (phases (events m)).

(** * Properties *)

(** ** The control-flow monad *)

Lemma bind_pure_l {A B} (a : A) (k : A -> M B) : bind (pure a) k = k a.
Proof.
  unfold bind, pure; simpl.
  destruct (k a) as [evs dfs fl]; simpl.
  now rewrite app_nil_r.
Qed.

Lemma bind_assoc {A B C} (m : M A) (k : A -> M B) (h : B -> M C) :
  bind (bind m k) h = bind m (fun a => bind (k a) h).
Proof.
  unfold bind.
  destruct m as [evs dfs [a | s]]; simpl; [ | reflexivity ].
  destruct (k a) as [evs' dfs' [b | s]]; simpl; [ | reflexivity ].
  now rewrite !app_assoc.
Qed.

Lemma bind_ext {A B} (m : M A) (k k' : A -> M B) :
  (forall a, k a = k' a) -> bind m k = bind m k'.
Proof.
  intros E. unfold bind. destruct (flow m); [ now rewrite E | reflexivity ].
Qed.

(** A stage that got through, followed by the rest. *)
Lemma bind_Next {A B} (m : M A) (k : A -> M B) evs dfs a :
  m = mkRun evs dfs (Next a) ->
  bind m k = mkRun (evs ++ events (k a)) (deferred (k a) ++ dfs) (flow (k a)).
Proof. intros ->. reflexivity. Qed.

(** A stage that returned: the rest does not run. *)
Lemma bind_Return {A B} (m : M A) (k : A -> M B) evs dfs s :
  m = mkRun evs dfs (Return s) ->
  bind m k = mkRun evs dfs (Return s).
Proof. intros ->. reflexivity. Qed.

Lemma events_bind {A B} (m : M A) (k : A -> M B) :
  events (bind m k) =
  events m ++ match flow m with Next a => events (k a) | Return _ => [] end.
Proof.
  unfold bind. destruct (flow m); simpl; [ reflexivity | now rewrite app_nil_r ].
Qed.

Lemma deferred_bind {A B} (m : M A) (k : A -> M B) :
  deferred (bind m k) =
  match flow m with Next a => deferred (k a) | Return _ => [] end ++ deferred m.
Proof. unfold bind. destruct (flow m); reflexivity. Qed.

Lemma runDeferred_app w l1 l2 :
  runDeferred w (l1 ++ l2) =
  let (e1, x1) := runDeferred w l1 in
  if x1 then (e1, true)
  else let (e2, x2) := runDeferred w l2 in (e1 ++ e2, x2).
Proof.
  induction l1 as [ | c l1 IH ]; simpl.
  - now destruct (runDeferred w l2).
  - destruct (runClosure w c) as [e [ | ]]; [ reflexivity | ].
    rewrite IH. destruct (runDeferred w l1) as [e1 [ | ]]; [ reflexivity | ].
    destruct (runDeferred w l2) as [e2 x2]. now rewrite app_assoc.
Qed.

(** ** The body, stage by stage *)

Section StageLemmas.

Variable w : World.
Variable d : Debug.
Variable conf : boot.Config.
Variable fargs : list string.

Lemma body_after_resolve :
  body w d conf fargs =
  (c <- resolve w d conf fargs ;;
   sb <- running c ;;
   actions w d sb).
Proof. reflexivity. Qed.

Lemma body_after_target :
  body w d conf fargs = (sb <- target w d conf fargs ;; actions w d sb).
Proof. unfold body, target, actions. now rewrite bind_assoc. Qed.

Lemma body_after_heapProfile :
  body w d conf fargs =
  (sb <- beforeCPUProfile w d conf fargs ;;
   delay <- cpuProfile w d sb false ;;
   delay <- traceSession w d sb delay ;;
   changeLogging w d sb ;;
   sleep d delay ;;
   return_ ExitSuccess).
Proof.
  rewrite body_after_target. unfold beforeCPUProfile, actions.
  rewrite bind_assoc. apply bind_ext; intros sb.
  rewrite bind_assoc. apply bind_ext; intros _.
  rewrite bind_assoc. apply bind_ext; intros _.
  rewrite bind_assoc. apply bind_ext; intros _.
  now rewrite bind_pure_l.
Qed.

Lemma body_after_cpuProfile :
  body w d conf fargs =
  (x <- beforeTrace w d conf fargs ;;
   delay <- traceSession w d (fst x) (snd x) ;;
   changeLogging w d (fst x) ;;
   sleep d delay ;;
   return_ ExitSuccess).
Proof.
  rewrite body_after_heapProfile. unfold beforeTrace.
  rewrite bind_assoc. apply bind_ext; intros sb.
  rewrite bind_assoc. apply bind_ext; intros delay.
  now rewrite bind_pure_l.
Qed.

Lemma body_after_traceSession :
  body w d conf fargs =
  (x <- beforeLogging w d conf fargs ;;
   changeLogging w d (fst x) ;;
   sleep d (snd x) ;;
   return_ ExitSuccess).
Proof.
  rewrite body_after_cpuProfile. unfold beforeLogging.
  rewrite bind_assoc. apply bind_ext; intros x.
  rewrite bind_assoc. apply bind_ext; intros delay.
  now rewrite bind_pure_l.
Qed.

Lemma body_after_changeLogging :
  body w d conf fargs =
  (x <- beforeSleep w d conf fargs ;;
   sleep d (snd x) ;;
   return_ ExitSuccess).
Proof.
  rewrite body_after_traceSession. unfold beforeSleep.
  rewrite bind_assoc. apply bind_ext; intros x.
  rewrite bind_assoc. apply bind_ext; intros _.
  now rewrite bind_pure_l.
Qed.

End StageLemmas.

(** ** Argument count *)

(** C5: with no PID given, a number of positional arguments other than one
    ends the command with the usage status after printing the usage text and
    nothing else; with a PID given, so does a number other than zero. *)
Theorem wrong_argument_count_is_usage_error w d conf fargs :
  (pid d = 0 /\ List.length fargs <> 1%nat) \/
  (pid d <> 0 /\ List.length fargs <> 0%nat) ->
  Execute w d conf fargs = ([EUsage], Exited ExitUsageError).
Proof.
  intros H. unfold Execute. rewrite body_after_resolve.
  assert (R : resolve w d conf fargs = mkRun [EUsage] [] (Return ExitUsageError)).
  { unfold resolve, NArg.
    destruct H as [[Hp Hn] | [Hp Hn]].
    - rewrite Hp; simpl.
      apply Nat.eqb_neq in Hn. now rewrite Hn.
    - apply Z.eqb_neq in Hp. rewrite Hp.
      apply Nat.eqb_neq in Hn. now rewrite Hn. }
  now rewrite (bind_Return _ _ _ _ _ R).
Qed.

Lemma wrong_argument_count_is_usage_error_witness :
  Execute Sample.calm Sample.flags Sample.conf ["abc"; "x"]
    = ([EUsage], Exited ExitUsageError)
  /\ Execute Sample.calm (Sample.with_pid Sample.flags 42) Sample.conf ["abc"]
    = ([EUsage], Exited ExitUsageError).
Proof.
  split.
  - apply wrong_argument_count_is_usage_error.
    left. split; [ reflexivity | simpl; lia ].
  - apply wrong_argument_count_is_usage_error.
    right. split; [ simpl; lia | simpl; lia ].
Defined.

(** ** Which block produces which events *)

Lemma within_app steps l1 l2 :
  within steps l1 -> within steps l2 -> within steps (l1 ++ l2).
Proof. unfold within. intros H1 H2. apply Forall_app. now split. Qed.

Lemma within_bind {A B} steps (m : M A) (k : A -> M B) :
  within steps (events m) ->
  (forall a, within steps (events (k a))) ->
  within steps (events (bind m k)).
Proof.
  intros Hm Hk. rewrite events_bind. apply within_app; [ exact Hm | ].
  destruct (flow m); [ apply Hk | constructor ].
Qed.

(** Events within steps that a reader [p] does not look at are not seen. *)
Lemma within_filter steps p evs :
  within steps evs ->
  (forall e, p e = true -> ~ In (step e) steps) ->
  filter p evs = [].
Proof.
  intros H Hp. induction H as [ | e evs He _ IH ]; [ reflexivity | ].
  simpl. destruct (p e) eqn:E; [ | exact IH ].
  exfalso. exact (Hp e E He).
Qed.

Ltac break_match :=
  match goal with
  | |- context [match ?x with _ => _ end] => destruct x eqn:?
  end.

(** For a block without a loop: follow every branch, then check the events
    one by one. *)
Ltac block_within :=
  intros; unfold within;
  repeat (cbn; try break_match);
  repeat (apply Forall_cons; [ simpl; tauto | ]);
  apply Forall_nil.

Section Within.

Variable w : World.
Variable d : Debug.
Variable conf : boot.Config.
Variable fargs : list string.
Variable steps : list Step.

Lemma scan_within ids :
  In Message steps -> In Resolving steps ->
  within steps (events (scan w d conf ids)).
Proof.
  intros HM HR. induction ids as [ | id rest IH ]; [ constructor | ].
  cbn [scan]. apply within_bind.
  - block_within.
  - intros [c | err].
    + destruct (container.SandboxPid c =? pid d); [ constructor | exact IH ].
    + block_within.
Qed.

Lemma resolve_within :
  In Message steps -> In Resolving steps ->
  within steps (events (resolve w d conf fargs)).
Proof.
  intros HM HR. unfold resolve.
  destruct (pid d =? 0).
  - block_within.
  - destruct (negb (Nat.eqb (NArg fargs) 0)); [ block_within | ].
    apply within_bind; [ block_within | ].
    intros [ids | err]; [ | block_within ].
    apply within_bind; [ now apply scan_within | ].
    intros [c | ]; block_within.
Qed.

Lemma running_within c :
  In Message steps -> within steps (events (running c)).
Proof. unfold running. block_within. Qed.

Lemma sendSignal_within sb :
  In Message steps -> In Signalling steps ->
  within steps (events (sendSignal w d sb)).
Proof. unfold sendSignal. block_within. Qed.

Lemma dumpStacks_within sb :
  In Message steps -> In DumpingStacks steps ->
  within steps (events (dumpStacks w d sb)).
Proof. unfold dumpStacks. block_within. Qed.

Lemma heapProfile_within sb :
  In Message steps -> In Opening steps -> In HeapProfiling steps ->
  within steps (events (heapProfile w d sb)).
Proof. unfold heapProfile. block_within. Qed.

Lemma cpuProfile_within sb delay :
  In Message steps -> In Opening steps -> In Starting steps ->
  within steps (events (cpuProfile w d sb delay)).
Proof. unfold cpuProfile. block_within. Qed.

Lemma traceSession_within sb delay :
  In Message steps -> In Opening steps -> In Starting steps ->
  within steps (events (traceSession w d sb delay)).
Proof. unfold traceSession. block_within. Qed.

Lemma straceArgs_within args :
  In Message steps -> within steps (events (straceArgs w d args)).
Proof. unfold straceArgs. block_within. Qed.

Lemma levelArgs_within args :
  In Message steps -> within steps (events (levelArgs w d args)).
Proof. unfold levelArgs. block_within. Qed.

Lemma logPacketsArgs_within args :
  In Message steps -> within steps (events (logPacketsArgs d args)).
Proof. unfold logPacketsArgs. block_within. Qed.

Lemma changeLogging_within sb :
  In Message steps -> In Logging steps ->
  within steps (events (changeLogging w d sb)).
Proof.
  intros HM HL. unfold changeLogging.
  destruct (_ || _); [ | constructor ].
  apply within_bind; [ now apply straceArgs_within | intros a1 ].
  apply within_bind; [ now apply levelArgs_within | intros a2 ].
  apply within_bind; [ now apply logPacketsArgs_within | intros a3 ].
  block_within.
Qed.

Lemma sleep_within delay :
  In Sleeping steps -> within steps (events (sleep d delay)).
Proof. unfold sleep. block_within. Qed.

Lemma runDeferred_within stack :
  In Message steps -> In Closing steps -> In Stopping steps ->
  within steps (fst (runDeferred w stack)).
Proof.
  intros HM HC HS. induction stack as [ | c rest IH ]; [ constructor | ].
  simpl. destruct (runClosure w c) as [evs exited] eqn:E.
  assert (H : within steps evs).
  { destruct c; simpl in E.
    - injection E as <- _. block_within.
    - destruct (StopCPUProfile w sb); injection E as <- _; block_within.
    - destruct (StopTrace w sb); injection E as <- _; block_within. }
  destruct exited; [ exact H | ].
  destruct (runDeferred w rest) as [evs' exited']. simpl in *.
  now apply within_app.
Qed.

End Within.

Create HintDb within.
#[local] Hint Resolve scan_within resolve_within running_within sendSignal_within
  dumpStacks_within heapProfile_within cpuProfile_within traceSession_within
  straceArgs_within levelArgs_within logPacketsArgs_within changeLogging_within
  sleep_within runDeferred_within : within.
#[local] Hint Extern 1 (In _ _) => simpl; tauto : within.
#[local] Hint Extern 1 (within _ (events (return_ _))) => constructor : within.
#[local] Hint Extern 1 (within _ (events (pure _))) => constructor : within.

(** A sequence of blocks, block by block. *)
Ltac sequence_within :=
  repeat (apply within_bind; [ | intros ? ]); auto with within.

Lemma fst_finish {A} w (m : M A) :
  fst (finish w m) = events m ++ fst (runDeferred w (deferred m)).
Proof. unfold finish. now destruct (runDeferred w (deferred m)). Qed.

(** ** Resolution by PID *)

Section Scan.

Variable w : World.
Variable d : Debug.
Variable conf : boot.Config.

Let root := boot.RootDir conf.

(** Identifiers that load with another PID are loaded and passed over. *)
Lemma scan_passedOver pre rest :
  Forall (passedOver w d conf) pre ->
  scan w d conf (pre ++ rest) =
  mkRun (map (ELoad root) pre ++ events (scan w d conf rest))
        (deferred (scan w d conf rest)) (flow (scan w d conf rest)).
Proof.
  induction 1 as [ | x pre (c & Hload & Hpid) _ IH ].
  - simpl. now destruct (scan w d conf rest).
  - cbn [scan app map]. unfold bind at 1, call. cbn.
    rewrite Hload. apply Z.eqb_neq in Hpid. rewrite Hpid, IH. cbn.
    now rewrite app_nil_r.
Qed.

Lemma scan_match pre id post c :
  Forall (passedOver w d conf) pre ->
  container_Load w root id = Ok c ->
  container.SandboxPid c = pid d ->
  scan w d conf (pre ++ id :: post) =
  mkRun (map (ELoad root) (pre ++ [id])) [] (Next (Some c)).
Proof.
  intros Hpre Hload Hpid. rewrite (scan_passedOver _ _ Hpre).
  cbn [scan]. unfold bind, call. cbn. fold root. rewrite Hload.
  apply Z.eqb_eq in Hpid. rewrite Hpid. cbn.
  now rewrite map_app.
Qed.

Lemma scan_load_failure pre id post err :
  Forall (passedOver w d conf) pre ->
  container_Load w root id = Err err ->
  scan w d conf (pre ++ id :: post) =
  mkRun (map (ELoad root) (pre ++ [id])
           ++ [EErrorf "loading container %q: %v" [AStr id; AErr err]])
        [] (Return ExitFailure).
Proof.
  intros Hpre Hload. rewrite (scan_passedOver _ _ Hpre).
  cbn [scan]. unfold bind, call. cbn. fold root. rewrite Hload. cbn.
  now rewrite map_app, <- app_assoc.
Qed.

Lemma scan_no_match ids :
  Forall (passedOver w d conf) ids ->
  scan w d conf ids = mkRun (map (ELoad root) ids) [] (Next None).
Proof.
  intros H. rewrite <- (app_nil_r ids) at 1.
  rewrite (scan_passedOver _ _ H). cbn. now rewrite app_nil_r.
Qed.

(** With a PID and no positional argument, resolution is the listing
    followed by the scan. *)
Lemma resolve_by_pid ids :
  pid d <> 0 ->
  container_List w root = Ok ids ->
  resolve w d conf [] =
  (call (EList root) tt ;;
   c <- scan w d conf ids ;;
   match c with
   | None => return! Errorf "container with PID %d not found" [AInt (pid d)]
   | Some c => pure c
   end).
Proof.
  intros Hpid Hlist. unfold resolve. apply Z.eqb_neq in Hpid. rewrite Hpid.
  cbn [NArg List.length Nat.eqb negb]. unfold bind at 1, call at 1.
  cbn [flow events deferred]. fold root. rewrite Hlist.
  reflexivity.
Qed.

End Scan.

Lemma filter_isLoad_loads root ids :
  filter isLoad (map (ELoad root) ids) = map (ELoad root) ids.
Proof. induction ids as [ | id ids IH ]; simpl; [ | rewrite IH ]; reflexivity. Qed.

(** Once the container is resolved, nothing is loaded any more. *)
Lemma no_load_after_resolve w d c :
  filter isLoad (events (sb <- running c ;; actions w d sb)) = [].
Proof.
  apply within_filter with
    (steps := [Message; Signalling; DumpingStacks; Opening; HeapProfiling;
               Starting; Logging; Sleeping]).
  - unfold actions. sequence_within.
  - intros [] E; try discriminate E; simpl; intuition discriminate.
Qed.

Lemma no_load_in_deferred w stack :
  filter isLoad (fst (runDeferred w stack)) = [].
Proof.
  apply within_filter with (steps := [Message; Closing; Stopping]).
  - auto with within.
  - intros [] E; try discriminate E; simpl; intuition discriminate.
Qed.

(** C4: with a PID and no positional argument, the identifiers listed under
    the root directory are loaded in turn.  The first one whose sandbox PID
    is the PID asked for is selected, and nothing is loaded after it; an
    identifier that fails to load before a match fails the command; when
    every identifier loads and none has the PID, the command fails with
    the not-found error. *)
Theorem pid_scan_selects_first_match w d conf ids :
  pid d <> 0 ->
  container_List w (boot.RootDir conf) = Ok ids ->
  (forall pre id post c,
      ids = pre ++ id :: post ->
      Forall (passedOver w d conf) pre ->
      container_Load w (boot.RootDir conf) id = Ok c ->
      container.SandboxPid c = pid d ->
      resolve w d conf [] =
        mkRun (EList (boot.RootDir conf)
                 :: map (ELoad (boot.RootDir conf)) (pre ++ [id]))
              [] (Next c)
      /\ filter isLoad (fst (Execute w d conf [])) =
           map (ELoad (boot.RootDir conf)) (pre ++ [id]))
  /\ (forall pre id post err,
      ids = pre ++ id :: post ->
      Forall (passedOver w d conf) pre ->
      container_Load w (boot.RootDir conf) id = Err err ->
      Execute w d conf [] =
        (EList (boot.RootDir conf)
           :: map (ELoad (boot.RootDir conf)) (pre ++ [id])
           ++ [EErrorf "loading container %q: %v" [AStr id; AErr err]],
         Exited ExitFailure))
  /\ (Forall (passedOver w d conf) ids ->
      Execute w d conf [] =
        (EList (boot.RootDir conf)
           :: map (ELoad (boot.RootDir conf)) ids
           ++ [EErrorf "container with PID %d not found" [AInt (pid d)]],
         Exited ExitFailure)).
Proof.
  intros Hpid Hlist. split; [ | split ].
  - intros pre id post c -> Hpre Hload Hmatch.
    assert (R : resolve w d conf [] =
                mkRun (EList (boot.RootDir conf)
                         :: map (ELoad (boot.RootDir conf)) (pre ++ [id]))
                      [] (Next c)).
    { rewrite (resolve_by_pid _ _ _ _ Hpid Hlist).
      rewrite (scan_match _ _ _ _ _ _ _ Hpre Hload Hmatch).
      cbn. now rewrite app_nil_r. }
    split; [ exact R | ].
    unfold Execute. rewrite fst_finish, body_after_resolve.
    rewrite (bind_Next _ _ _ _ _ R). cbn [events deferred].
    rewrite !filter_app, no_load_after_resolve, no_load_in_deferred.
    cbn. rewrite filter_isLoad_loads. now rewrite !app_nil_r.
  - intros pre id post err -> Hpre Hload.
    unfold Execute. rewrite body_after_resolve.
    rewrite (resolve_by_pid _ _ _ _ Hpid Hlist).
    rewrite (scan_load_failure _ _ _ _ _ _ _ Hpre Hload).
    unfold finish. cbn. now rewrite app_nil_r.
  - intros Hall.
    unfold Execute. rewrite body_after_resolve.
    rewrite (resolve_by_pid _ _ _ _ Hpid Hlist).
    rewrite (scan_no_match _ _ _ _ Hall).
    unfold finish. cbn. now rewrite app_nil_r.
Qed.

Lemma pid_scan_selects_first_match_witness :
  (filter isLoad
     (fst (Execute Sample.calm (Sample.with_pid Sample.flags 42) Sample.conf []))
   = [ELoad "/var/run/runsc" "x"; ELoad "/var/run/runsc" "abc"])
  /\ (Execute Sample.calm (Sample.with_pid Sample.flags 7) Sample.conf []
      = ([EList "/var/run/runsc"; ELoad "/var/run/runsc" "x";
          ELoad "/var/run/runsc" "abc"; ELoad "/var/run/runsc" "z";
          EErrorf "loading container %q: %v" [AStr "z"; AErr "no such file"]],
         Exited ExitFailure))
  /\ (Execute Sample.unmatched (Sample.with_pid Sample.flags 7) Sample.conf []
      = ([EList "/var/run/runsc"; ELoad "/var/run/runsc" "x";
          ELoad "/var/run/runsc" "abc";
          EErrorf "container with PID %d not found" [AInt 7]],
         Exited ExitFailure)).
Proof.
  split; [ | split ].
  - refine (proj2 (proj1 (pid_scan_selects_first_match
              Sample.calm (Sample.with_pid Sample.flags 42) Sample.conf
              ["x"; "abc"; "z"] _ eq_refl)
            ["x"] "abc" ["z"] Sample.abc eq_refl _ eq_refl eq_refl)).
    + simpl. lia.
    + constructor; [ | constructor ].
      exists Sample.stopped. split; [ reflexivity | simpl; lia ].
  - refine (proj1 (proj2 (pid_scan_selects_first_match
              Sample.calm (Sample.with_pid Sample.flags 7) Sample.conf
              ["x"; "abc"; "z"] _ eq_refl))
            ["x"; "abc"] "z" [] "no such file" eq_refl _ eq_refl).
    + simpl. lia.
    + constructor; [ | constructor; [ | constructor ] ].
      * exists Sample.stopped. split; [ reflexivity | simpl; lia ].
      * exists Sample.abc. split; [ reflexivity | simpl; lia ].
  - refine (proj2 (proj2 (pid_scan_selects_first_match
              Sample.unmatched (Sample.with_pid Sample.flags 7) Sample.conf
              ["x"; "abc"] _ eq_refl)) _).
    + simpl. lia.
    + constructor; [ | constructor; [ | constructor ] ].
      * exists Sample.stopped. split; [ reflexivity | simpl; lia ].
      * exists Sample.abc. split; [ reflexivity | simpl; lia ].
Defined.

(** ** Signal delivery *)

Lemma target_within w d conf fargs :
  within [Message; Resolving] (events (target w d conf fargs)).
Proof. unfold target. sequence_within. Qed.

Lemma target_deferred w d conf fargs : deferred (target w d conf fargs) = [].
Proof.
  unfold target. rewrite deferred_bind.
  assert (R : deferred (resolve w d conf fargs) = []).
  { unfold resolve.
    destruct (pid d =? 0).
    - repeat (cbn; try break_match); reflexivity.
    - destruct (negb _); [ reflexivity | ].
      cbn. destruct (container_List w (boot.RootDir conf)) as [ids | err];
        [ | reflexivity ].
      assert (S : deferred (scan w d conf ids) = []).
      { induction ids as [ | id rest IH ]; [ reflexivity | ].
        cbn. destruct (container_Load w (boot.RootDir conf) id) as [c | err];
          [ | reflexivity ].
        destruct (container.SandboxPid c =? pid d); cbn;
          [ reflexivity | now rewrite IH ]. }
      cbn. rewrite deferred_bind, S.
      destruct (flow (scan w d conf ids)) as [[c | ] | s]; reflexivity. }
  rewrite R, app_nil_r.
  destruct (flow (resolve w d conf fargs)) as [c | s]; [ | reflexivity ].
  unfold running. repeat (cbn; try break_match); reflexivity.
Qed.

Lemma sendSignal_skipped w d sb : signal d <= 0 -> sendSignal w d sb = pure tt.
Proof.
  intros H. unfold sendSignal.
  destruct (Z.gtb_spec (signal d) 0); [ lia | reflexivity ].
Qed.

Lemma sendSignal_attempted w d sb :
  signal d > 0 ->
  sendSignal w d sb =
  mkRun
    ([EInfof "Sending signal %d to process: %d"
        [AInt (signal d); AInt (sandbox.Pid sb)];
      EKill (sandbox.Pid sb) (signal d)]
     ++ match syscall_Kill w (sandbox.Pid sb) (signal d) with
        | Some _ =>
            [EErrorf "failed to send signal %d to processs %d"
               [AInt (signal d); AInt (sandbox.Pid sb)]]
        | None => []
        end)
    []
    (match syscall_Kill w (sandbox.Pid sb) (signal d) with
     | Some _ => Return ExitFailure
     | None => Next tt
     end).
Proof.
  intros H. unfold sendSignal.
  destruct (Z.gtb_spec (signal d) 0); [ | lia ].
  cbn. now destruct (syscall_Kill w (sandbox.Pid sb) (signal d)).
Qed.

(** The steps that come after the signal do not signal. *)
Lemma no_kill_after_signal w d sb :
  filter isKill
    (events (dumpStacks w d sb ;;
             heapProfile w d sb ;;
             delay <- cpuProfile w d sb false ;;
             delay <- traceSession w d sb delay ;;
             changeLogging w d sb ;;
             sleep d delay ;;
             @return_ unit ExitSuccess)) = [].
Proof.
  apply within_filter with
    (steps := [Message; DumpingStacks; Opening; HeapProfiling;
               Starting; Logging; Sleeping]).
  - sequence_within.
  - intros [] E; try discriminate E; simpl; intuition discriminate.
Qed.

Lemma no_kill_in_target w d conf fargs :
  filter isKill (events (target w d conf fargs)) = [].
Proof.
  apply within_filter with (steps := [Message; Resolving]).
  - apply target_within.
  - intros [] E; try discriminate E; simpl; intuition discriminate.
Qed.

Lemma no_kill_in_deferred w stack :
  filter isKill (fst (runDeferred w stack)) = [].
Proof.
  apply within_filter with (steps := [Message; Closing; Stopping]).
  - auto with within.
  - intros [] E; try discriminate E; simpl; intuition discriminate.
Qed.

(** C8: a signal that is not positive is never delivered, and the step is
    passed without an error.  With a positive signal and the running sandbox
    resolved, the signal is delivered exactly once, to the PID of that
    sandbox; when the delivery fails the command ends with the failure
    status, and the error reported carries the signal number and the PID. *)
Theorem signal_delivered_once_when_positive w d conf fargs :
  (signal d <= 0 ->
     filter isKill (fst (Execute w d conf fargs)) = []
     /\ forall sb, sendSignal w d sb = pure tt)
  /\ (signal d > 0 ->
      forall evs dfs sb,
        target w d conf fargs = mkRun evs dfs (Next sb) ->
        filter isKill (fst (Execute w d conf fargs)) =
          [EKill (sandbox.Pid sb) (signal d)]
        /\ (forall err,
              syscall_Kill w (sandbox.Pid sb) (signal d) = Some err ->
              Execute w d conf fargs =
                (evs ++
                 [EInfof "Sending signal %d to process: %d"
                    [AInt (signal d); AInt (sandbox.Pid sb)];
                  EKill (sandbox.Pid sb) (signal d);
                  EErrorf "failed to send signal %d to processs %d"
                    [AInt (signal d); AInt (sandbox.Pid sb)]],
                 Exited ExitFailure))).
Proof.
  split.
  - intros Hs. split; [ | intros sb; now apply sendSignal_skipped ].
    unfold Execute. rewrite fst_finish, body_after_target.
    rewrite filter_app, no_kill_in_deferred, app_nil_r.
    rewrite events_bind, filter_app, no_kill_in_target.
    destruct (flow (target w d conf fargs)) as [sb | s]; [ | reflexivity ].
    unfold actions. rewrite (sendSignal_skipped _ _ _ Hs), bind_pure_l.
    apply no_kill_after_signal.
  - intros Hs evs dfs sb Ht.
    assert (Hd : dfs = []).
    { pose proof (target_deferred w d conf fargs) as T. now rewrite Ht in T. }
    subst dfs.
    assert (He : filter isKill evs = []).
    { pose proof (no_kill_in_target w d conf fargs) as T. now rewrite Ht in T. }
    split.
    + unfold Execute. rewrite fst_finish, body_after_target.
      rewrite filter_app, no_kill_in_deferred, app_nil_r.
      rewrite (bind_Next _ _ _ _ _ Ht). cbn [events].
      rewrite filter_app, He. unfold actions.
      rewrite events_bind, filter_app, (sendSignal_attempted _ _ _ Hs).
      cbn [events flow].
      destruct (syscall_Kill w (sandbox.Pid sb) (signal d)) as [err | ].
      * reflexivity.
      * cbn. now rewrite no_kill_after_signal.
    + intros err Hk.
      unfold Execute. rewrite body_after_target.
      rewrite (bind_Next _ _ _ _ _ Ht). unfold actions.
      rewrite (sendSignal_attempted _ _ _ Hs), Hk.
      unfold finish. cbn. now rewrite app_nil_r.
Qed.

Lemma signal_delivered_once_when_positive_witness :
  (filter isKill (fst (Execute Sample.calm Sample.flags Sample.conf ["abc"])) = [])
  /\ (filter isKill
        (fst (Execute Sample.calm (Sample.with_signal Sample.flags 9)
                Sample.conf ["abc"]))
      = [EKill 42 9])
  /\ (Execute Sample.deaf (Sample.with_signal Sample.flags 9) Sample.conf ["abc"]
      = ([ELoad "/var/run/runsc" "abc";
          EInfof "Found sandbox %q, PID: %d" [AStr "abc"; AInt 42];
          EInfof "Sending signal %d to process: %d" [AInt 9; AInt 42];
          EKill 42 9;
          EErrorf "failed to send signal %d to processs %d" [AInt 9; AInt 42]],
         Exited ExitFailure)).
Proof.
  split; [ | split ].
  - apply (proj1 (signal_delivered_once_when_positive
                    Sample.calm Sample.flags Sample.conf ["abc"])).
    simpl. lia.
  - refine (proj1 (proj2 (signal_delivered_once_when_positive
                    Sample.calm (Sample.with_signal Sample.flags 9)
                    Sample.conf ["abc"]) _ _ _ Sample.sb eq_refl)).
    simpl. lia.
  - refine (proj2 (proj2 (signal_delivered_once_when_positive
                    Sample.deaf (Sample.with_signal Sample.flags 9)
                    Sample.conf ["abc"]) _ _ _ Sample.sb eq_refl)
              "no such process" eq_refl).
    simpl. lia.
Defined.

(** ** A start request that fails *)

Lemma finish_bind_Next {A B} w (m : M A) (k : A -> M B) evs dfs a :
  m = mkRun evs dfs (Next a) ->
  finish w (bind m k) =
  (let (e1, x1) := runDeferred w (deferred (k a)) in
   if x1 then (evs ++ events (k a) ++ e1, Terminated)
   else let (e2, x2) := runDeferred w dfs in
        (evs ++ events (k a) ++ e1 ++ e2,
         if x2 then Terminated else Exited (status (k a)))).
Proof.
  intros ->. unfold finish, bind, status. cbn. rewrite runDeferred_app.
  destruct (runDeferred w (deferred (k a))) as [e1 [ | ]].
  - now rewrite app_assoc.
  - destruct (runDeferred w dfs) as [e2 x2]. now rewrite !app_assoc.
Qed.

Lemma cpuProfile_start_failure w d sb delay f err :
  profileCPU d <> "" ->
  os_Create w (profileCPU d) = Ok f ->
  StartCPUProfile w sb f = Some err ->
  cpuProfile w d sb delay =
  mkRun [ECreate (profileCPU d); EStartCPUProfile sb f; EErrorf err []]
        [DeferStopCPUProfile sb f (profileCPU d)]
        (Return ExitFailure).
Proof.
  intros Hp Hc Hs. unfold cpuProfile.
  apply String.eqb_neq in Hp. rewrite Hp. cbn. rewrite Hc. cbn.
  now rewrite Hs.
Qed.

Lemma traceSession_start_failure w d sb delay f err :
  trace d <> "" ->
  os_Create w (trace d) = Ok f ->
  StartTrace w sb f = Some err ->
  traceSession w d sb delay =
  mkRun [ECreate (trace d); EStartTrace sb f; EErrorf err []]
        [DeferStopTrace sb f (trace d)]
        (Return ExitFailure).
Proof.
  intros Hp Hc Hs. unfold traceSession.
  apply String.eqb_neq in Hp. rewrite Hp. cbn. rewrite Hc. cbn.
  now rewrite Hs.
Qed.

(** C9: when the destination of the CPU profile (of the trace) is created
    and the start request fails, the closure that stops the session is
    already deferred; the command reports the start error and then, on its
    way out, closes the destination and sends the stop request.  If that
    stop fails the process is terminated; otherwise the closures deferred
    earlier run and the command ends with the failure status. *)
Theorem failed_start_is_still_stopped w d conf fargs :
  (forall evs dfs sb f err,
      beforeCPUProfile w d conf fargs = mkRun evs dfs (Next sb) ->
      profileCPU d <> "" ->
      os_Create w (profileCPU d) = Ok f ->
      StartCPUProfile w sb f = Some err ->
      cpuProfile w d sb false =
        mkRun [ECreate (profileCPU d); EStartCPUProfile sb f; EErrorf err []]
              [DeferStopCPUProfile sb f (profileCPU d)]
              (Return ExitFailure)
      /\ (forall err',
            StopCPUProfile w sb = Some err' ->
            Execute w d conf fargs =
              (evs ++ [ECreate (profileCPU d); EStartCPUProfile sb f;
                       EErrorf err [];
                       EClose f; EStopCPUProfile sb; EFatalf err' []],
               Terminated))
      /\ (StopCPUProfile w sb = None ->
            Execute w d conf fargs =
              (evs ++ [ECreate (profileCPU d); EStartCPUProfile sb f;
                       EErrorf err [];
                       EClose f; EStopCPUProfile sb;
                       EInfof "CPU profile written to %q" [AStr (profileCPU d)]]
                   ++ fst (runDeferred w dfs),
               if snd (runDeferred w dfs) then Terminated
               else Exited ExitFailure)))
  /\ (forall evs dfs sb delay f err,
      beforeTrace w d conf fargs = mkRun evs dfs (Next (sb, delay)) ->
      trace d <> "" ->
      os_Create w (trace d) = Ok f ->
      StartTrace w sb f = Some err ->
      traceSession w d sb delay =
        mkRun [ECreate (trace d); EStartTrace sb f; EErrorf err []]
              [DeferStopTrace sb f (trace d)]
              (Return ExitFailure)
      /\ (forall err',
            StopTrace w sb = Some err' ->
            Execute w d conf fargs =
              (evs ++ [ECreate (trace d); EStartTrace sb f; EErrorf err [];
                       EClose f; EStopTrace sb; EFatalf err' []],
               Terminated))
      /\ (StopTrace w sb = None ->
            Execute w d conf fargs =
              (evs ++ [ECreate (trace d); EStartTrace sb f; EErrorf err [];
                       EClose f; EStopTrace sb;
                       EInfof "Trace written to %q" [AStr (trace d)]]
                   ++ fst (runDeferred w dfs),
               if snd (runDeferred w dfs) then Terminated
               else Exited ExitFailure))).
Proof.
  split.
  - intros evs dfs sb f err Hb Hp Hc Hs.
    pose proof (cpuProfile_start_failure w d sb false f err Hp Hc Hs) as R.
    split; [ exact R | ].
    unfold Execute. rewrite body_after_heapProfile.
    rewrite (finish_bind_Next _ _ _ _ _ _ Hb).
    rewrite (bind_Return _ _ _ _ _ R). cbn.
    split.
    + intros err' Hstop. now rewrite Hstop.
    + intros Hstop. rewrite Hstop.
      now destruct (runDeferred w dfs) as [e2 [ | ]].
  - intros evs dfs sb delay f err Hb Hp Hc Hs.
    pose proof (traceSession_start_failure w d sb delay f err Hp Hc Hs) as R.
    split; [ exact R | ].
    unfold Execute. rewrite body_after_cpuProfile.
    rewrite (finish_bind_Next _ _ _ _ _ _ Hb). cbn [fst snd].
    rewrite (bind_Return _ _ _ _ _ R). cbn.
    split.
    + intros err' Hstop. now rewrite Hstop.
    + intros Hstop. rewrite Hstop.
      now destruct (runDeferred w dfs) as [e2 [ | ]].
Qed.

Lemma failed_start_is_still_stopped_witness :
  (Execute Sample.noCPUProfile
     (Sample.with_profileCPU Sample.flags "/tmp/cpu.out") Sample.conf ["abc"]
   = ([ELoad "/var/run/runsc" "abc";
       EInfof "Found sandbox %q, PID: %d" [AStr "abc"; AInt 42];
       ECreate "/tmp/cpu.out";
       EStartCPUProfile Sample.sb (Sample.file "/tmp/cpu.out");
       EErrorf "cpu profiling already enabled" [];
       EClose (Sample.file "/tmp/cpu.out");
       EStopCPUProfile Sample.sb;
       EFatalf "cpu profiling not enabled" []],
      Terminated))
  /\ (Execute Sample.noTrace
        (Sample.with_trace (Sample.with_profileCPU Sample.flags "/tmp/cpu.out")
           "/tmp/trace.out")
        Sample.conf ["abc"]
      = ([ELoad "/var/run/runsc" "abc";
          EInfof "Found sandbox %q, PID: %d" [AStr "abc"; AInt 42];
          ECreate "/tmp/cpu.out";
          EStartCPUProfile Sample.sb (Sample.file "/tmp/cpu.out");
          EInfof "CPU profile started for %d sec, writing to %q"
            [AInt 5; AStr "/tmp/cpu.out"];
          ECreate "/tmp/trace.out";
          EStartTrace Sample.sb (Sample.file "/tmp/trace.out");
          EErrorf "trace already started" [];
          EClose (Sample.file "/tmp/trace.out");
          EStopTrace Sample.sb;
          EInfof "Trace written to %q" [AStr "/tmp/trace.out"];
          EClose (Sample.file "/tmp/cpu.out");
          EStopCPUProfile Sample.sb;
          EInfof "CPU profile written to %q" [AStr "/tmp/cpu.out"]],
         Exited ExitFailure)).
Proof.
  split.
  - refine (proj1 (proj2 (proj1 (failed_start_is_still_stopped
              Sample.noCPUProfile
              (Sample.with_profileCPU Sample.flags "/tmp/cpu.out")
              Sample.conf ["abc"])
            _ _ Sample.sb (Sample.file "/tmp/cpu.out")
            "cpu profiling already enabled" eq_refl _ eq_refl eq_refl))
            "cpu profiling not enabled" eq_refl).
    simpl. discriminate.
  - refine (proj2 (proj2 (proj2 (failed_start_is_still_stopped
              Sample.noTrace
              (Sample.with_trace
                 (Sample.with_profileCPU Sample.flags "/tmp/cpu.out")
                 "/tmp/trace.out")
              Sample.conf ["abc"])
            _ _ Sample.sb true (Sample.file "/tmp/trace.out")
            "trace already started" eq_refl _ eq_refl eq_refl))
            eq_refl).
    simpl. discriminate.
Defined.

(** ** Cleanup of a session: close, then stop *)

Lemma Forall_deferred_bind {A B} (Q : Deferred -> Prop) (m : M A) (k : A -> M B) :
  Forall Q (deferred m) ->
  (forall a, Forall Q (deferred (k a))) ->
  Forall Q (deferred (bind m k)).
Proof.
  intros Hm Hk. rewrite deferred_bind. apply Forall_app. split; [ | exact Hm ].
  destruct (flow m); [ apply Hk | constructor ].
Qed.

(** For a block without a loop: follow every branch; a closure deferred on
    the way holds the file the branch has just created. *)
Ltac block_deferred :=
  intros;
  repeat (cbn; try break_match);
  repeat (apply Forall_cons; [ simpl; solve [ trivial | assumption ] | ]);
  apply Forall_nil.

Lemma body_deferred_holdsDestination w d conf fargs :
  Forall (holdsDestination w d) (deferred (body w d conf fargs)).
Proof.
  rewrite body_after_target. apply Forall_deferred_bind.
  - rewrite target_deferred. constructor.
  - intros sb. unfold actions.
    apply Forall_deferred_bind; [ unfold sendSignal; block_deferred | intros _ ].
    apply Forall_deferred_bind; [ unfold dumpStacks; block_deferred | intros _ ].
    apply Forall_deferred_bind; [ unfold heapProfile; block_deferred | intros _ ].
    apply Forall_deferred_bind; [ unfold cpuProfile; block_deferred | intros delay ].
    apply Forall_deferred_bind; [ unfold traceSession; block_deferred | intros delay' ].
    apply Forall_deferred_bind; [ | intros _ ].
    + unfold changeLogging. destruct (_ || _); [ | constructor ].
      apply Forall_deferred_bind; [ unfold straceArgs; block_deferred | intros a1 ].
      apply Forall_deferred_bind; [ unfold levelArgs; block_deferred | intros a2 ].
      apply Forall_deferred_bind; [ unfold logPacketsArgs; block_deferred | intros a3 ].
      block_deferred.
    + apply Forall_deferred_bind; [ unfold sleep; block_deferred | intros _ ].
      constructor.
Qed.

Lemma body_within w d conf fargs :
  within [Message; Resolving; Signalling; DumpingStacks; Opening;
          HeapProfiling; Starting; Logging; Sleeping]
         (events (body w d conf fargs)).
Proof. unfold body. sequence_within. Qed.

(** The body itself sends no stop request. *)
Lemma no_stop_in_body w d conf fargs e :
  In e (events (body w d conf fargs)) -> isStop e = false.
Proof.
  intros H. pose proof (body_within w d conf fargs) as W.
  unfold within in W. rewrite Forall_forall in W. specialize (W e H).
  destruct e; try reflexivity; simpl in W; intuition discriminate.
Qed.

(** In the run of the deferred closures, a stop request comes right after
    the close of the destination its closure holds. *)
Lemma runDeferred_close_then_stop w d stack :
  Forall (holdsDestination w d) stack ->
  forall sb,
    (In (EStopCPUProfile sb) (fst (runDeferred w stack)) ->
     exists f l1 l2,
       os_Create w (profileCPU d) = Ok f /\
       fst (runDeferred w stack) = l1 ++ EClose f :: EStopCPUProfile sb :: l2)
    /\ (In (EStopTrace sb) (fst (runDeferred w stack)) ->
        exists f l1 l2,
          os_Create w (trace d) = Ok f /\
          fst (runDeferred w stack) = l1 ++ EClose f :: EStopTrace sb :: l2).
Proof.
  induction 1 as [ | c rest Hc _ IH ]; intros sb'.
  - split; intros [].
  - destruct (IH sb') as [IHc IHt]. clear IH.
    destruct (runDeferred w rest) as [evs' exited'] eqn:R.
    destruct c as [ g | sb f p | sb f p ]; simpl in Hc; cbn [runDeferred runClosure].
    + rewrite R. cbn [fst] in *. split; intros [E | Hin]; try discriminate E.
      * destruct (IHc Hin) as (f & l1 & l2 & Hf & ->).
        exists f, (EClose g :: l1), l2. now split.
      * destruct (IHt Hin) as (f & l1 & l2 & Hf & ->).
        exists f, (EClose g :: l1), l2. now split.
    + destruct (StopCPUProfile w sb) as [err | ]; [ | rewrite R ]; cbn [fst] in *.
      * split; intros Hin; simpl in Hin; [ | intuition discriminate ].
        destruct Hin as [E | [E | [E | []]]]; try discriminate E.
        injection E as <-. exists f, [], [EFatalf err []]. now split.
      * split; intros Hin; simpl in Hin.
        -- destruct Hin as [E | [E | [E | Hin]]]; try discriminate E.
           ++ injection E as <-.
              exists f, [],
                (EInfof "CPU profile written to %q" [AStr p] :: evs').
              now split.
           ++ destruct (IHc Hin) as (f' & l1 & l2 & Hf & ->).
              exists f', (EClose f :: EStopCPUProfile sb
                            :: EInfof "CPU profile written to %q" [AStr p] :: l1), l2.
              now split.
        -- destruct Hin as [E | [E | [E | Hin]]]; try discriminate E.
           destruct (IHt Hin) as (f' & l1 & l2 & Hf & ->).
           exists f', (EClose f :: EStopCPUProfile sb
                         :: EInfof "CPU profile written to %q" [AStr p] :: l1), l2.
           now split.
    + destruct (StopTrace w sb) as [err | ]; [ | rewrite R ]; cbn [fst] in *.
      * split; intros Hin; simpl in Hin; [ intuition discriminate | ].
        destruct Hin as [E | [E | [E | []]]]; try discriminate E.
        injection E as <-. exists f, [], [EFatalf err []]. now split.
      * split; intros Hin; simpl in Hin.
        -- destruct Hin as [E | [E | [E | Hin]]]; try discriminate E.
           destruct (IHc Hin) as (f' & l1 & l2 & Hf & ->).
           exists f', (EClose f :: EStopTrace sb
                         :: EInfof "Trace written to %q" [AStr p] :: l1), l2.
           now split.
        -- destruct Hin as [E | [E | [E | Hin]]]; try discriminate E.
           ++ injection E as <-.
              exists f, [],
                (EInfof "Trace written to %q" [AStr p] :: evs').
              now split.
           ++ destruct (IHt Hin) as (f' & l1 & l2 & Hf & ->).
              exists f', (EClose f :: EStopTrace sb
                            :: EInfof "Trace written to %q" [AStr p] :: l1), l2.
              now split.
Qed.

(** C2, as the code has it: the cleanup of a CPU-profile or trace session
    first closes the destination of the session and then sends the stop
    request to the sandbox.  This is what the deferred closure does whenever
    it runs, and in every invocation each stop request comes right after the
    close of the destination that was created for its session. *)
Theorem cleanup_closes_then_stops w d conf fargs :
  (forall sb f p,
      exists rest exited,
        runClosure w (DeferStopCPUProfile sb f p) =
          (EClose f :: EStopCPUProfile sb :: rest, exited))
  /\ (forall sb f p,
      exists rest exited,
        runClosure w (DeferStopTrace sb f p) =
          (EClose f :: EStopTrace sb :: rest, exited))
  /\ (forall sb,
      In (EStopCPUProfile sb) (fst (Execute w d conf fargs)) ->
      exists f l1 l2,
        os_Create w (profileCPU d) = Ok f /\
        fst (Execute w d conf fargs) =
          l1 ++ EClose f :: EStopCPUProfile sb :: l2)
  /\ (forall sb,
      In (EStopTrace sb) (fst (Execute w d conf fargs)) ->
      exists f l1 l2,
        os_Create w (trace d) = Ok f /\
        fst (Execute w d conf fargs) =
          l1 ++ EClose f :: EStopTrace sb :: l2).
Proof.
  split; [ | split; [ | split ] ].
  - intros sb f p. cbn. destruct (StopCPUProfile w sb); eauto.
  - intros sb f p. cbn. destruct (StopTrace w sb); eauto.
  - intros sb Hin. unfold Execute in *. rewrite fst_finish in *.
    apply in_app_or in Hin. destruct Hin as [Hin | Hin].
    + apply no_stop_in_body in Hin. discriminate Hin.
    + destruct (runDeferred_close_then_stop w d _
                  (body_deferred_holdsDestination w d conf fargs) sb)
        as [Hc _].
      destruct (Hc Hin) as (f & l1 & l2 & Hf & ->).
      exists f, (events (body w d conf fargs) ++ l1), l2.
      split; [ exact Hf | now rewrite app_assoc ].
  - intros sb Hin. unfold Execute in *. rewrite fst_finish in *.
    apply in_app_or in Hin. destruct Hin as [Hin | Hin].
    + apply no_stop_in_body in Hin. discriminate Hin.
    + destruct (runDeferred_close_then_stop w d _
                  (body_deferred_holdsDestination w d conf fargs) sb)
        as [_ Ht].
      destruct (Ht Hin) as (f & l1 & l2 & Hf & ->).
      exists f, (events (body w d conf fargs) ++ l1), l2.
      split; [ exact Hf | now rewrite app_assoc ].
Qed.

Lemma cleanup_closes_then_stops_witness :
  exists f l1 l2,
    os_Create Sample.calm "/tmp/cpu.out" = Ok f /\
    fst (Execute Sample.calm (Sample.with_profileCPU Sample.flags "/tmp/cpu.out")
           Sample.conf ["abc"])
    = l1 ++ EClose f :: EStopCPUProfile Sample.sb :: l2.
Proof.
  apply (proj1 (proj2 (proj2 (cleanup_closes_then_stops
           Sample.calm (Sample.with_profileCPU Sample.flags "/tmp/cpu.out")
           Sample.conf ["abc"]))) Sample.sb).
  vm_compute. do 7 right. left. reflexivity.
Defined.

(** C2, as stated (stop, then close), fails: in a plain CPU-profile run the
    destination is closed at position 6 and the stop request is sent at
    position 7. *)
Lemma stop_before_close_counterexample :
  position (isCloseOf (Sample.file "/tmp/cpu.out"))
    (fst (Execute Sample.calm (Sample.with_profileCPU Sample.flags "/tmp/cpu.out")
            Sample.conf ["abc"])) = Some 6%nat
  /\ position isStopCPUProfile
       (fst (Execute Sample.calm (Sample.with_profileCPU Sample.flags "/tmp/cpu.out")
               Sample.conf ["abc"])) = Some 7%nat
  /\ ~ stopBeforeClose isStopCPUProfile (Sample.file "/tmp/cpu.out")
         (fst (Execute Sample.calm
                 (Sample.with_profileCPU Sample.flags "/tmp/cpu.out")
                 Sample.conf ["abc"])).
Proof.
  split; [ reflexivity | split; [ reflexivity | ] ].
  intros (i & j & Hi & Hj & Hlt).
  vm_compute in Hi, Hj.
  injection Hi as <-. injection Hj as <-. lia.
Qed.

(** ** The delay *)

Lemma flow_bind_Next {A B} (m : M A) (k : A -> M B) b :
  flow (bind m k) = Next b ->
  exists a, flow m = Next a /\ flow (k a) = Next b.
Proof.
  unfold bind. destruct (flow m) as [a | s]; cbn; [ | discriminate ].
  intros H. now exists a.
Qed.

Lemma cpuProfile_delay w d sb delay x :
  flow (cpuProfile w d sb delay) = Next x ->
  x = present (profileCPU d) || delay.
Proof.
  unfold cpuProfile, present.
  destruct (profileCPU d == ""); cbn; [ now intros [= <-] | ].
  repeat (cbn; try break_match); intros [=]. now subst.
Qed.

Lemma traceSession_delay w d sb delay x :
  flow (traceSession w d sb delay) = Next x ->
  x = present (trace d) || delay.
Proof.
  unfold traceSession, present.
  destruct (trace d == ""); cbn; [ now intros [= <-] | ].
  repeat (cbn; try break_match); intros [=]. now subst.
Qed.

(** After the main sequence, [delay] says whether a CPU profile or a trace
    was asked for. *)
Lemma beforeSleep_delay w d conf fargs sb delay :
  flow (beforeSleep w d conf fargs) = Next (sb, delay) ->
  delay = present (profileCPU d) || present (trace d).
Proof.
  unfold beforeSleep. intros H.
  apply flow_bind_Next in H. destruct H as (x & Hlog & H).
  apply flow_bind_Next in H. destruct H as (_ & _ & H).
  cbn in H. injection H as ->.
  unfold beforeLogging in Hlog.
  apply flow_bind_Next in Hlog. destruct Hlog as (y & Htrace & H).
  apply flow_bind_Next in H. destruct H as (delay2 & H2 & H).
  cbn in H. injection H as _ <-.
  unfold beforeTrace in Htrace.
  apply flow_bind_Next in Htrace. destruct Htrace as (sb0 & _ & H).
  apply flow_bind_Next in H. destruct H as (delay1 & H1 & H).
  cbn in H. injection H as <-.
  apply cpuProfile_delay in H1. apply traceSession_delay in H2.
  cbn in H2. subst. rewrite orb_false_r. apply orb_comm.
Qed.

Lemma beforeSleep_within w d conf fargs :
  within [Message; Resolving; Signalling; DumpingStacks; Opening;
          HeapProfiling; Starting; Logging]
         (events (beforeSleep w d conf fargs)).
Proof.
  unfold beforeSleep, beforeLogging, beforeTrace, beforeCPUProfile, target.
  sequence_within.
Qed.

Lemma no_sleep_before_sleep w d conf fargs :
  filter isSleep (events (beforeSleep w d conf fargs)) = [].
Proof.
  apply within_filter with (1 := beforeSleep_within w d conf fargs).
  intros [] E; try discriminate E; simpl; intuition discriminate.
Qed.

Lemma no_sleep_in_deferred w stack :
  filter isSleep (fst (runDeferred w stack)) = [].
Proof.
  apply within_filter with (steps := [Message; Closing; Stopping]).
  - auto with within.
  - intros [] E; try discriminate E; simpl; intuition discriminate.
Qed.

Lemma seconds_in_range n :
  0 <= n <= 9223372036 -> time.seconds n = n * 1000000000.
Proof.
  intros H. unfold time.seconds, time.wrap64, time.Second.
  rewrite (Z.mod_small (n + 2 ^ 63)) by lia.
  replace (n + 2 ^ 63 - 2 ^ 63) with n by lia.
  rewrite Z.mod_small by lia. lia.
Qed.

(** C3, as the code has it: when the whole main sequence got through, the
    command sleeps if and only if a CPU profile or a trace was asked for (and
    so started), for [profileDelay] seconds, after the main sequence and
    before any destination is closed or any session stopped.  When a step of
    the main sequence fails, also after a session was started, the command
    does not sleep and the deferred closures run at once.  With neither a
    CPU profile nor a trace asked for, no invocation sleeps. *)
Theorem delay_only_after_completed_main_sequence w d conf fargs :
  (forall evs dfs sb delay,
      beforeSleep w d conf fargs = mkRun evs dfs (Next (sb, delay)) ->
      delay = present (profileCPU d) || present (trace d)
      /\ Execute w d conf fargs =
           (evs ++ (if delay then [ESleep (time.seconds (profileDelay d))] else [])
                ++ fst (runDeferred w dfs),
            if snd (runDeferred w dfs) then Terminated else Exited ExitSuccess)
      /\ (forall e, In e evs -> step e <> Stopping /\ step e <> Closing))
  /\ (forall evs dfs s,
      beforeSleep w d conf fargs = mkRun evs dfs (Return s) ->
      Execute w d conf fargs =
        (evs ++ fst (runDeferred w dfs),
         if snd (runDeferred w dfs) then Terminated else Exited s)
      /\ filter isSleep (fst (Execute w d conf fargs)) = [])
  /\ (profileCPU d = "" -> trace d = "" ->
      filter isSleep (fst (Execute w d conf fargs)) = [])
  /\ (0 <= profileDelay d <= 9223372036 ->
      time.seconds (profileDelay d) = profileDelay d * 1000000000).
Proof.
  split; [ | split; [ | split ] ].
  - intros evs dfs sb delay Hb.
    assert (Hd : delay = present (profileCPU d) || present (trace d)).
    { apply (beforeSleep_delay w d conf fargs sb). now rewrite Hb. }
    split; [ exact Hd | split ].
    + unfold Execute. rewrite body_after_changeLogging.
      rewrite (finish_bind_Next _ _ _ _ _ _ Hb). cbn [snd].
      unfold sleep. destruct delay; cbn;
        now destruct (runDeferred w dfs) as [e2 [ | ]].
    + intros e Hin. pose proof (beforeSleep_within w d conf fargs) as W.
      rewrite Hb in W. cbn in W. unfold within in W.
      rewrite Forall_forall in W. specialize (W e Hin).
      split; intros E; rewrite E in W; simpl in W; intuition discriminate.
  - intros evs dfs s Hb.
    assert (E : Execute w d conf fargs =
                (evs ++ fst (runDeferred w dfs),
                 if snd (runDeferred w dfs) then Terminated else Exited s)).
    { unfold Execute. rewrite body_after_changeLogging.
      rewrite (bind_Return _ _ _ _ _ Hb). unfold finish, status. cbn.
      now destruct (runDeferred w dfs) as [e2 [ | ]]. }
    split; [ exact E | ].
    rewrite E. cbn [fst]. rewrite filter_app, no_sleep_in_deferred, app_nil_r.
    pose proof (no_sleep_before_sleep w d conf fargs) as N.
    now rewrite Hb in N.
  - intros Hc Ht.
    unfold Execute. rewrite fst_finish, body_after_changeLogging.
    rewrite filter_app, no_sleep_in_deferred, app_nil_r.
    rewrite events_bind, filter_app, no_sleep_before_sleep.
    destruct (flow (beforeSleep w d conf fargs)) as [[sb delay] | s] eqn:F;
      [ | reflexivity ].
    apply beforeSleep_delay in F.
    unfold present in F. rewrite Hc, Ht in F. cbn in F. now subst delay.
  - apply seconds_in_range.
Qed.

Lemma delay_only_after_completed_main_sequence_witness :
  (Execute Sample.calm (Sample.with_profileCPU Sample.flags "/tmp/cpu.out")
     Sample.conf ["abc"]
   = ([ELoad "/var/run/runsc" "abc";
       EInfof "Found sandbox %q, PID: %d" [AStr "abc"; AInt 42];
       ECreate "/tmp/cpu.out";
       EStartCPUProfile Sample.sb (Sample.file "/tmp/cpu.out");
       EInfof "CPU profile started for %d sec, writing to %q"
         [AInt 5; AStr "/tmp/cpu.out"];
       ESleep 5000000000;
       EClose (Sample.file "/tmp/cpu.out");
       EStopCPUProfile Sample.sb;
       EInfof "CPU profile written to %q" [AStr "/tmp/cpu.out"]],
      Exited ExitSuccess))
  /\ (filter isSleep
        (fst (Execute Sample.noTraceFile
                (Sample.with_trace
                   (Sample.with_profileCPU Sample.flags "/tmp/cpu.out")
                   "/tmp/trace.out")
                Sample.conf ["abc"])) = [])
  /\ (filter isSleep (fst (Execute Sample.calm Sample.flags Sample.conf ["abc"])) = [])
  /\ (time.seconds 5 = 5 * 1000000000).
Proof.
  split; [ | split; [ | split ] ].
  - exact (proj1 (proj2 (proj1 (delay_only_after_completed_main_sequence
             Sample.calm (Sample.with_profileCPU Sample.flags "/tmp/cpu.out")
             Sample.conf ["abc"])
           _ _ Sample.sb true eq_refl))).
  - exact (proj2 (proj1 (proj2 (delay_only_after_completed_main_sequence
             Sample.noTraceFile
             (Sample.with_trace
                (Sample.with_profileCPU Sample.flags "/tmp/cpu.out")
                "/tmp/trace.out")
             Sample.conf ["abc"]))
           _ _ ExitFailure eq_refl)).
  - apply (proj1 (proj2 (proj2 (delay_only_after_completed_main_sequence
             Sample.calm Sample.flags Sample.conf ["abc"])))); reflexivity.
  - apply (proj2 (proj2 (proj2 (delay_only_after_completed_main_sequence
             Sample.calm Sample.flags Sample.conf ["abc"])))).
    simpl. lia.
Defined.

(** C3, as stated, fails: the CPU-profile session is started, then the
    destination of the trace cannot be created; the command returns without
    sleeping and the session is stopped at once. *)
Lemma delay_after_active_session_counterexample :
  StartCPUProfile Sample.noTraceFile Sample.sb (Sample.file "/tmp/cpu.out") = None
  /\ Execute Sample.noTraceFile
       (Sample.with_trace (Sample.with_profileCPU Sample.flags "/tmp/cpu.out")
          "/tmp/trace.out")
       Sample.conf ["abc"]
     = ([ELoad "/var/run/runsc" "abc";
         EInfof "Found sandbox %q, PID: %d" [AStr "abc"; AInt 42];
         ECreate "/tmp/cpu.out";
         EStartCPUProfile Sample.sb (Sample.file "/tmp/cpu.out");
         EInfof "CPU profile started for %d sec, writing to %q"
           [AInt 5; AStr "/tmp/cpu.out"];
         ECreate "/tmp/trace.out";
         EErrorf "permission denied" [];
         EClose (Sample.file "/tmp/cpu.out");
         EStopCPUProfile Sample.sb;
         EInfof "CPU profile written to %q" [AStr "/tmp/cpu.out"]],
        Exited ExitFailure)
  /\ filter isSleep
       (fst (Execute Sample.noTraceFile
               (Sample.with_trace
                  (Sample.with_profileCPU Sample.flags "/tmp/cpu.out")
                  "/tmp/trace.out")
               Sample.conf ["abc"])) = [].
Proof. repeat split. Qed.

(** ** The logging change *)

Lemma length_eqb_0 s : Nat.eqb (String.length s) 0 = (s == "").
Proof. now destruct s. Qed.

Lemma present_true s : present s = true <-> s <> "".
Proof.
  unfold present. rewrite negb_true_iff. apply String.eqb_neq.
Qed.

Lemma present_false s : present s = false <-> s = "".
Proof.
  unfold present. rewrite negb_false_iff. apply String.eqb_eq.
Qed.

Section LoggingArgs.

Variable w : World.
Variable d : Debug.

(** *** The strace input (lines 191-205) *)

Lemma straceArgs_absent a : strace d = "" -> straceArgs w d a = pure a.
Proof. intros E. unfold straceArgs. now rewrite E. Qed.

Lemma straceArgs_off a :
  strace d <> "" ->
  ToLower w (strace d) = "off" ->
  straceArgs w d a = mkRun [EInfof "Disabling strace" []] [] (Next a).
Proof.
  intros Hp Hl. unfold straceArgs.
  apply String.eqb_neq in Hp. rewrite Hp, Hl. reflexivity.
Qed.

Lemma straceArgs_all a :
  strace d <> "" ->
  ToLower w (strace d) = "all" ->
  straceArgs w d a =
  mkRun [EInfof "Enabling all straces" []] []
        (Next (control.with_EnableStrace a true)).
Proof.
  intros Hp Hl. unfold straceArgs.
  apply String.eqb_neq in Hp. rewrite Hp, Hl. reflexivity.
Qed.

Lemma straceArgs_list a :
  strace d <> "" ->
  ToLower w (strace d) <> "off" ->
  ToLower w (strace d) <> "all" ->
  straceArgs w d a =
  mkRun [EInfof "Enabling strace for syscalls: %s" [AStr (strace d)]] []
        (Next (control.with_StraceWhitelist
                 (control.with_EnableStrace a true)
                 (strings.Split (strace d) ","))).
Proof.
  intros Hp Hoff Hall. unfold straceArgs.
  apply String.eqb_neq in Hp, Hoff, Hall. rewrite Hp, Hoff, Hall.
  reflexivity.
Qed.

(** The strace input never makes the command return, and leaves the other
    fields alone. *)
Lemma straceArgs_keeps a :
  exists logs a',
    straceArgs w d a = mkRun logs [] (Next a')
    /\ control.SetStrace a' = control.SetStrace a
    /\ control.SetLevel a' = control.SetLevel a
    /\ control.Level a' = control.Level a
    /\ control.SetLogPackets a' = control.SetLogPackets a
    /\ control.LogPackets a' = control.LogPackets a.
Proof.
  unfold straceArgs.
  repeat (cbn; try break_match); do 2 eexists; repeat split.
Qed.

(** *** The log-level input (lines 207-220) *)

Lemma levelArgs_absent a : logLevel d = "" -> levelArgs w d a = pure a.
Proof. intros E. unfold levelArgs. now rewrite E. Qed.

Lemma levelArgs_warning a :
  logLevel d <> "" ->
  ToLower w (logLevel d) = "warning" \/ ToLower w (logLevel d) = "0" ->
  levelArgs w d a =
  mkRun [EInfof "Setting log level %v" [ALevel log.Warning]] []
        (Next (control.with_Level (control.with_SetLevel a true) log.Warning)).
Proof.
  intros Hp Hl. unfold levelArgs. rewrite length_eqb_0.
  apply String.eqb_neq in Hp. rewrite Hp.
  destruct Hl as [-> | ->]; reflexivity.
Qed.

Lemma levelArgs_info a :
  logLevel d <> "" ->
  ToLower w (logLevel d) = "info" \/ ToLower w (logLevel d) = "1" ->
  levelArgs w d a =
  mkRun [EInfof "Setting log level %v" [ALevel log.Info]] []
        (Next (control.with_Level (control.with_SetLevel a true) log.Info)).
Proof.
  intros Hp Hl. unfold levelArgs. rewrite length_eqb_0.
  apply String.eqb_neq in Hp. rewrite Hp.
  destruct Hl as [-> | ->]; reflexivity.
Qed.

Lemma levelArgs_debug a :
  logLevel d <> "" ->
  ToLower w (logLevel d) = "debug" \/ ToLower w (logLevel d) = "2" ->
  levelArgs w d a =
  mkRun [EInfof "Setting log level %v" [ALevel log.Debug]] []
        (Next (control.with_Level (control.with_SetLevel a true) log.Debug)).
Proof.
  intros Hp Hl. unfold levelArgs. rewrite length_eqb_0.
  apply String.eqb_neq in Hp. rewrite Hp.
  destruct Hl as [-> | ->]; reflexivity.
Qed.

Lemma levelArgs_invalid a :
  logLevel d <> "" ->
  ~ In (ToLower w (logLevel d)) levelNames ->
  levelArgs w d a =
  mkRun [EErrorf "invalid log level %d" [AStr (logLevel d)]] []
        (Return ExitFailure).
Proof.
  intros Hp Hl. unfold levelArgs. rewrite length_eqb_0.
  apply String.eqb_neq in Hp. rewrite Hp. cbn [negb].
  assert (N : forall s, In s levelNames ->
                        (ToLower w (logLevel d) == s) = false).
  { intros s Hs. apply String.eqb_neq. intros E. apply Hl. now rewrite E. }
  rewrite !N by (simpl; tauto). reflexivity.
Qed.

(** When the log-level input lets the command go on, the flag is set if the
    input is there, and the other fields are left alone. *)
Lemma levelArgs_keeps a a' :
  flow (levelArgs w d a) = Next a' ->
  control.SetLevel a' = present (logLevel d) || control.SetLevel a
  /\ control.SetStrace a' = control.SetStrace a
  /\ control.EnableStrace a' = control.EnableStrace a
  /\ control.StraceWhitelist a' = control.StraceWhitelist a
  /\ control.SetLogPackets a' = control.SetLogPackets a
  /\ control.LogPackets a' = control.LogPackets a.
Proof.
  unfold levelArgs, present. rewrite length_eqb_0.
  destruct (logLevel d == ""); cbn.
  - intros [= <-]. repeat split.
  - repeat (cbn; try break_match); intros [= <-]; repeat split.
Qed.

(** *** The log-packets input (lines 222-234) *)

Lemma logPacketsArgs_absent a : logPackets d = "" -> logPacketsArgs d a = pure a.
Proof. intros E. unfold logPacketsArgs. now rewrite E. Qed.

Lemma logPacketsArgs_invalid a err :
  logPackets d <> "" ->
  strconv.ParseBool (logPackets d) = Err err ->
  logPacketsArgs d a =
  mkRun [EErrorf "invalid value for log_packets %q" [AStr (logPackets d)]] []
        (Return ExitFailure).
Proof.
  intros Hp Hb. unfold logPacketsArgs. rewrite length_eqb_0.
  apply String.eqb_neq in Hp. rewrite Hp. cbn [negb]. now rewrite Hb.
Qed.

Lemma logPacketsArgs_valid a lp :
  logPackets d <> "" ->
  strconv.ParseBool (logPackets d) = Ok lp ->
  exists logs,
    logPacketsArgs d a =
    mkRun logs []
          (Next (control.with_LogPackets (control.with_SetLogPackets a true) lp)).
Proof.
  intros Hp Hb. unfold logPacketsArgs. rewrite length_eqb_0.
  apply String.eqb_neq in Hp. rewrite Hp. cbn [negb]. rewrite Hb.
  destruct lp; eexists; reflexivity.
Qed.

Lemma logPacketsArgs_keeps a a' :
  flow (logPacketsArgs d a) = Next a' ->
  control.SetLogPackets a' = present (logPackets d) || control.SetLogPackets a
  /\ control.SetStrace a' = control.SetStrace a
  /\ control.EnableStrace a' = control.EnableStrace a
  /\ control.StraceWhitelist a' = control.StraceWhitelist a
  /\ control.SetLevel a' = control.SetLevel a
  /\ control.Level a' = control.Level a.
Proof.
  unfold logPacketsArgs, present. rewrite length_eqb_0.
  destruct (logPackets d == ""); cbn.
  - intros [= <-]. repeat split.
  - repeat (cbn; try break_match); intros [= <-]; repeat split.
Qed.

(** *** The three together *)

(** What [loggingArgs] builds, when it builds something: the strace fields
    are those the strace input gives, the level is the one the log-level
    input gives, and the flags of the level and of the packet logging are
    set exactly when their inputs are there. *)
Lemma loggingArgs_fields args :
  flow (loggingArgs w d) = Next args ->
  exists a1 a2,
    flow (straceArgs w d control.SetStrace_true) = Next a1
    /\ flow (levelArgs w d a1) = Next a2
    /\ control.SetStrace args = control.SetStrace a1
    /\ control.EnableStrace args = control.EnableStrace a1
    /\ control.StraceWhitelist args = control.StraceWhitelist a1
    /\ control.Level args = control.Level a2
    /\ control.SetLevel args = present (logLevel d)
    /\ control.SetLogPackets args = present (logPackets d).
Proof.
  unfold loggingArgs. intros H.
  apply flow_bind_Next in H. destruct H as (a1 & H1 & H).
  apply flow_bind_Next in H. destruct H as (a2 & H2 & H3).
  exists a1, a2. split; [ exact H1 | split; [ exact H2 | ] ].
  apply levelArgs_keeps in H2. apply logPacketsArgs_keeps in H3.
  destruct (straceArgs_keeps control.SetStrace_true)
    as (logs & a1' & E & K1 & K2 & K3 & K4 & K5).
  rewrite E in H1. cbn in H1. injection H1 as ->.
  destruct H2 as (L1 & L2 & L3 & L4 & L5 & L6).
  destruct H3 as (P1 & P2 & P3 & P4 & P5 & P6).
  repeat split; try congruence.
  - rewrite P5, L1, K2. cbn. apply orb_false_r.
  - rewrite P1, L5, K4. cbn. apply orb_false_r.
Qed.

(** The logging block in terms of [loggingArgs]. *)
Lemma changeLogging_eq sb :
  changeLogging w d sb =
  if present (strace d) || present (logLevel d) || present (logPackets d) then
    (args <- loggingArgs w d ;;
     e <- call (EChangeLogging sb args) (ChangeLogging w sb args) ;;
     match e with
     | Some err => return! Errorf err []
     | None => Infof "Logging options changed" []
     end)
  else pure tt.
Proof.
  unfold changeLogging, loggingArgs, present. rewrite !length_eqb_0.
  destruct (_ || _); [ | reflexivity ].
  rewrite bind_assoc. apply bind_ext; intros a1.
  now rewrite bind_assoc.
Qed.

End LoggingArgs.

(** *** The changes an invocation sends *)

Lemma changesSent_app l1 l2 :
  changesSent (l1 ++ l2) = changesSent l1 ++ changesSent l2.
Proof.
  induction l1 as [ | e l1 IH ]; [ reflexivity | ].
  destruct e; cbn; rewrite ?IH; reflexivity.
Qed.

Lemma changesSent_within steps evs :
  within steps evs -> ~ In Logging steps -> changesSent evs = [].
Proof.
  intros H N. induction H as [ | e evs He _ IH ]; [ reflexivity | ].
  destruct e; cbn; try exact IH. now elim N.
Qed.

Lemma loggingArgs_within w d steps :
  In Message steps -> within steps (events (loggingArgs w d)).
Proof. intros H. unfold loggingArgs. sequence_within. Qed.

(** The logging block sends the change that [loggingArgs] builds, once, if
    an input is there and the building does not fail. *)
Lemma changesSent_changeLogging w d sb :
  changesSent (events (changeLogging w d sb)) =
  if present (strace d) || present (logLevel d) || present (logPackets d) then
    match flow (loggingArgs w d) with
    | Next args => [args]
    | Return _ => []
    end
  else [].
Proof.
  rewrite changeLogging_eq. destruct (_ || _); [ | reflexivity ].
  rewrite events_bind, changesSent_app.
  rewrite (changesSent_within [Message]);
    [ | apply loggingArgs_within; simpl; tauto | simpl; intuition discriminate ].
  destruct (flow (loggingArgs w d)) as [args | s]; [ | reflexivity ].
  cbn. now destruct (ChangeLogging w sb args).
Qed.

Lemma beforeLogging_within w d conf fargs :
  within [Message; Resolving; Signalling; DumpingStacks; Opening;
          HeapProfiling; Starting]
         (events (beforeLogging w d conf fargs)).
Proof.
  unfold beforeLogging, beforeTrace, beforeCPUProfile, target.
  sequence_within.
Qed.

(** The changes sent in a whole invocation. *)
Lemma changesSent_Execute w d conf fargs :
  changesSent (fst (Execute w d conf fargs)) =
  match flow (beforeLogging w d conf fargs) with
  | Next _ =>
      if present (strace d) || present (logLevel d) || present (logPackets d) then
        match flow (loggingArgs w d) with
        | Next args => [args]
        | Return _ => []
        end
      else []
  | Return _ => []
  end.
Proof.
  unfold Execute. rewrite fst_finish, body_after_traceSession.
  rewrite changesSent_app.
  rewrite (changesSent_within [Message; Closing; Stopping] (fst _));
    [ | auto with within | simpl; intuition discriminate ].
  rewrite app_nil_r, events_bind, changesSent_app.
  rewrite (changesSent_within _ _ (beforeLogging_within w d conf fargs))
    by (simpl; intuition discriminate).
  destruct (flow (beforeLogging w d conf fargs)) as [[sb delay] | s];
    [ | reflexivity ].
  cbn [app fst snd]. rewrite events_bind, changesSent_app.
  rewrite changesSent_changeLogging.
  rewrite (changesSent_within [Message; Sleeping]
             (match flow (changeLogging w d sb) with
              | Next _ => _ | Return _ => _ end)).
  - apply app_nil_r.
  - destruct (flow (changeLogging w d sb)); [ | constructor ].
    sequence_within.
  - simpl. intuition discriminate.
Qed.

(** *** The strace input *)

Lemma straceArgs_fields w d :
  strace d <> "" ->
  exists logs a1,
    straceArgs w d control.SetStrace_true = mkRun logs [] (Next a1)
    /\ straceFields w d a1.
Proof.
  intros Hp. unfold straceFields.
  destruct (String.eqb_spec (ToLower w (strace d)) "off") as [Hoff | Hoff].
  - do 2 eexists. split; [ now apply straceArgs_off | ].
    rewrite Hoff. cbn. repeat split; intros; congruence.
  - destruct (String.eqb_spec (ToLower w (strace d)) "all") as [Hall | Hall].
    + do 2 eexists. split; [ now apply straceArgs_all | ].
      rewrite Hall. cbn. repeat split; intros; congruence.
    + do 2 eexists. split; [ now apply straceArgs_list | ].
      cbn. repeat split; intros; congruence.
Qed.

(** With a strace input, what [loggingArgs] builds has the strace fields. *)
Lemma loggingArgs_straceFields w d :
  strace d <> "" ->
  forall args, flow (loggingArgs w d) = Next args -> straceFields w d args.
Proof.
  intros Hp args H.
  destruct (loggingArgs_fields w d args H)
    as (a1 & a2 & H1 & _ & E1 & E2 & E3 & _).
  destruct (straceArgs_fields w d Hp) as (logs & a1' & E & F).
  rewrite E in H1. cbn in H1. injection H1 as ->.
  unfold straceFields in *. now rewrite E1, E2, E3.
Qed.

(** And so has every change an invocation sends. *)
Lemma changesSent_straceFields w d conf fargs :
  strace d <> "" ->
  forall args,
    In args (changesSent (fst (Execute w d conf fargs))) ->
    straceFields w d args.
Proof.
  intros Hp args Hin. rewrite changesSent_Execute in Hin.
  destruct (flow (beforeLogging w d conf fargs)); [ | now destruct Hin ].
  destruct (_ || _); [ | now destruct Hin ].
  destruct (flow (loggingArgs w d)) as [args' | s] eqn:F; [ | now destruct Hin ].
  destruct Hin as [<- | []]. now apply (loggingArgs_straceFields w d Hp).
Qed.



(** *** Splitting at the commas *)

Lemma Split_not_nil c s : strings.Split s c <> [].
Proof.
  destruct s as [ | x r ]; cbn; [ discriminate | ].
  destruct (Ascii.eqb x c); [ discriminate | ].
  destruct (strings.Split r c); discriminate.
Qed.

(** Joining the pieces with the separator gives the input back. *)
Lemma Join_Split c s :
  strings.Join (strings.Split s c) (String c "") = s.
Proof.
  induction s as [ | x r IH ]; [ reflexivity | ].
  cbn [strings.Split].
  pose proof (Split_not_nil c r) as NN.
  destruct (Ascii.eqb_spec x c) as [-> | N];
    (destruct (strings.Split r c) as [ | h t ]; [ now elim NN | ]);
    rewrite <- IH; now destruct t.
Qed.

(** No piece contains the separator. *)
Lemma Split_pieces c s :
  Forall (fun p => strings.containsByte c p = false) (strings.Split s c).
Proof.
  induction s as [ | x r IH ]; cbn.
  - now repeat constructor.
  - destruct (Ascii.eqb_spec x c) as [-> | N].
    + constructor; [ reflexivity | exact IH ].
    + destruct (strings.Split r c) as [ | h t ].
      * repeat constructor. cbn. apply Ascii.eqb_neq in N. now rewrite N.
      * inversion IH as [ | ? ? Hh Ht ]; subst.
        constructor; [ | exact Ht ].
        cbn. apply Ascii.eqb_neq in N. now rewrite N.
Qed.

(** n separators give n+1 pieces. *)
Lemma Split_length c s :
  List.length (strings.Split s c) = S (strings.countByte c s).
Proof.
  induction s as [ | x r IH ]; [ reflexivity | ].
  cbn. destruct (Ascii.eqb x c); cbn; [ now rewrite IH | ].
  destruct (strings.Split r c); cbn in *; [ discriminate | exact IH ].
Qed.

Lemma Split_no_separator c s :
  strings.containsByte c s = false -> strings.Split s c = [s].
Proof.
  induction s as [ | x r IH ]; [ reflexivity | ].
  cbn. destruct (Ascii.eqb x c); cbn; [ discriminate | ].
  intros H. now rewrite (IH H).
Qed.

Lemma Split_app c p t :
  strings.containsByte c p = false ->
  strings.Split (p +++ String c t) c = p :: strings.Split t c.
Proof.
  induction p as [ | x r IH ]; cbn.
  - intros _. now rewrite Ascii.eqb_refl.
  - destruct (Ascii.eqb x c); cbn; [ discriminate | ].
    intros H. now rewrite (IH H).
Qed.

(** The pieces are the only way to cut the input at its separators. *)
Lemma Split_Join c l :
  l <> [] ->
  Forall (fun p => strings.containsByte c p = false) l ->
  strings.Split (strings.Join l (String c "")) c = l.
Proof.
  intros N H. induction H as [ | p rest Hp Hrest IH ]; [ now elim N | ].
  destruct rest as [ | q rest' ].
  - cbn. now apply Split_no_separator.
  - cbn [strings.Join]. cbn [String.append].
    rewrite (Split_app _ _ _ Hp). f_equal. apply IH. discriminate.
Qed.

(** *** The log-level input *)

(** The level of what [loggingArgs] builds, for an accepted spelling. *)
Lemma loggingArgs_level w d args :
  logLevel d <> "" ->
  flow (loggingArgs w d) = Next args ->
  control.SetLevel args = true
  /\ (ToLower w (logLevel d) = "warning" \/ ToLower w (logLevel d) = "0" ->
      control.Level args = log.Warning)
  /\ (ToLower w (logLevel d) = "info" \/ ToLower w (logLevel d) = "1" ->
      control.Level args = log.Info)
  /\ (ToLower w (logLevel d) = "debug" \/ ToLower w (logLevel d) = "2" ->
      control.Level args = log.Debug).
Proof.
  intros Hp H.
  destruct (loggingArgs_fields w d args H)
    as (a1 & a2 & _ & H2 & _ & _ & _ & EL & ES & _).
  split; [ rewrite ES; now apply present_true | ].
  rewrite EL.
  split; [ | split ]; intros Hl.
  - rewrite (levelArgs_warning w d a1 Hp Hl) in H2. now injection H2 as <-.
  - rewrite (levelArgs_info w d a1 Hp Hl) in H2. now injection H2 as <-.
  - rewrite (levelArgs_debug w d a1 Hp Hl) in H2. now injection H2 as <-.
Qed.

(** A change that was sent is one that [loggingArgs] built. *)
Lemma changesSent_built w d conf fargs args :
  In args (changesSent (fst (Execute w d conf fargs))) ->
  flow (loggingArgs w d) = Next args.
Proof.
  rewrite changesSent_Execute.
  destruct (flow (beforeLogging w d conf fargs)); [ | intros [] ].
  destruct (_ || _); [ | intros [] ].
  destruct (flow (loggingArgs w d)) as [args' | s]; [ | intros [] ].
  intros [<- | []]. reflexivity.
Qed.

(** An accepted spelling lets the command go on. *)
Lemma levelArgs_accepted w d a :
  logLevel d <> "" ->
  In (ToLower w (logLevel d)) levelNames ->
  exists logs a', levelArgs w d a = mkRun logs [] (Next a').
Proof.
  intros Hp Hin. unfold levelNames in Hin. simpl in Hin.
  destruct Hin as [E | [E | [E | [E | [E | [E | []]]]]]]; symmetry in E.
  - do 2 eexists. apply levelArgs_warning; auto.
  - do 2 eexists. apply levelArgs_warning; auto.
  - do 2 eexists. apply levelArgs_info; auto.
  - do 2 eexists. apply levelArgs_info; auto.
  - do 2 eexists. apply levelArgs_debug; auto.
  - do 2 eexists. apply levelArgs_debug; auto.
Qed.

(** An input that is not an accepted spelling stops the building. *)
Lemma loggingArgs_invalid_level w d :
  logLevel d <> "" ->
  ~ In (ToLower w (logLevel d)) levelNames ->
  loggingArgs w d =
  mkRun (events (straceArgs w d control.SetStrace_true)
           ++ [EErrorf "invalid log level %d" [AStr (logLevel d)]])
        [] (Return ExitFailure).
Proof.
  intros Hp Hl. unfold loggingArgs.
  destruct (straceArgs_keeps w d control.SetStrace_true) as (logs & a1 & E & _).
  rewrite E. unfold bind at 1. cbn [flow events deferred].
  rewrite (bind_Return _ _ _ _ _ (levelArgs_invalid w d a1 Hp Hl)).
  reflexivity.
Qed.

(** C6, as the code has it: a log-level input is accepted exactly when its
    lower-case form is warning or 0 (level Warning), info or 1 (Info), debug
    or 2 (Debug).  Any other input makes the command report an invalid log
    level and return the failure status without sending the logging change;
    by then the target has been resolved and the actions that come before
    the logging change have run. *)
Theorem log_level_is_checked_before_the_change_is_sent w d conf fargs :
  logLevel d <> "" ->
  (forall args,
      flow (loggingArgs w d) = Next args
      \/ In args (changesSent (fst (Execute w d conf fargs))) ->
      control.SetLevel args = true
      /\ (ToLower w (logLevel d) = "warning" \/ ToLower w (logLevel d) = "0" ->
          control.Level args = log.Warning)
      /\ (ToLower w (logLevel d) = "info" \/ ToLower w (logLevel d) = "1" ->
          control.Level args = log.Info)
      /\ (ToLower w (logLevel d) = "debug" \/ ToLower w (logLevel d) = "2" ->
          control.Level args = log.Debug))
  /\ (In (ToLower w (logLevel d)) levelNames ->
      forall a, exists logs a', levelArgs w d a = mkRun logs [] (Next a'))
  /\ (~ In (ToLower w (logLevel d)) levelNames ->
      (forall a,
          levelArgs w d a =
          mkRun [EErrorf "invalid log level %d" [AStr (logLevel d)]] []
                (Return ExitFailure))
      /\ changesSent (fst (Execute w d conf fargs)) = []
      /\ (forall evs dfs sb delay,
            beforeLogging w d conf fargs = mkRun evs dfs (Next (sb, delay)) ->
            Execute w d conf fargs =
              (evs ++ events (straceArgs w d control.SetStrace_true)
                   ++ [EErrorf "invalid log level %d" [AStr (logLevel d)]]
                   ++ fst (runDeferred w dfs),
               if snd (runDeferred w dfs) then Terminated
               else Exited ExitFailure))).
Proof.
  intros Hp. split; [ | split ].
  - intros args [H | H].
    + now apply loggingArgs_level.
    + apply changesSent_built in H. now apply loggingArgs_level.
  - intros Hin a. now apply levelArgs_accepted.
  - intros Hl. split; [ | split ].
    + intros a. now apply levelArgs_invalid.
    + rewrite changesSent_Execute.
      destruct (flow (beforeLogging w d conf fargs)); [ | reflexivity ].
      destruct (_ || _); [ | reflexivity ].
      now rewrite (loggingArgs_invalid_level w d Hp Hl).
    + intros evs dfs sb delay Hb.
      unfold Execute. rewrite body_after_traceSession.
      rewrite (finish_bind_Next _ _ _ _ _ _ Hb). cbn [fst snd].
      rewrite changeLogging_eq.
      apply present_true in Hp. rewrite Hp, orb_true_r. cbn [orb].
      apply present_true in Hp.
      rewrite (bind_Return _ _ _ _ _
                 (bind_Return _ _ _ _ _ (loggingArgs_invalid_level w d Hp Hl))).
      cbn [events deferred flow status runDeferred].
      destruct (runDeferred w dfs) as [e2 [ | ]]; cbn;
        now rewrite <- !app_assoc.
Qed.

Lemma log_level_is_checked_before_the_change_is_sent_witness :
  (Execute Sample.calm (Sample.with_logLevel Sample.flags "bogus")
     Sample.conf ["abc"]
   = ([ELoad "/var/run/runsc" "abc";
       EInfof "Found sandbox %q, PID: %d" [AStr "abc"; AInt 42];
       EErrorf "invalid log level %d" [AStr "bogus"]],
      Exited ExitFailure))
  /\ control.Level
       {| control.SetLevel := true; control.Level := log.Debug;
          control.SetLogPackets := false; control.LogPackets := false;
          control.SetStrace := true; control.EnableStrace := false;
          control.StraceWhitelist := [] |}
     = log.Debug.
Proof.
  split.
  - refine (proj2 (proj2 (proj2 (proj2
             (log_level_is_checked_before_the_change_is_sent
                Sample.calm (Sample.with_logLevel Sample.flags "bogus")
                Sample.conf ["abc"] _)) _))
             _ _ Sample.sb false eq_refl).
    + simpl. discriminate.
    + vm_compute. intuition discriminate.
  - refine (proj2 (proj2 (proj2 (proj1
             (log_level_is_checked_before_the_change_is_sent
                Sample.calm (Sample.with_logLevel Sample.flags "DeBug")
                Sample.conf ["abc"] _) _ (or_intror _))))
             (or_introl eq_refl)).
    + simpl. discriminate.
    + vm_compute. left. reflexivity.
Defined.

(** C6, as stated, fails in its last part: the invalid log level is not
    reported before any external call.  In the scenario of a container ID
    and a log level that does not parse, the container is loaded first; and
    when the container loaded has no running sandbox, the command fails for
    that reason and the log level is never looked at. *)
Lemma invalid_log_level_after_resolution_counterexample :
  Execute Sample.calm (Sample.with_logLevel Sample.flags "bogus")
    Sample.conf ["abc"]
  = ([ELoad "/var/run/runsc" "abc";
      EInfof "Found sandbox %q, PID: %d" [AStr "abc"; AInt 42];
      EErrorf "invalid log level %d" [AStr "bogus"]],
     Exited ExitFailure)
  /\ externalCalls
       (fst (Execute Sample.calm (Sample.with_logLevel Sample.flags "bogus")
               Sample.conf ["abc"]))
     = [ELoad "/var/run/runsc" "abc"]
  /\ Execute Sample.calm (Sample.with_logLevel Sample.flags "bogus")
       Sample.conf ["x"]
     = ([ELoad "/var/run/runsc" "x";
         EErrorf "container sandbox is not running" []],
        Exited ExitFailure).
Proof. repeat split. Qed.

(** *** One change, built from the inputs that are there *)

(** Inputs that parse let [loggingArgs] build a change. *)
Lemma loggingArgs_builds w d :
  logLevel d = "" \/ In (ToLower w (logLevel d)) levelNames ->
  logPackets d = "" \/ (exists b, strconv.ParseBool (logPackets d) = Ok b) ->
  exists args, flow (loggingArgs w d) = Next args.
Proof.
  intros Hlevel Hpackets. unfold loggingArgs.
  destruct (straceArgs_keeps w d control.SetStrace_true) as (l1 & a1 & E1 & _).
  assert (E2 : exists l2 a2, levelArgs w d a1 = mkRun l2 [] (Next a2)).
  { destruct (String.eqb_spec (logLevel d) "") as [E | N].
    - exists [], a1. now apply levelArgs_absent.
    - destruct Hlevel as [E | Hin]; [ now elim N | ].
      now apply levelArgs_accepted. }
  destruct E2 as (l2 & a2 & E2).
  assert (E3 : exists l3 a3, logPacketsArgs d a2 = mkRun l3 [] (Next a3)).
  { destruct (String.eqb_spec (logPackets d) "") as [E | N].
    - exists [], a2. now apply logPacketsArgs_absent.
    - destruct Hpackets as [E | (b & Hb)]; [ now elim N | ].
      destruct (logPacketsArgs_valid d a2 b N Hb) as (l3 & E3).
      eauto. }
  destruct E3 as (l3 & a3 & E3).
  exists a3. rewrite E1. unfold bind at 1. cbn [flow events deferred].
  rewrite E2. unfold bind at 1. cbn [flow events deferred].
  now rewrite E3.
Qed.

(** C10: with a strace input that is neither off nor all (in any case), the
    strace block always builds the whitelist by cutting the input at its
    commas, and the command that has reached the logging step with inputs
    that parse sends exactly one change, with that whitelist.  The
    whitelist of every change built or sent is the input cut at its commas:
    joined again with commas the entries give the input back byte for byte
    (same order, same case, nothing trimmed), no entry contains a comma, and
    there is one entry more than there are commas, so that doubled or
    trailing commas give empty entries. *)
Theorem strace_whitelist_is_the_input_split w d conf fargs :
  strace d <> "" ->
  ToLower w (strace d) <> "off" ->
  ToLower w (strace d) <> "all" ->
  (forall a,
      straceArgs w d a =
      mkRun [EInfof "Enabling strace for syscalls: %s" [AStr (strace d)]] []
            (Next (control.with_StraceWhitelist
                     (control.with_EnableStrace a true)
                     (strings.Split (strace d) ","))))
  /\ (forall evs dfs sb delay,
        beforeLogging w d conf fargs = mkRun evs dfs (Next (sb, delay)) ->
        logLevel d = "" \/ In (ToLower w (logLevel d)) levelNames ->
        logPackets d = "" \/ (exists b, strconv.ParseBool (logPackets d) = Ok b) ->
        exists args,
          changesSent (fst (Execute w d conf fargs)) = [args]
          /\ control.StraceWhitelist args = strings.Split (strace d) ",")
  /\ (forall args,
      In args (changesSent (fst (Execute w d conf fargs)))
      \/ flow (loggingArgs w d) = Next args ->
      control.StraceWhitelist args = strings.Split (strace d) ",")
  /\ strings.Join (strings.Split (strace d) ",") "," = strace d
  /\ Forall (fun p => strings.containsByte "," p = false)
            (strings.Split (strace d) ",")
  /\ List.length (strings.Split (strace d) ",")
     = S (strings.countByte "," (strace d))
  /\ (forall l,
        l <> [] ->
        Forall (fun p => strings.containsByte "," p = false) l ->
        strings.Join l "," = strace d ->
        l = strings.Split (strace d) ",")
  /\ strings.Split "A, B," "," = ["A"; " B"; ""].
Proof.
  intros Hp Hoff Hall.
  pose proof (loggingArgs_straceFields w d Hp) as Hbuilt.
  pose proof (changesSent_straceFields w d conf fargs Hp) as Hsent.
  split; [ | split; [ | split; [ | split; [ | split; [ | split; [ | split ] ] ] ] ] ].
  - intros a. now apply straceArgs_list.
  - intros evs dfs sb delay Hb Hlevel Hpackets.
    destruct (loggingArgs_builds w d Hlevel Hpackets) as (args & F).
    exists args. split.
    + rewrite changesSent_Execute, Hb.
      apply present_true in Hp. rewrite Hp. cbn [orb]. now rewrite F.
    + destruct (Hbuilt args F) as (_ & _ & _ & H). now apply H.
  - intros args [Hin | Hflow].
    + destruct (Hsent args Hin) as (_ & _ & _ & H). now apply H.
    + destruct (Hbuilt args Hflow) as (_ & _ & _ & H). now apply H.
  - apply Join_Split.
  - apply Split_pieces.
  - apply Split_length.
  - intros l N F <-. symmetry. now apply Split_Join.
  - reflexivity.
Qed.

Lemma strace_whitelist_is_the_input_split_witness :
  exists args,
    changesSent
      (fst (Execute Sample.calm (Sample.with_strace Sample.flags "A, B,")
              Sample.conf ["abc"]))
    = [args]
    /\ control.StraceWhitelist args = ["A"; " B"; ""].
Proof.
  apply (proj1 (proj2 (strace_whitelist_is_the_input_split
           Sample.calm (Sample.with_strace Sample.flags "A, B,")
           Sample.conf ["abc"]
           ltac:(simpl; discriminate)
           ltac:(vm_compute; discriminate)
           ltac:(vm_compute; discriminate)))
         _ _ Sample.sb false eq_refl).
  - left. reflexivity.
  - left. reflexivity.
Defined.

(** C1: the code departs from the claim in the strace flag.  With no strace
    input, and a log-level or log-packets input that parses, the command
    that has reached the logging step sends exactly one change; its level
    and packet-logging flags are set exactly when their inputs are there, as
    the claim says, but its strace flag is set too, with tracing disabled
    and an empty whitelist: the literal of line 189 sets the flag before the
    strace input is looked at. *)
Theorem strace_flag_is_set_without_a_strace_input
    w d conf fargs evs dfs sb delay :
  beforeLogging w d conf fargs = mkRun evs dfs (Next (sb, delay)) ->
  strace d = "" ->
  logLevel d <> "" \/ logPackets d <> "" ->
  logLevel d = "" \/ In (ToLower w (logLevel d)) levelNames ->
  logPackets d = "" \/ (exists b, strconv.ParseBool (logPackets d) = Ok b) ->
  exists args,
    changesSent (fst (Execute w d conf fargs)) = [args]
    /\ control.SetStrace args = true
    /\ control.EnableStrace args = false
    /\ control.StraceWhitelist args = []
    /\ control.SetLevel args = present (logLevel d)
    /\ control.SetLogPackets args = present (logPackets d).
Proof.
  intros Hb Hs Hany Hlevel Hpackets.
  destruct (loggingArgs_builds w d Hlevel Hpackets) as (args & F).
  exists args.
  assert (P : present (strace d) || present (logLevel d) || present (logPackets d)
              = true).
  { destruct Hany as [H | H]; apply present_true in H; rewrite H;
      now rewrite ?orb_true_r. }
  split.
  - rewrite changesSent_Execute, Hb, P. now rewrite F.
  - destruct (loggingArgs_fields w d args F)
      as (a1 & a2 & H1 & _ & E1 & E2 & E3 & _ & EL & EP).
    rewrite (straceArgs_absent w d _ Hs) in H1. cbn in H1.
    injection H1 as <-.
    rewrite E1, E2, E3. now repeat split.
Qed.

Lemma strace_flag_is_set_without_a_strace_input_witness :
  exists args,
    changesSent
      (fst (Execute Sample.calm (Sample.with_logLevel Sample.flags "debug")
              Sample.conf ["abc"]))
    = [args]
    /\ control.SetStrace args = true
    /\ control.EnableStrace args = false
    /\ control.StraceWhitelist args = []
    /\ control.SetLevel args = true
    /\ control.SetLogPackets args = false.
Proof.
  apply (strace_flag_is_set_without_a_strace_input
           Sample.calm (Sample.with_logLevel Sample.flags "debug")
           Sample.conf ["abc"] _ _ Sample.sb false eq_refl eq_refl).
  - left. simpl. discriminate.
  - right. vm_compute. tauto.
  - left. reflexivity.
Defined.

(** * More of the command *)

(** ** [SetFlags] *)

Lemma defined_app f g name :
  flag.defined (f ++ g) name = flag.defined f name || flag.defined g name.
Proof. unfold flag.defined. apply existsb_app. Qed.

(** What a successful [SetFlags] has done. *)
Lemma SetFlags_Some d f d' f' :
  SetFlags d f = Some (d', f') ->
  d' = defaults /\ f' = f ++ flagNames
  /\ forall name, In name flagNames -> flag.defined f name = false.
Proof.
  unfold SetFlags, flagVar, flag.Var.
  repeat (cbn [fst snd];
          match goal with
          | |- context [if flag.defined ?g ?n then _ else _] =>
              destruct (flag.defined g n) eqn:?; [ discriminate | ]
          end).
  cbn. intros [= <- <-].
  split; [ reflexivity | split ].
  - now rewrite <- !app_assoc.
  - intros name Hin.
    repeat match goal with
           | H : flag.defined (_ ++ _) _ = false |- _ =>
               rewrite defined_app in H; apply orb_false_elim in H;
               destruct H as [H _]
           end.
    simpl in Hin.
    repeat (destruct Hin as [<- | Hin]; [ assumption | ]).
    now destruct Hin.
Qed.

(** X1: on a flag set in which none of its ten names is defined, [SetFlags]
    does not panic, defines the ten names in order and leaves every field of
    the receiver at its default, whatever the receiver held before.  On the
    flag set it has just filled it panics: the command cannot be registered
    twice on one flag set. *)
Theorem SetFlags_resets_the_receiver_once d f :
  ((forall name, In name flagNames -> flag.defined f name = false) ->
   SetFlags d f = Some (defaults, f ++ flagNames)
   /\ forall d', SetFlags d' (f ++ flagNames) = None)
  /\ (forall name,
        In name flagNames -> flag.defined f name = true ->
        SetFlags d f = None).
Proof.
  split.
  - intros H. split.
    + unfold SetFlags, flagVar, flag.Var.
      repeat (cbn [fst snd];
              rewrite ?defined_app;
              rewrite H by (simpl; tauto);
              cbn [flag.defined existsb String.eqb Ascii.eqb Bool.eqb orb]).
      cbn. now rewrite <- !app_assoc.
    + intros d'. unfold SetFlags, flagVar, flag.Var.
      rewrite defined_app. cbn. now rewrite orb_true_r.
  - intros name Hin Hdef.
    destruct (SetFlags d f) as [[d' f'] | ] eqn:E; [ | reflexivity ].
    destruct (SetFlags_Some _ _ _ _ E) as (_ & _ & H).
    rewrite (H name Hin) in Hdef. discriminate Hdef.
Qed.

Lemma SetFlags_resets_the_receiver_once_witness :
  (SetFlags (Sample.with_signal (Sample.with_strace Sample.flags "all") 9) ["debug"]
   = Some (defaults, ["debug"] ++ flagNames)
   /\ forall d', SetFlags d' (["debug"] ++ flagNames) = None)
  /\ SetFlags Sample.flags ["debug"; "trace"] = None.
Proof.
  split.
  - apply (proj1 (SetFlags_resets_the_receiver_once _ _)).
    intros name Hin. simpl in Hin.
    repeat (destruct Hin as [<- | Hin]; [ reflexivity | ]).
    now destruct Hin.
  - apply (proj2 (SetFlags_resets_the_receiver_once _ _) "trace").
    + simpl. tauto.
    + reflexivity.
Defined.

(** ** What the body can do *)

Lemma Forall_events_bind {A B} (P : Event -> Prop) (m : M A) (k : A -> M B) :
  Forall P (events m) ->
  (forall a, Forall P (events (k a))) ->
  Forall P (events (bind m k)).
Proof.
  intros Hm Hk. rewrite events_bind. apply Forall_app. split; [ exact Hm | ].
  destruct (flow m); [ apply Hk | constructor ].
Qed.

Section BodyEvents.

Variable w : World.
Variable d : Debug.
Variable conf : boot.Config.
Variable fargs : list string.

Variable P : Event -> Prop.
Hypothesis P_Usage : P EUsage.
Hypothesis P_List : forall root, P (EList root).
Hypothesis P_Load : forall root id, P (ELoad root id).
Hypothesis P_Kill : forall p s, P (EKill p s).
Hypothesis P_Stacks : forall sb, P (EStacks sb).
Hypothesis P_Create : forall path, P (ECreate path).
Hypothesis P_HeapProfile : forall sb f, P (EHeapProfile sb f).
Hypothesis P_StartCPUProfile : forall sb f, P (EStartCPUProfile sb f).
Hypothesis P_StartTrace : forall sb f, P (EStartTrace sb f).
Hypothesis P_ChangeLogging : forall sb a, P (EChangeLogging sb a).
Hypothesis P_Sleep : forall n, P (ESleep n).
Hypothesis P_Infof : forall fmt a, P (EInfof fmt a).
Hypothesis P_Errorf : forall fmt a, P (EErrorf fmt a).

(** For a block without a loop: follow every branch, then check the events
    one by one against the hypotheses. *)
Ltac block_events :=
  intros;
  repeat (cbn; try break_match);
  repeat (apply Forall_cons; [ solve [ auto ] | ]);
  apply Forall_nil.

Lemma scan_events ids : Forall P (events (scan w d conf ids)).
Proof.
  induction ids as [ | id rest IH ]; [ constructor | ].
  cbn [scan]. apply Forall_events_bind; [ block_events | ].
  intros [c | err]; [ | block_events ].
  destruct (container.SandboxPid c =? pid d); [ constructor | exact IH ].
Qed.

Lemma resolve_events : Forall P (events (resolve w d conf fargs)).
Proof.
  unfold resolve. destruct (pid d =? 0); [ block_events | ].
  destruct (negb _); [ block_events | ].
  apply Forall_events_bind; [ block_events | ].
  intros [ids | err]; [ | block_events ].
  apply Forall_events_bind; [ apply scan_events | ].
  intros [c | ]; block_events.
Qed.

Lemma changeLogging_events sb : Forall P (events (changeLogging w d sb)).
Proof.
  unfold changeLogging. destruct (_ || _); [ | constructor ].
  apply Forall_events_bind; [ unfold straceArgs; block_events | intros a1 ].
  apply Forall_events_bind; [ unfold levelArgs; block_events | intros a2 ].
  apply Forall_events_bind; [ unfold logPacketsArgs; block_events | intros a3 ].
  block_events.
Qed.

(** The body only lists, loads, signals, dumps stacks, creates files, takes
    the heap profile, starts sessions, changes the logging, sleeps and
    writes messages: it never closes a file, stops a session or calls
    [Fatalf]. *)
Lemma body_events : Forall P (events (body w d conf fargs)).
Proof.
  unfold body.
  apply Forall_events_bind; [ apply resolve_events | intros c ].
  apply Forall_events_bind; [ unfold running; block_events | intros sb ].
  apply Forall_events_bind; [ unfold sendSignal; block_events | intros _ ].
  apply Forall_events_bind; [ unfold dumpStacks; block_events | intros _ ].
  apply Forall_events_bind; [ unfold heapProfile; block_events | intros _ ].
  apply Forall_events_bind; [ unfold cpuProfile; block_events | intros d1 ].
  apply Forall_events_bind; [ unfold traceSession; block_events | intros d2 ].
  apply Forall_events_bind; [ apply changeLogging_events | intros _ ].
  apply Forall_events_bind; [ unfold sleep; block_events | intros _ ].
  constructor.
Qed.

End BodyEvents.

Lemma Forall_filter_nil (p : Event -> bool) evs :
  Forall (fun e => p e = false) evs -> filter p evs = [].
Proof.
  induction 1 as [ | e evs He _ IH ]; [ reflexivity | ].
  simpl. now rewrite He.
Qed.

Lemma no_Fatalf_in_body w d conf fargs :
  filter isFatalf (events (body w d conf fargs)) = [].
Proof. apply Forall_filter_nil. apply body_events; reflexivity. Qed.

(** ** Termination by [Fatalf] *)

(** The run of the deferred closures ends the process exactly when a stop
    request fails; [Fatalf] is then its last event, called with the error
    of the stop. *)
Lemma runDeferred_Fatalf w stack :
  if snd (runDeferred w stack) then
    exists evs err sb,
      fst (runDeferred w stack) = evs ++ [EFatalf err []]
      /\ filter isFatalf evs = []
      /\ (StopCPUProfile w sb = Some err \/ StopTrace w sb = Some err)
  else filter isFatalf (fst (runDeferred w stack)) = [].
Proof.
  induction stack as [ | c rest IH ]; [ reflexivity | ].
  cbn [runDeferred].
  destruct c as [ g | sb f p | sb f p ]; cbn [runClosure].
  - destruct (runDeferred w rest) as [evs' [ | ]]; cbn [fst snd] in *.
    + destruct IH as (evs & err & sb & -> & Hn & Hs).
      exists (EClose g :: evs), err, sb. now repeat split.
    + exact IH.
  - destruct (StopCPUProfile w sb) as [err | ] eqn:E; cbn [fst snd].
    + exists [EClose f; EStopCPUProfile sb], err, sb. now repeat split; auto.
    + destruct (runDeferred w rest) as [evs' [ | ]]; cbn [fst snd] in *.
      * destruct IH as (evs & err & sb' & -> & Hn & Hs).
        exists (EClose f :: EStopCPUProfile sb
                  :: EInfof "CPU profile written to %q" [AStr p] :: evs), err, sb'.
        now repeat split.
      * exact IH.
  - destruct (StopTrace w sb) as [err | ] eqn:E; cbn [fst snd].
    + exists [EClose f; EStopTrace sb], err, sb. now repeat split; auto.
    + destruct (runDeferred w rest) as [evs' [ | ]]; cbn [fst snd] in *.
      * destruct IH as (evs & err & sb' & -> & Hn & Hs).
        exists (EClose f :: EStopTrace sb
                  :: EInfof "Trace written to %q" [AStr p] :: evs), err, sb'.
        now repeat split.
      * exact IH.
Qed.

(** What the run of the deferred closures says about the stops it has
    requested: when it ends the process, its last three events are the
    close, the stop request that failed and [Fatalf] with the error of that
    stop; when it does not, every stop it has requested has succeeded. *)
Lemma runDeferred_stops w stack :
  if snd (runDeferred w stack) then
    exists evs f stop err sb,
      fst (runDeferred w stack) = evs ++ [EClose f; stop; EFatalf err []]
      /\ filter isFatalf evs = []
      /\ ((stop = EStopCPUProfile sb /\ StopCPUProfile w sb = Some err)
          \/ (stop = EStopTrace sb /\ StopTrace w sb = Some err))
  else
    forall sb,
      (In (EStopCPUProfile sb) (fst (runDeferred w stack)) ->
       StopCPUProfile w sb = None)
      /\ (In (EStopTrace sb) (fst (runDeferred w stack)) ->
          StopTrace w sb = None).
Proof.
  induction stack as [ | c rest IH ]; [ intros sb; split; intros [] | ].
  cbn [runDeferred].
  destruct c as [ g | sb f p | sb f p ]; cbn [runClosure].
  - destruct (runDeferred w rest) as [evs' [ | ]]; cbn [fst snd] in *.
    + destruct IH as (evs & f & stop & err & sb & -> & Hn & Hs).
      exists (EClose g :: evs), f, stop, err, sb. now repeat split.
    + intros sb. destruct (IH sb) as [Hc Ht].
      split; intros [E | Hin]; try discriminate E; auto.
  - destruct (StopCPUProfile w sb) as [err | ] eqn:E; cbn [fst snd].
    + exists [], f, (EStopCPUProfile sb), err, sb.
      split; [ reflexivity | split; [ reflexivity | now left ] ].
    + destruct (runDeferred w rest) as [evs' [ | ]]; cbn [fst snd] in *.
      * destruct IH as (evs & f' & stop & err & sb' & -> & Hn & Hs).
        exists (EClose f :: EStopCPUProfile sb
                  :: EInfof "CPU profile written to %q" [AStr p] :: evs),
          f', stop, err, sb'.
        now repeat split.
      * intros sb'. destruct (IH sb') as [Hc Ht].
        split; intros [H | [H | [H | Hin]]]; try discriminate H; auto.
        now injection H as <-.
  - destruct (StopTrace w sb) as [err | ] eqn:E; cbn [fst snd].
    + exists [], f, (EStopTrace sb), err, sb.
      split; [ reflexivity | split; [ reflexivity | now right ] ].
    + destruct (runDeferred w rest) as [evs' [ | ]]; cbn [fst snd] in *.
      * destruct IH as (evs & f' & stop & err & sb' & -> & Hn & Hs).
        exists (EClose f :: EStopTrace sb
                  :: EInfof "Trace written to %q" [AStr p] :: evs),
          f', stop, err, sb'.
        now repeat split.
      * intros sb'. destruct (IH sb') as [Hc Ht].
        split; intros [H | [H | [H | Hin]]]; try discriminate H; auto.
        now injection H as <-.
Qed.

(** X2: the command ends in process termination exactly when a stop request
    of the cleanup fails.  The process is terminated if and only if the
    invocation has sent a stop request that the sandbox answers with an
    error; [Fatalf], with the error of that stop, is then the last event of
    the invocation, right after the close and the stop request of that
    session, and the only [Fatalf]; an invocation that returns a status has
    called no [Fatalf]. *)
Theorem terminated_exactly_by_a_failed_stop w d conf fargs :
  (snd (Execute w d conf fargs) = Terminated <->
   exists sb err,
     (In (EStopCPUProfile sb) (fst (Execute w d conf fargs))
      /\ StopCPUProfile w sb = Some err)
     \/ (In (EStopTrace sb) (fst (Execute w d conf fargs))
         /\ StopTrace w sb = Some err))
  /\ (snd (Execute w d conf fargs) = Terminated ->
      exists evs f stop err sb,
        fst (Execute w d conf fargs) = evs ++ [EClose f; stop; EFatalf err []]
        /\ filter isFatalf evs = []
        /\ ((stop = EStopCPUProfile sb /\ StopCPUProfile w sb = Some err)
            \/ (stop = EStopTrace sb /\ StopTrace w sb = Some err)))
  /\ (forall s,
        snd (Execute w d conf fargs) = Exited s ->
        filter isFatalf (fst (Execute w d conf fargs)) = []
        /\ s = status (body w d conf fargs)).
Proof.
  pose proof (runDeferred_stops w (deferred (body w d conf fargs))) as H.
  pose proof (runDeferred_Fatalf w (deferred (body w d conf fargs))) as HF.
  assert (NB : forall e, In e (events (body w d conf fargs)) -> isStop e = false)
    by apply no_stop_in_body.
  unfold Execute, finish.
  destruct (runDeferred w (deferred (body w d conf fargs))) as [devs [ | ]];
    cbn [fst snd] in *.
  - destruct H as (evs' & f & stop & err & sb & -> & Hn & Hs).
    split; [ split; [ intros _ | reflexivity ] | split; [ intros _ | discriminate ] ].
    + exists sb, err.
      destruct Hs as [[-> Hs] | [-> Hs]]; [ left | right ];
        (split; [ | exact Hs ]);
        apply in_or_app; right; apply in_or_app; right; simpl; tauto.
    + exists (events (body w d conf fargs) ++ evs'), f, stop, err, sb.
      split; [ now rewrite app_assoc | split; [ | exact Hs ] ].
      now rewrite filter_app, no_Fatalf_in_body, Hn.
  - split; [ split; [ discriminate | ] | split; [ discriminate | ] ].
    + intros (sb & err & [[Hin Hs] | [Hin Hs]]);
        apply in_app_or in Hin; destruct Hin as [Hin | Hin].
      * apply NB in Hin. discriminate Hin.
      * rewrite (proj1 (H sb) Hin) in Hs. discriminate Hs.
      * apply NB in Hin. discriminate Hin.
      * rewrite (proj2 (H sb) Hin) in Hs. discriminate Hs.
    + intros s [= <-]. split; [ | reflexivity ].
      now rewrite filter_app, no_Fatalf_in_body, HF.
Qed.

Lemma terminated_exactly_by_a_failed_stop_witness :
  snd (Execute Sample.noCPUProfile
         (Sample.with_profileCPU Sample.flags "/tmp/cpu.out")
         Sample.conf ["abc"]) = Terminated
  /\ (exists evs f stop err sb,
        fst (Execute Sample.noCPUProfile
               (Sample.with_profileCPU Sample.flags "/tmp/cpu.out")
               Sample.conf ["abc"])
        = evs ++ [EClose f; stop; EFatalf err []]
        /\ filter isFatalf evs = []
        /\ ((stop = EStopCPUProfile sb
             /\ StopCPUProfile Sample.noCPUProfile sb = Some err)
            \/ (stop = EStopTrace sb
                /\ StopTrace Sample.noCPUProfile sb = Some err)))
  /\ filter isFatalf
       (fst (Execute Sample.calm
               (Sample.with_profileCPU Sample.flags "/tmp/cpu.out")
               Sample.conf ["abc"])) = [].
Proof.
  split; [ | split ].
  - apply (proj2 (proj1 (terminated_exactly_by_a_failed_stop
                    Sample.noCPUProfile
                    (Sample.with_profileCPU Sample.flags "/tmp/cpu.out")
                    Sample.conf ["abc"]))).
    exists Sample.sb, "cpu profiling not enabled". left.
    split; [ | reflexivity ].
    vm_compute. do 6 right. left. reflexivity.
  - apply (proj1 (proj2 (terminated_exactly_by_a_failed_stop
                    Sample.noCPUProfile
                    (Sample.with_profileCPU Sample.flags "/tmp/cpu.out")
                    Sample.conf ["abc"]))).
    reflexivity.
  - apply (proj2 (proj2 (terminated_exactly_by_a_failed_stop
                    Sample.calm
                    (Sample.with_profileCPU Sample.flags "/tmp/cpu.out")
                    Sample.conf ["abc"])) ExitSuccess).
    reflexivity.
Defined.

(** ** The status and the error report *)

Lemma reported_bind {A B} (m : M A) (k : A -> M B) :
  reported m -> (forall a, reported (k a)) -> reported (bind m k).
Proof.
  intros Hm Hk. unfold reported in *. unfold bind.
  destruct (flow m) as [a | s] eqn:F; cbn [flow events]; [ | exact Hm ].
  specialize (Hk a).
  destruct (flow (k a)) as [b | [ | | ]].
  - now rewrite filter_app, Hm, Hk.
  - now rewrite filter_app, Hm, Hk.
  - destruct Hk as (evs & fmt & args & -> & Hn).
    exists (events m ++ evs), fmt, args.
    split; [ now rewrite app_assoc | now rewrite filter_app, Hm, Hn ].
  - destruct Hk as (evs & -> & Hn).
    exists (events m ++ evs).
    split; [ now rewrite app_assoc | now rewrite filter_app, Hm, Hn ].
Qed.

(** For a block without a loop: follow every branch; where the branch
    returns, split its events before the last one. *)
Ltac split_last :=
  first
    [ solve [ refine (ex_intro _ [] _); repeat eexists; reflexivity ]
    | solve [ refine (ex_intro _ [_] _); repeat eexists; reflexivity ]
    | solve [ refine (ex_intro _ [_; _] _); repeat eexists; reflexivity ]
    | solve [ refine (ex_intro _ [_; _; _] _); repeat eexists; reflexivity ]
    | solve [ refine (ex_intro _ [_; _; _; _] _); repeat eexists; reflexivity ] ].

Ltac break_branch :=
  match goal with
  | |- context [match ?x with _ => _ end] =>
      lazymatch x with
      | flow _ => fail
      | _ => destruct x eqn:?
      end
  end.

Ltac block_reported :=
  intros; unfold reported;
  repeat (cbn; try break_branch);
  first [ reflexivity | split_last ].

Section Reported.

Variable w : World.
Variable d : Debug.
Variable conf : boot.Config.
Variable fargs : list string.

Lemma scan_reported ids : reported (scan w d conf ids).
Proof.
  induction ids as [ | id rest IH ]; [ reflexivity | ].
  cbn [scan]. apply reported_bind; [ block_reported | ].
  intros [c | err]; [ | block_reported ].
  destruct (container.SandboxPid c =? pid d); [ reflexivity | exact IH ].
Qed.

Lemma resolve_reported : reported (resolve w d conf fargs).
Proof.
  unfold resolve. destruct (pid d =? 0); [ block_reported | ].
  destruct (negb _); [ block_reported | ].
  apply reported_bind; [ block_reported | ].
  intros [ids | err]; [ | block_reported ].
  apply reported_bind; [ apply scan_reported | ].
  intros [c | ]; block_reported.
Qed.

Lemma changeLogging_reported sb : reported (changeLogging w d sb).
Proof.
  unfold changeLogging. destruct (_ || _); [ | reflexivity ].
  apply reported_bind; [ unfold straceArgs; block_reported | intros a1 ].
  apply reported_bind; [ unfold levelArgs; block_reported | intros a2 ].
  apply reported_bind; [ unfold logPacketsArgs; block_reported | intros a3 ].
  block_reported.
Qed.

Lemma body_reported : reported (body w d conf fargs).
Proof.
  unfold body.
  apply reported_bind; [ apply resolve_reported | intros c ].
  apply reported_bind; [ unfold running; block_reported | intros sb ].
  apply reported_bind; [ unfold sendSignal; block_reported | intros _ ].
  apply reported_bind; [ unfold dumpStacks; block_reported | intros _ ].
  apply reported_bind; [ unfold heapProfile; block_reported | intros _ ].
  apply reported_bind; [ unfold cpuProfile; block_reported | intros d1 ].
  apply reported_bind; [ unfold traceSession; block_reported | intros d2 ].
  apply reported_bind; [ apply changeLogging_reported | intros _ ].
  apply reported_bind; [ unfold sleep; block_reported | intros _ ].
  reflexivity.
Qed.

End Reported.


Lemma no_Errorf_in_deferred w stack :
  filter isErrorf (fst (runDeferred w stack)) = [].
Proof.
  induction stack as [ | c rest IH ]; [ reflexivity | ].
  cbn [runDeferred].
  destruct c as [ g | sb f p | sb f p ]; cbn [runClosure].
  - destruct (runDeferred w rest) as [evs' x]. exact IH.
  - destruct (StopCPUProfile w sb); [ reflexivity | ].
    destruct (runDeferred w rest) as [evs' x]. exact IH.
  - destruct (StopTrace w sb); [ reflexivity | ].
    destruct (runDeferred w rest) as [evs' x]. exact IH.
Qed.

(** X3: the status tells whether an error was reported.  A command that
    returns success has called no [Errorf]; a command that returns the
    failure status has called [Errorf] exactly once, as the last thing
    before its cleanup; and no invocation, however it ends, calls [Errorf]
    twice. *)
Theorem status_tells_the_error_report w d conf fargs :
  (snd (Execute w d conf fargs) = Exited ExitSuccess ->
   filter isErrorf (fst (Execute w d conf fargs)) = [])
  /\ (snd (Execute w d conf fargs) = Exited ExitFailure ->
      exists evs fmt args cleanup,
        fst (Execute w d conf fargs) = evs ++ EErrorf fmt args :: cleanup
        /\ filter isErrorf evs = []
        /\ filter isErrorf cleanup = []
        /\ within [Message; Closing; Stopping] cleanup)
  /\ (List.length (filter isErrorf (fst (Execute w d conf fargs))) <= 1)%nat.
Proof.
  pose proof (body_reported w d conf fargs) as R.
  pose proof (no_Errorf_in_deferred w (deferred (body w d conf fargs))) as N.
  assert (W : within [Message; Closing; Stopping]
                (fst (runDeferred w (deferred (body w d conf fargs)))))
    by auto with within.
  unfold Execute. rewrite fst_finish. unfold finish, status, reported in *.
  destruct (runDeferred w (deferred (body w d conf fargs))) as [devs x].
  cbn [fst snd] in *.
  split; [ | split ].
  - destruct x; [ discriminate | ].
    destruct (flow (body w d conf fargs)) as [u | [ | | ]];
      intros H; try discriminate H; now rewrite filter_app, R, N.
  - destruct x; [ discriminate | ].
    destruct (flow (body w d conf fargs)) as [u | [ | | ]];
      intros H; try discriminate H.
    destruct R as (evs & fmt & args & -> & Hn).
    exists evs, fmt, args, devs. rewrite <- app_assoc. now repeat split.
  - rewrite filter_app, N, app_nil_r.
    destruct (flow (body w d conf fargs)) as [u | [ | | ]].
    + rewrite R. simpl. lia.
    + rewrite R. simpl. lia.
    + destruct R as (evs & fmt & args & -> & Hn).
      rewrite filter_app, Hn. simpl. lia.
    + destruct R as (evs & -> & Hn).
      rewrite filter_app, Hn. simpl. lia.
Qed.

Lemma status_tells_the_error_report_witness :
  filter isErrorf (fst (Execute Sample.calm Sample.flags Sample.conf ["abc"])) = []
  /\ exists evs fmt args cleanup,
       fst (Execute Sample.noTraceFile
              (Sample.with_trace
                 (Sample.with_profileCPU Sample.flags "/tmp/cpu.out")
                 "/tmp/trace.out")
              Sample.conf ["abc"])
       = evs ++ EErrorf fmt args :: cleanup
       /\ filter isErrorf evs = []
       /\ filter isErrorf cleanup = []
       /\ within [Message; Closing; Stopping] cleanup.
Proof.
  split.
  - apply (proj1 (status_tells_the_error_report
                    Sample.calm Sample.flags Sample.conf ["abc"])).
    reflexivity.
  - apply (proj1 (proj2 (status_tells_the_error_report
                    Sample.noTraceFile
                    (Sample.with_trace
                       (Sample.with_profileCPU Sample.flags "/tmp/cpu.out")
                       "/tmp/trace.out")
                    Sample.conf ["abc"]))).
    reflexivity.
Defined.

(** ** The usage status *)

Lemma flow_bind_Return {A B} (m : M A) (k : A -> M B) s :
  flow (bind m k) = Return s ->
  flow m = Return s \/ exists a, flow m = Next a /\ flow (k a) = Return s.
Proof.
  unfold bind. destruct (flow m) as [a | s']; cbn; intros H.
  - right. exists a. split; [ reflexivity | exact H ].
  - left. now injection H as ->.
Qed.

(** A piece of the body that does not return the usage status. *)
Lemma noUsage_bind {A B} (m : M A) (k : A -> M B) :
  noUsage m -> (forall a, noUsage (k a)) -> noUsage (bind m k).
Proof.
  intros Hm Hk H. apply flow_bind_Return in H.
  destruct H as [H | (a & _ & H)]; [ now apply Hm | now apply (Hk a) ].
Qed.

Ltac block_noUsage :=
  intros; unfold noUsage;
  repeat (cbn; try break_branch);
  discriminate.

Section UsageStatus.

Variable w : World.
Variable d : Debug.
Variable conf : boot.Config.
Variable fargs : list string.

Lemma scan_noUsage ids : noUsage (scan w d conf ids).
Proof.
  induction ids as [ | id rest IH ]; [ discriminate | ].
  cbn [scan]. apply noUsage_bind; [ block_noUsage | ].
  intros [c | err]; [ | block_noUsage ].
  destruct (container.SandboxPid c =? pid d); [ discriminate | exact IH ].
Qed.

Lemma changeLogging_noUsage sb : noUsage (changeLogging w d sb).
Proof.
  unfold changeLogging. destruct (_ || _); [ | discriminate ].
  apply noUsage_bind; [ unfold straceArgs; block_noUsage | intros a1 ].
  apply noUsage_bind; [ unfold levelArgs; block_noUsage | intros a2 ].
  apply noUsage_bind; [ unfold logPacketsArgs; block_noUsage | intros a3 ].
  block_noUsage.
Qed.

Lemma after_resolve_noUsage c : noUsage (sb <- running c ;; actions w d sb).
Proof.
  apply noUsage_bind; [ unfold running; block_noUsage | intros sb ].
  unfold actions.
  apply noUsage_bind; [ unfold sendSignal; block_noUsage | intros _ ].
  apply noUsage_bind; [ unfold dumpStacks; block_noUsage | intros _ ].
  apply noUsage_bind; [ unfold heapProfile; block_noUsage | intros _ ].
  apply noUsage_bind; [ unfold cpuProfile; block_noUsage | intros d1 ].
  apply noUsage_bind; [ unfold traceSession; block_noUsage | intros d2 ].
  apply noUsage_bind; [ apply changeLogging_noUsage | intros _ ].
  apply noUsage_bind; [ unfold sleep; block_noUsage | intros _ ].
  discriminate.
Qed.

(** Resolution returns the usage status only for a wrong number of
    positional arguments. *)
Lemma resolve_usage_inv :
  flow (resolve w d conf fargs) = Return ExitUsageError ->
  (pid d = 0 /\ List.length fargs <> 1%nat) \/
  (pid d <> 0 /\ List.length fargs <> 0%nat).
Proof.
  unfold resolve, NArg.
  destruct (Z.eqb_spec (pid d) 0) as [Hp | Hp].
  - destruct (Nat.eqb_spec (List.length fargs) 1) as [Hn | Hn]; cbn [negb].
    + intros H. exfalso. revert H. cbn. now break_branch.
    + intros _. left. now split.
  - destruct (Nat.eqb_spec (List.length fargs) 0) as [Hn | Hn]; cbn [negb].
    + intros H. exfalso.
      apply flow_bind_Return in H. destruct H as [H | (r & _ & H)];
        [ discriminate H | ].
      destruct r as [ids | err]; [ | discriminate H ].
      apply flow_bind_Return in H. destruct H as [H | (c & _ & H)].
      * now apply (scan_noUsage ids).
      * destruct c; discriminate H.
    + intros _. right. now split.
Qed.

Lemma resolve_usage :
  (pid d = 0 /\ List.length fargs <> 1%nat) \/
  (pid d <> 0 /\ List.length fargs <> 0%nat) ->
  resolve w d conf fargs = mkRun [EUsage] [] (Return ExitUsageError).
Proof.
  intros H. unfold resolve, NArg.
  destruct H as [[Hp Hn] | [Hp Hn]].
  - rewrite Hp; simpl. apply Nat.eqb_neq in Hn. now rewrite Hn.
  - apply Z.eqb_neq in Hp. rewrite Hp.
    apply Nat.eqb_neq in Hn. now rewrite Hn.
Qed.

End UsageStatus.

(** X4: the usage status is returned for a wrong number of positional
    arguments and for nothing else: every other way the command returns
    gives success or failure. *)
Theorem usage_status_only_for_argument_count w d conf fargs :
  snd (Execute w d conf fargs) = Exited ExitUsageError <->
  (pid d = 0 /\ List.length fargs <> 1%nat) \/
  (pid d <> 0 /\ List.length fargs <> 0%nat).
Proof.
  split.
  - unfold Execute, finish, status.
    destruct (runDeferred w (deferred (body w d conf fargs))) as [devs [ | ]];
      cbn [snd]; [ discriminate | ].
    destruct (flow (body w d conf fargs)) as [u | s] eqn:F;
      intros H; try discriminate H.
    injection H as ->.
    rewrite body_after_resolve in F.
    apply flow_bind_Return in F. destruct F as [F | (c & _ & F)].
    + now apply (resolve_usage_inv w d conf fargs).
    + now elim (after_resolve_noUsage w d c).
  - intros H. unfold Execute. rewrite body_after_resolve.
    now rewrite (bind_Return _ _ _ _ _ (resolve_usage w d conf fargs H)).
Qed.

Lemma usage_status_only_for_argument_count_witness :
  snd (Execute Sample.calm Sample.flags Sample.conf []) = Exited ExitUsageError
  /\ ((pid Sample.flags = 0 /\ List.length ["abc"; "x"] <> 1%nat) \/
      (pid Sample.flags <> 0 /\ List.length ["abc"; "x"] <> 0%nat)).
Proof.
  split.
  - apply (proj2 (usage_status_only_for_argument_count
                    Sample.calm Sample.flags Sample.conf [])).
    left. split; [ reflexivity | simpl; lia ].
  - apply (proj1 (usage_status_only_for_argument_count
                    Sample.calm Sample.flags Sample.conf ["abc"; "x"])).
    reflexivity.
Defined.

(** ** Resolution: the registry fails, the sandbox does not run *)

Lemma resolve_deferred w d conf fargs : deferred (resolve w d conf fargs) = [].
Proof.
  pose proof (target_deferred w d conf fargs) as T.
  unfold target in T. rewrite deferred_bind in T.
  now apply app_eq_nil in T.
Qed.

(** With a container ID, resolution is one load. *)
Lemma resolve_by_id w d conf id :
  pid d = 0 ->
  resolve w d conf [id] =
  (r <- call (ELoad (boot.RootDir conf) id)
             (container_Load w (boot.RootDir conf) id) ;;
   match r with
   | Err err => return! Errorf "loading container %q: %v" [AStr id; AErr err]
   | Ok c => pure c
   end).
Proof. intros Hp. unfold resolve. now rewrite Hp. Qed.

(** X5: a failure of the registry ends the command at once.  With a
    container ID, a container that does not load gives the failure status
    after the one load and its error report; with a PID, a listing that
    fails gives the failure status without any container being loaded.
    With a container ID that loads, that load is the only load of the
    invocation and the registry is not listed. *)
Theorem registry_failure_ends_the_command w d conf :
  (forall id err,
      pid d = 0 ->
      container_Load w (boot.RootDir conf) id = Err err ->
      Execute w d conf [id] =
        ([ELoad (boot.RootDir conf) id;
          EErrorf "loading container %q: %v" [AStr id; AErr err]],
         Exited ExitFailure))
  /\ (forall err,
      pid d <> 0 ->
      container_List w (boot.RootDir conf) = Err err ->
      Execute w d conf [] =
        ([EList (boot.RootDir conf);
          EErrorf "listing containers: %v" [AErr err]],
         Exited ExitFailure))
  /\ (forall id c,
      pid d = 0 ->
      container_Load w (boot.RootDir conf) id = Ok c ->
      resolve w d conf [id] = mkRun [ELoad (boot.RootDir conf) id] [] (Next c)
      /\ filter (fun e => match step e with Resolving => true | _ => false end)
                (fst (Execute w d conf [id]))
         = [ELoad (boot.RootDir conf) id]).
Proof.
  split; [ | split ].
  - intros id err Hp Hl. unfold Execute. rewrite body_after_resolve.
    rewrite (resolve_by_id _ _ _ _ Hp). cbn. now rewrite Hl.
  - intros err Hp Hl. unfold Execute. rewrite body_after_resolve.
    unfold resolve. apply Z.eqb_neq in Hp. rewrite Hp. cbn. now rewrite Hl.
  - intros id c Hp Hl.
    assert (R : resolve w d conf [id] =
                mkRun [ELoad (boot.RootDir conf) id] [] (Next c)).
    { rewrite (resolve_by_id _ _ _ _ Hp). cbn. now rewrite Hl. }
    split; [ exact R | ].
    unfold Execute. rewrite fst_finish, body_after_resolve.
    rewrite (bind_Next _ _ _ _ _ R). cbn [events deferred].
    rewrite !filter_app. cbn [filter step app].
    rewrite (within_filter
               [Message; Signalling; DumpingStacks; Opening; HeapProfiling;
                Starting; Logging; Sleeping] _
               (events (sb <- running c ;; actions w d sb))).
    + rewrite (within_filter [Message; Closing; Stopping] _ (fst _)).
      * reflexivity.
      * auto with within.
      * intros e E. destruct (step e); try discriminate E;
          simpl; intuition discriminate.
    + unfold actions. sequence_within.
    + intros e E. destruct (step e); try discriminate E;
        simpl; intuition discriminate.
Qed.

Lemma registry_failure_ends_the_command_witness :
  Execute Sample.calm Sample.flags Sample.conf ["z"]
  = ([ELoad "/var/run/runsc" "z";
      EErrorf "loading container %q: %v" [AStr "z"; AErr "no such file"]],
     Exited ExitFailure)
  /\ Execute Sample2.noRegistry (Sample.with_pid Sample.flags 42) Sample.conf []
     = ([EList "/var/run/runsc";
         EErrorf "listing containers: %v" [AErr "permission denied"]],
        Exited ExitFailure)
  /\ filter (fun e => match step e with Resolving => true | _ => false end)
            (fst (Execute Sample.calm (Sample.with_signal Sample.flags 9)
                    Sample.conf ["abc"]))
     = [ELoad "/var/run/runsc" "abc"].
Proof.
  split; [ | split ].
  - apply (proj1 (registry_failure_ends_the_command
                    Sample.calm Sample.flags Sample.conf));
      reflexivity.
  - apply (proj1 (proj2 (registry_failure_ends_the_command
                    Sample2.noRegistry (Sample.with_pid Sample.flags 42)
                    Sample.conf))).
    + simpl. lia.
    + reflexivity.
  - apply (proj2 (proj2 (registry_failure_ends_the_command
                    Sample.calm (Sample.with_signal Sample.flags 9)
                    Sample.conf)) "abc" Sample.abc);
      reflexivity.
Defined.

(** X6: the actions need a running sandbox.  When the resolved container
    has no sandbox, or a sandbox that does not run, the command reports it
    and returns the failure status without attempting any action; when the
    sandbox runs, the command logs it and goes on with that sandbox. *)
Theorem sandbox_not_running_stops_the_command w d conf fargs evs dfs c :
  resolve w d conf fargs = mkRun evs dfs (Next c) ->
  (container.Sandbox c = None
   \/ (exists sb, container.Sandbox c = Some sb /\ sandbox.IsRunning sb = false) ->
   Execute w d conf fargs =
     (evs ++ [EErrorf "container sandbox is not running" []],
      Exited ExitFailure))
  /\ (forall sb,
        container.Sandbox c = Some sb -> sandbox.IsRunning sb = true ->
        target w d conf fargs =
          mkRun (evs ++ [EInfof "Found sandbox %q, PID: %d"
                           [AStr (sandbox.ID sb); AInt (sandbox.Pid sb)]])
                [] (Next sb)).
Proof.
  intros R.
  assert (Hd : dfs = []).
  { pose proof (resolve_deferred w d conf fargs) as T. now rewrite R in T. }
  subst dfs. split.
  - intros H. unfold Execute. rewrite body_after_resolve.
    rewrite (bind_Next _ _ _ _ _ R).
    assert (E : running c =
                mkRun [EErrorf "container sandbox is not running" []] []
                      (Return ExitFailure)).
    { unfold running. destruct H as [-> | (sb & -> & ->)]; reflexivity. }
    rewrite (bind_Return _ _ _ _ _ E). unfold finish. cbn.
    now rewrite app_nil_r.
  - intros sb Hs Hr. unfold target. rewrite (bind_Next _ _ _ _ _ R).
    unfold running. rewrite Hs, Hr. reflexivity.
Qed.

Lemma sandbox_not_running_stops_the_command_witness :
  Execute Sample.calm (Sample.with_signal Sample.flags 9) Sample.conf ["x"]
  = ([ELoad "/var/run/runsc" "x";
      EErrorf "container sandbox is not running" []],
     Exited ExitFailure)
  /\ target Sample.calm Sample.flags Sample.conf ["abc"]
     = mkRun [ELoad "/var/run/runsc" "abc";
              EInfof "Found sandbox %q, PID: %d" [AStr "abc"; AInt 42]]
             [] (Next Sample.sb).
Proof.
  split.
  - apply (proj1 (sandbox_not_running_stops_the_command
                    Sample.calm (Sample.with_signal Sample.flags 9)
                    Sample.conf ["x"] _ _ Sample.stopped eq_refl)).
    left. reflexivity.
  - apply (proj2 (sandbox_not_running_stops_the_command
                    Sample.calm Sample.flags Sample.conf ["abc"]
                    _ _ Sample.abc eq_refl) Sample.sb);
      reflexivity.
Defined.

(** ** The stack dump and the heap profile *)

Section EarlyStages.

Variable w : World.
Variable d : Debug.
Variable conf : boot.Config.
Variable fargs : list string.

Lemma body_after_sendSignal :
  body w d conf fargs =
  (sb <- beforeStacks w d conf fargs ;;
   dumpStacks w d sb ;;
   heapProfile w d sb ;;
   delay <- cpuProfile w d sb false ;;
   delay <- traceSession w d sb delay ;;
   changeLogging w d sb ;;
   sleep d delay ;;
   return_ ExitSuccess).
Proof.
  rewrite body_after_target. unfold beforeStacks, actions.
  rewrite bind_assoc. apply bind_ext; intros sb.
  rewrite bind_assoc. apply bind_ext; intros _.
  now rewrite bind_pure_l.
Qed.

Lemma body_after_dumpStacks :
  body w d conf fargs =
  (sb <- beforeHeapProfile w d conf fargs ;;
   heapProfile w d sb ;;
   delay <- cpuProfile w d sb false ;;
   delay <- traceSession w d sb delay ;;
   changeLogging w d sb ;;
   sleep d delay ;;
   return_ ExitSuccess).
Proof.
  rewrite body_after_sendSignal. unfold beforeHeapProfile.
  rewrite bind_assoc. apply bind_ext; intros sb.
  rewrite bind_assoc. apply bind_ext; intros _.
  now rewrite bind_pure_l.
Qed.

Lemma beforeCPUProfile_after_dumpStacks :
  beforeCPUProfile w d conf fargs =
  (sb <- beforeHeapProfile w d conf fargs ;;
   heapProfile w d sb ;;
   pure sb).
Proof.
  unfold beforeCPUProfile, beforeHeapProfile, beforeStacks.
  rewrite !bind_assoc. apply bind_ext; intros sb.
  rewrite !bind_assoc. apply bind_ext; intros _.
  rewrite bind_pure_l.
  rewrite !bind_assoc. apply bind_ext; intros _.
  now rewrite bind_pure_l.
Qed.

Lemma beforeHeapProfile_after_sendSignal :
  beforeHeapProfile w d conf fargs =
  (sb <- beforeStacks w d conf fargs ;;
   dumpStacks w d sb ;;
   pure sb).
Proof. reflexivity. Qed.

Lemma sendSignal_deferred sb : deferred (sendSignal w d sb) = [].
Proof. unfold sendSignal. repeat (cbn; try break_match); reflexivity. Qed.

Lemma dumpStacks_deferred sb : deferred (dumpStacks w d sb) = [].
Proof. unfold dumpStacks. repeat (cbn; try break_match); reflexivity. Qed.

Lemma beforeStacks_deferred : deferred (beforeStacks w d conf fargs) = [].
Proof.
  unfold beforeStacks. rewrite deferred_bind, target_deferred, app_nil_r.
  destruct (flow (target w d conf fargs)) as [sb | s]; [ | reflexivity ].
  rewrite deferred_bind, sendSignal_deferred, app_nil_r.
  now destruct (flow (sendSignal w d sb)).
Qed.

Lemma beforeHeapProfile_deferred :
  deferred (beforeHeapProfile w d conf fargs) = [].
Proof.
  unfold beforeHeapProfile.
  rewrite deferred_bind, beforeStacks_deferred, app_nil_r.
  destruct (flow (beforeStacks w d conf fargs)) as [sb | s]; [ | reflexivity ].
  rewrite deferred_bind, dumpStacks_deferred, app_nil_r.
  now destruct (flow (dumpStacks w d sb)).
Qed.

Lemma beforeStacks_within :
  within [Message; Resolving; Signalling] (events (beforeStacks w d conf fargs)).
Proof. unfold beforeStacks, target. sequence_within. Qed.

End EarlyStages.

Lemma no_stacks_before_stacks w d conf fargs :
  filter isStacks (events (beforeStacks w d conf fargs)) = [].
Proof.
  apply within_filter with (1 := beforeStacks_within w d conf fargs).
  intros [] E; try discriminate E; simpl; intuition discriminate.
Qed.

Lemma no_stacks_after_stacks w d sb :
  filter isStacks
    (events (heapProfile w d sb ;;
             delay <- cpuProfile w d sb false ;;
             delay <- traceSession w d sb delay ;;
             changeLogging w d sb ;;
             sleep d delay ;;
             @return_ unit ExitSuccess)) = [].
Proof.
  apply within_filter with
    (steps := [Message; Opening; HeapProfiling; Starting; Logging; Sleeping]).
  - sequence_within.
  - intros [] E; try discriminate E; simpl; intuition discriminate.
Qed.

Lemma no_stacks_in_deferred w stack :
  filter isStacks (fst (runDeferred w stack)) = [].
Proof.
  apply within_filter with (steps := [Message; Closing; Stopping]).
  - auto with within.
  - intros [] E; try discriminate E; simpl; intuition discriminate.
Qed.

Lemma dumpStacks_asked w d sb :
  stacks d = true ->
  dumpStacks w d sb =
  mkRun
    ([EInfof "Retrieving sandbox stacks" []; EStacks sb]
     ++ match Stacks w sb with
        | Ok text => [EInfof "     *** Stack dump ***\n%s" [AStr text]]
        | Err err => [EErrorf "retrieving stacks: %v" [AErr err]]
        end)
    []
    (match Stacks w sb with
     | Ok _ => Next tt
     | Err _ => Return ExitFailure
     end).
Proof.
  intros H. unfold dumpStacks. rewrite H. cbn. now destruct (Stacks w sb).
Qed.

(** X7: the stacks are retrieved only when asked for, and then exactly
    once, from the resolved sandbox, after the signal step.  A retrieval
    that fails ends the command with the failure status and the error;
    one that succeeds is written to the log and the command goes on. *)
Theorem stacks_retrieved_once_when_asked w d conf fargs :
  (stacks d = false -> filter isStacks (fst (Execute w d conf fargs)) = [])
  /\ (stacks d = true ->
      forall evs dfs sb,
        beforeStacks w d conf fargs = mkRun evs dfs (Next sb) ->
        filter isStacks (fst (Execute w d conf fargs)) = [EStacks sb]
        /\ (forall err,
              Stacks w sb = Err err ->
              Execute w d conf fargs =
                (evs ++ [EInfof "Retrieving sandbox stacks" [];
                         EStacks sb;
                         EErrorf "retrieving stacks: %v" [AErr err]],
                 Exited ExitFailure))
        /\ (forall text,
              Stacks w sb = Ok text ->
              beforeHeapProfile w d conf fargs =
                mkRun (evs ++ [EInfof "Retrieving sandbox stacks" [];
                               EStacks sb;
                               EInfof "     *** Stack dump ***\n%s" [AStr text]])
                      [] (Next sb))).
Proof.
  split.
  - intros Hs. unfold Execute.
    rewrite fst_finish, body_after_sendSignal.
    rewrite filter_app, no_stacks_in_deferred, app_nil_r.
    rewrite events_bind, filter_app, no_stacks_before_stacks.
    destruct (flow (beforeStacks w d conf fargs)) as [sb | s]; [ | reflexivity ].
    assert (E : dumpStacks w d sb = pure tt)
      by (unfold dumpStacks; now rewrite Hs).
    rewrite E, bind_pure_l. apply no_stacks_after_stacks.
  - intros Hs evs dfs sb Hb.
    assert (Hd : dfs = []).
    { pose proof (beforeStacks_deferred w d conf fargs) as T.
      now rewrite Hb in T. }
    subst dfs.
    assert (He : filter isStacks evs = []).
    { pose proof (no_stacks_before_stacks w d conf fargs) as T.
      now rewrite Hb in T. }
    split; [ | split ].
    + unfold Execute. rewrite fst_finish, body_after_sendSignal.
      rewrite filter_app, no_stacks_in_deferred, app_nil_r.
      rewrite (bind_Next _ _ _ _ _ Hb). cbn [events].
      rewrite filter_app, He.
      rewrite events_bind, filter_app, (dumpStacks_asked _ _ _ Hs).
      cbn [events flow].
      destruct (Stacks w sb) as [text | err].
      * cbn. now rewrite no_stacks_after_stacks.
      * reflexivity.
    + intros err Hk.
      unfold Execute. rewrite body_after_sendSignal.
      rewrite (bind_Next _ _ _ _ _ Hb).
      rewrite (dumpStacks_asked _ _ _ Hs), Hk.
      unfold finish. cbn. now rewrite app_nil_r.
    + intros text Hk.
      rewrite beforeHeapProfile_after_sendSignal.
      rewrite (bind_Next _ _ _ _ _ Hb).
      rewrite (dumpStacks_asked _ _ _ Hs), Hk. reflexivity.
Qed.

Lemma stacks_retrieved_once_when_asked_witness :
  filter isStacks (fst (Execute Sample.calm Sample.flags Sample.conf ["abc"])) = []
  /\ filter isStacks
       (fst (Execute Sample.calm (set_stacks Sample.flags true)
               Sample.conf ["abc"]))
     = [EStacks Sample.sb]
  /\ Execute Sample2.noStacks (set_stacks Sample.flags true) Sample.conf ["abc"]
     = ([ELoad "/var/run/runsc" "abc";
         EInfof "Found sandbox %q, PID: %d" [AStr "abc"; AInt 42];
         EInfof "Retrieving sandbox stacks" [];
         EStacks Sample.sb;
         EErrorf "retrieving stacks: %v" [AErr "stacks unavailable"]],
        Exited ExitFailure).
Proof.
  split; [ | split ].
  - apply (proj1 (stacks_retrieved_once_when_asked
                    Sample.calm Sample.flags Sample.conf ["abc"])).
    reflexivity.
  - apply (proj1 (proj2 (stacks_retrieved_once_when_asked
                    Sample.calm (set_stacks Sample.flags true)
                    Sample.conf ["abc"]) eq_refl _ _ Sample.sb eq_refl)).
  - apply (proj1 (proj2 (proj2 (stacks_retrieved_once_when_asked
                    Sample2.noStacks (set_stacks Sample.flags true)
                    Sample.conf ["abc"]) eq_refl _ _ Sample.sb eq_refl))
             "stacks unavailable").
    reflexivity.
Defined.

Lemma heapProfile_written w d sb f :
  profileHeap d <> "" ->
  os_Create w (profileHeap d) = Ok f ->
  heapProfile w d sb =
  mkRun
    ([ECreate (profileHeap d); EHeapProfile sb f]
     ++ match HeapProfile w sb f with
        | Some err => [EErrorf err []]
        | None => [EInfof "Heap profile written to %q" [AStr (profileHeap d)]]
        end)
    [DeferClose f]
    (match HeapProfile w sb f with
     | Some _ => Return ExitFailure
     | None => Next tt
     end).
Proof.
  intros Hp Hc. unfold heapProfile.
  apply String.eqb_neq in Hp. rewrite Hp. cbn. rewrite Hc. cbn.
  now destruct (HeapProfile w sb f).
Qed.

Lemma runDeferred_last_close w stack f :
  snd (runDeferred w (stack ++ [DeferClose f])) = false ->
  exists pre, fst (runDeferred w (stack ++ [DeferClose f])) = pre ++ [EClose f].
Proof.
  rewrite runDeferred_app.
  destruct (runDeferred w stack) as [e1 [ | ]]; cbn; [ discriminate | ].
  intros _. now exists e1.
Qed.

(** X8: the heap profile.  When its destination cannot be created the
    command fails without asking the sandbox for the profile and without
    closing anything.  When the sandbox fails to write the profile the
    command fails and the destination is closed.  When the profile is
    written the command goes on with the close of the destination deferred,
    and if the command returns at all that close is its very last event:
    the heap file stays open through the later steps and the delay. *)
Theorem heap_profile_destination_is_closed_last w d conf fargs evs dfs sb :
  beforeHeapProfile w d conf fargs = mkRun evs dfs (Next sb) ->
  profileHeap d <> "" ->
  (forall err,
      os_Create w (profileHeap d) = Err err ->
      Execute w d conf fargs =
        (evs ++ [ECreate (profileHeap d); EErrorf err []], Exited ExitFailure))
  /\ (forall f,
      os_Create w (profileHeap d) = Ok f ->
      (forall err,
          HeapProfile w sb f = Some err ->
          Execute w d conf fargs =
            (evs ++ [ECreate (profileHeap d); EHeapProfile sb f;
                     EErrorf err []; EClose f],
             Exited ExitFailure))
      /\ (HeapProfile w sb f = None ->
          beforeCPUProfile w d conf fargs =
            mkRun (evs ++ [ECreate (profileHeap d); EHeapProfile sb f;
                           EInfof "Heap profile written to %q"
                             [AStr (profileHeap d)]])
                  [DeferClose f] (Next sb)
          /\ (forall s,
                snd (Execute w d conf fargs) = Exited s ->
                exists pre, fst (Execute w d conf fargs) = pre ++ [EClose f]))).
Proof.
  intros Hb Hp.
  assert (Hd : dfs = []).
  { pose proof (beforeHeapProfile_deferred w d conf fargs) as T.
    now rewrite Hb in T. }
  subst dfs. split.
  - intros err Hc. unfold Execute. rewrite body_after_dumpStacks.
    rewrite (bind_Next _ _ _ _ _ Hb).
    unfold heapProfile. apply String.eqb_neq in Hp. rewrite Hp. cbn.
    rewrite Hc. unfold finish. cbn. now rewrite app_nil_r.
  - intros f Hc. split.
    + intros err Hh. unfold Execute. rewrite body_after_dumpStacks.
      rewrite (bind_Next _ _ _ _ _ Hb).
      rewrite (heapProfile_written _ _ _ _ Hp Hc), Hh.
      unfold finish. cbn. now rewrite <- app_assoc.
    + intros Hh.
      assert (B : beforeCPUProfile w d conf fargs =
                  mkRun (evs ++ [ECreate (profileHeap d); EHeapProfile sb f;
                                 EInfof "Heap profile written to %q"
                                   [AStr (profileHeap d)]])
                        [DeferClose f] (Next sb)).
      { rewrite beforeCPUProfile_after_dumpStacks.
        rewrite (bind_Next _ _ _ _ _ Hb).
        rewrite (heapProfile_written _ _ _ _ Hp Hc), Hh. reflexivity. }
      split; [ exact B | ].
      intros s. unfold Execute. rewrite body_after_heapProfile.
      rewrite (bind_Next _ _ _ _ _ B).
      unfold finish. cbn [events deferred].
      pose proof (runDeferred_last_close w
                    (deferred (delay <- cpuProfile w d sb false ;;
                               delay <- traceSession w d sb delay ;;
                               changeLogging w d sb ;;
                               sleep d delay ;;
                               @return_ unit ExitSuccess)) f) as L.
      destruct (runDeferred w (_ ++ [DeferClose f])) as [devs [ | ]];
        cbn [fst snd] in *; [ discriminate | ].
      intros _. destruct (L eq_refl) as (pre & ->).
      eexists. now rewrite !app_assoc.
Qed.

Lemma heap_profile_destination_is_closed_last_witness :
  Execute Sample2.noHeapProfile (set_profileHeap Sample.flags "/root/heap.out")
    Sample.conf ["abc"]
  = ([ELoad "/var/run/runsc" "abc";
      EInfof "Found sandbox %q, PID: %d" [AStr "abc"; AInt 42];
      ECreate "/root/heap.out"; EErrorf "permission denied" []],
     Exited ExitFailure)
  /\ Execute Sample2.noHeapProfile (set_profileHeap Sample.flags "/tmp/heap.out")
       Sample.conf ["abc"]
     = ([ELoad "/var/run/runsc" "abc";
         EInfof "Found sandbox %q, PID: %d" [AStr "abc"; AInt 42];
         ECreate "/tmp/heap.out";
         EHeapProfile Sample.sb (Sample.file "/tmp/heap.out");
         EErrorf "heap profile failed" [];
         EClose (Sample.file "/tmp/heap.out")],
        Exited ExitFailure)
  /\ exists pre,
       fst (Execute Sample.calm
              (set_profileHeap
                 (Sample.with_profileCPU Sample.flags "/tmp/cpu.out")
                 "/tmp/heap.out")
              Sample.conf ["abc"])
       = pre ++ [EClose (Sample.file "/tmp/heap.out")].
Proof.
  split; [ | split ].
  - apply (proj1 (heap_profile_destination_is_closed_last
                    Sample2.noHeapProfile
                    (set_profileHeap Sample.flags "/root/heap.out")
                    Sample.conf ["abc"] _ _ Sample.sb eq_refl
                    ltac:(simpl; discriminate))).
    reflexivity.
  - apply (proj1 (proj2 (heap_profile_destination_is_closed_last
                    Sample2.noHeapProfile
                    (set_profileHeap Sample.flags "/tmp/heap.out")
                    Sample.conf ["abc"] _ _ Sample.sb eq_refl
                    ltac:(simpl; discriminate))
                  (Sample.file "/tmp/heap.out") eq_refl)).
    reflexivity.
  - apply (proj2 (proj2 (proj2 (heap_profile_destination_is_closed_last
                    Sample.calm
                    (set_profileHeap
                       (Sample.with_profileCPU Sample.flags "/tmp/cpu.out")
                       "/tmp/heap.out")
                    Sample.conf ["abc"] _ _ Sample.sb eq_refl
                    ltac:(simpl; discriminate))
                  (Sample.file "/tmp/heap.out") eq_refl) eq_refl)
             ExitSuccess).
    reflexivity.
Defined.

(** ** The files: created, then closed *)

Lemma closed_app l1 l2 : closed (l1 ++ l2) = closed l1 ++ closed l2.
Proof.
  induction l1 as [ | e l1 IH ]; [ reflexivity | ].
  destruct e; cbn; rewrite ?IH; reflexivity.
Qed.

Lemma created_app w l1 l2 : created w (l1 ++ l2) = created w l1 ++ created w l2.
Proof.
  induction l1 as [ | e l1 IH ]; [ reflexivity | ].
  destruct e; cbn; rewrite ?IH; try reflexivity.
  now destruct (os_Create w path).
Qed.

Lemma accounted_bind {A B} w (m : M A) (k : A -> M B) :
  accounted w m -> (forall a, accounted w (k a)) -> accounted w (bind m k).
Proof.
  intros [Hc Hd] Hk. unfold accounted.
  rewrite events_bind, deferred_bind, closed_app, created_app, Hc.
  rewrite map_app, rev_app_distr, Hd.
  destruct (flow m) as [a | s].
  - destruct (Hk a) as [Kc Kd]. now rewrite Kc, Kd.
  - cbn. rewrite ?app_nil_r. now split.
Qed.

(** For a block without a loop: follow every branch; the file a branch has
    created is the file [created] finds. *)
Ltac block_accounted :=
  intros; unfold accounted;
  repeat (cbn;
          repeat match goal with
                 | H : ?x = _ |- context [match ?x with _ => _ end] => rewrite H
                 end;
          try break_branch);
  split; reflexivity.

Section Accounted.

Variable w : World.
Variable d : Debug.
Variable conf : boot.Config.
Variable fargs : list string.

Lemma scan_accounted ids : accounted w (scan w d conf ids).
Proof.
  induction ids as [ | id rest IH ]; [ now split | ].
  cbn [scan]. apply accounted_bind; [ block_accounted | ].
  intros [c | err]; [ | block_accounted ].
  destruct (container.SandboxPid c =? pid d); [ now split | exact IH ].
Qed.

Lemma resolve_accounted : accounted w (resolve w d conf fargs).
Proof.
  unfold resolve. destruct (pid d =? 0); [ block_accounted | ].
  destruct (negb _); [ block_accounted | ].
  apply accounted_bind; [ block_accounted | ].
  intros [ids | err]; [ | block_accounted ].
  apply accounted_bind; [ apply scan_accounted | ].
  intros [c | ]; block_accounted.
Qed.

Lemma changeLogging_accounted sb : accounted w (changeLogging w d sb).
Proof.
  unfold changeLogging. destruct (_ || _); [ | now split ].
  apply accounted_bind; [ unfold straceArgs; block_accounted | intros a1 ].
  apply accounted_bind; [ unfold levelArgs; block_accounted | intros a2 ].
  apply accounted_bind; [ unfold logPacketsArgs; block_accounted | intros a3 ].
  block_accounted.
Qed.

Lemma body_accounted : accounted w (body w d conf fargs).
Proof.
  unfold body.
  apply accounted_bind; [ apply resolve_accounted | intros c ].
  apply accounted_bind; [ unfold running; block_accounted | intros sb ].
  apply accounted_bind; [ unfold sendSignal; block_accounted | intros _ ].
  apply accounted_bind; [ unfold dumpStacks; block_accounted | intros _ ].
  apply accounted_bind; [ unfold heapProfile; block_accounted | intros _ ].
  apply accounted_bind; [ unfold cpuProfile; block_accounted | intros d1 ].
  apply accounted_bind; [ unfold traceSession; block_accounted | intros d2 ].
  apply accounted_bind; [ apply changeLogging_accounted | intros _ ].
  apply accounted_bind; [ unfold sleep; block_accounted | intros _ ].
  now split.
Qed.

End Accounted.

(** The closures that run close their files in the order of the stack; a
    closure that ends the process has closed its file before. *)
Lemma closed_runDeferred w stack :
  exists n,
    closed (fst (runDeferred w stack)) = firstn n (map closes stack)
    /\ (snd (runDeferred w stack) = false -> n = List.length stack).
Proof.
  induction stack as [ | c rest (n & IH & IHn) ].
  - exists O. now split.
  - cbn [runDeferred].
    destruct c as [ g | sb f p | sb f p ]; cbn [runClosure].
    + destruct (runDeferred w rest) as [evs x]. cbn [fst snd] in *.
      exists (S n). cbn. rewrite IH. split; [ reflexivity | ].
      intros H. now rewrite (IHn H).
    + destruct (StopCPUProfile w sb).
      * exists 1%nat. cbn. split; [ reflexivity | discriminate ].
      * destruct (runDeferred w rest) as [evs x]. cbn [fst snd] in *.
        exists (S n). cbn. rewrite IH. split; [ reflexivity | ].
        intros H. now rewrite (IHn H).
    + destruct (StopTrace w sb).
      * exists 1%nat. cbn. split; [ reflexivity | discriminate ].
      * destruct (runDeferred w rest) as [evs x]. cbn [fst snd] in *.
        exists (S n). cbn. rewrite IH. split; [ reflexivity | ].
        intros H. now rewrite (IHn H).
Qed.

Lemma no_create_in_deferred w stack : created w (fst (runDeferred w stack)) = [].
Proof.
  assert (H : within [Message; Closing; Stopping] (fst (runDeferred w stack)))
    by auto with within.
  induction H as [ | e evs He _ IH ]; [ reflexivity | ].
  destruct e; cbn; try exact IH. simpl in He. intuition discriminate.
Qed.

(** X9: the command closes exactly the files it has created.  Nothing is
    closed before the body has returned; when the command returns a status,
    the files closed are the files [os.Create] has given, each once, the
    last created first; when the process is terminated by a failed stop,
    the files closed are the first of these, up to the file of the session
    whose stop failed. *)
Theorem files_closed_are_the_files_created w d conf fargs :
  closed (events (body w d conf fargs)) = []
  /\ (forall s,
        snd (Execute w d conf fargs) = Exited s ->
        closed (fst (Execute w d conf fargs)) =
          rev (created w (fst (Execute w d conf fargs))))
  /\ (exists n,
        closed (fst (Execute w d conf fargs)) =
          firstn n (rev (created w (fst (Execute w d conf fargs))))).
Proof.
  destruct (body_accounted w d conf fargs) as [Hc Hd].
  destruct (closed_runDeferred w (deferred (body w d conf fargs)))
    as (n & Hn & Hlen).
  assert (E : closed (fst (Execute w d conf fargs)) =
              firstn n (rev (created w (fst (Execute w d conf fargs))))).
  { unfold Execute. rewrite fst_finish, closed_app, created_app.
    now rewrite Hc, no_create_in_deferred, app_nil_r, Hn, Hd. }
  split; [ exact Hc | split ].
  - intros s Hs. rewrite E.
    assert (X : snd (runDeferred w (deferred (body w d conf fargs))) = false).
    { unfold Execute, finish in Hs.
      destruct (runDeferred w (deferred (body w d conf fargs))) as [devs [ | ]];
        [ discriminate Hs | reflexivity ]. }
    rewrite (Hlen X).
    unfold Execute. rewrite fst_finish, created_app, no_create_in_deferred.
    rewrite app_nil_r, <- Hd, <- (length_map closes). apply firstn_all.
  - now exists n.
Qed.

Lemma files_closed_are_the_files_created_witness :
  closed
    (fst (Execute Sample.calm
            (set_profileHeap
               (Sample.with_trace
                  (Sample.with_profileCPU Sample.flags "/tmp/cpu.out")
                  "/tmp/trace.out")
               "/tmp/heap.out")
            Sample.conf ["abc"]))
  = rev [Sample.file "/tmp/heap.out"; Sample.file "/tmp/cpu.out";
         Sample.file "/tmp/trace.out"].
Proof.
  apply (proj1 (proj2 (files_closed_are_the_files_created
                  Sample.calm
                  (set_profileHeap
                     (Sample.with_trace
                        (Sample.with_profileCPU Sample.flags "/tmp/cpu.out")
                        "/tmp/trace.out")
                     "/tmp/heap.out")
                  Sample.conf ["abc"])) ExitSuccess).
  reflexivity.
Defined.

(** ** Sessions: started, then stopped *)

Lemma stopsDeferred_bind {A B} (m : M A) (k : A -> M B) :
  stopsDeferred m -> (forall a, stopsDeferred (k a)) -> stopsDeferred (bind m k).
Proof.
  intros Hm Hk sb f. rewrite events_bind, deferred_bind.
  destruct (Hm sb f) as [Hc Ht].
  destruct (flow m) as [a | s].
  - destruct (Hk a sb f) as [Kc Kt].
    split; intros H; apply in_app_or in H; destruct H as [H | H].
    + destruct (Hc H) as (p & Hp). exists p. apply in_or_app. now right.
    + destruct (Kc H) as (p & Hp). exists p. apply in_or_app. now left.
    + destruct (Ht H) as (p & Hp). exists p. apply in_or_app. now right.
    + destruct (Kt H) as (p & Hp). exists p. apply in_or_app. now left.
  - rewrite app_nil_r. cbn [app]. now split.
Qed.

(** For a block without a loop: follow every branch; a start request in the
    events of a branch has its closure in what the branch has deferred. *)
Ltac block_stopsDeferred :=
  intros; unfold stopsDeferred; intros ? ?;
  repeat (cbn; try break_branch);
  split; intros Hin; simpl in Hin;
  repeat match goal with
         | H : _ \/ _ |- _ => destruct H
         | H : False |- _ => destruct H
         | H : @eq Event _ _ |- _ =>
             first [ discriminate H | injection H as ? ?; subst ]
         end;
  eexists; simpl; eauto.

Section StopsDeferred.

Variable w : World.
Variable d : Debug.
Variable conf : boot.Config.
Variable fargs : list string.

Lemma scan_stopsDeferred ids : stopsDeferred (scan w d conf ids).
Proof.
  induction ids as [ | id rest IH ]; [ now split | ].
  cbn [scan]. apply stopsDeferred_bind; [ block_stopsDeferred | ].
  intros [c | err]; [ | block_stopsDeferred ].
  destruct (container.SandboxPid c =? pid d); [ now split | exact IH ].
Qed.

Lemma resolve_stopsDeferred : stopsDeferred (resolve w d conf fargs).
Proof.
  unfold resolve. destruct (pid d =? 0); [ block_stopsDeferred | ].
  destruct (negb _); [ block_stopsDeferred | ].
  apply stopsDeferred_bind; [ block_stopsDeferred | ].
  intros [ids | err]; [ | block_stopsDeferred ].
  apply stopsDeferred_bind; [ apply scan_stopsDeferred | ].
  intros [c | ]; block_stopsDeferred.
Qed.

Lemma changeLogging_stopsDeferred sb : stopsDeferred (changeLogging w d sb).
Proof.
  unfold changeLogging. destruct (_ || _); [ | now split ].
  apply stopsDeferred_bind; [ unfold straceArgs; block_stopsDeferred | intros a1 ].
  apply stopsDeferred_bind; [ unfold levelArgs; block_stopsDeferred | intros a2 ].
  apply stopsDeferred_bind; [ unfold logPacketsArgs; block_stopsDeferred | intros a3 ].
  block_stopsDeferred.
Qed.

Lemma body_stopsDeferred : stopsDeferred (body w d conf fargs).
Proof.
  unfold body.
  apply stopsDeferred_bind; [ apply resolve_stopsDeferred | intros c ].
  apply stopsDeferred_bind; [ unfold running; block_stopsDeferred | intros sb ].
  apply stopsDeferred_bind; [ unfold sendSignal; block_stopsDeferred | intros _ ].
  apply stopsDeferred_bind; [ unfold dumpStacks; block_stopsDeferred | intros _ ].
  apply stopsDeferred_bind; [ unfold heapProfile; block_stopsDeferred | intros _ ].
  apply stopsDeferred_bind; [ unfold cpuProfile; block_stopsDeferred | intros d1 ].
  apply stopsDeferred_bind; [ unfold traceSession; block_stopsDeferred | intros d2 ].
  apply stopsDeferred_bind; [ apply changeLogging_stopsDeferred | intros _ ].
  apply stopsDeferred_bind; [ unfold sleep; block_stopsDeferred | intros _ ].
  now split.
Qed.

End StopsDeferred.

(** When no closure ends the process, every closure of the stack runs. *)
Lemma runDeferred_runs_all w stack :
  snd (runDeferred w stack) = false ->
  forall sb f p,
    (In (DeferStopCPUProfile sb f p) stack ->
     exists l1 l2,
       fst (runDeferred w stack) = l1 ++ EClose f :: EStopCPUProfile sb :: l2)
    /\ (In (DeferStopTrace sb f p) stack ->
        exists l1 l2,
          fst (runDeferred w stack) = l1 ++ EClose f :: EStopTrace sb :: l2).
Proof.
  induction stack as [ | c rest IH ]; intros X sb f p.
  - split; intros [].
  - cbn [runDeferred] in *.
    destruct (runClosure w c) as [evs exited] eqn:E.
    destruct exited; [ discriminate X | ].
    destruct (runDeferred w rest) as [evs' exited']. cbn [fst snd] in *.
    destruct (IH X sb f p) as [IHc IHt].
    split; intros [-> | Hin].
    + cbn in E. destruct (StopCPUProfile w sb); [ discriminate E | ].
      injection E as <-. now exists [], (EInfof "CPU profile written to %q" [AStr p] :: evs').
    + destruct (IHc Hin) as (l1 & l2 & ->).
      exists (evs ++ l1), l2. now rewrite app_assoc.
    + cbn in E. destruct (StopTrace w sb); [ discriminate E | ].
      injection E as <-. now exists [], (EInfof "Trace written to %q" [AStr p] :: evs').
    + destruct (IHt Hin) as (l1 & l2 & ->).
      exists (evs ++ l1), l2. now rewrite app_assoc.
Qed.

Lemma no_start_in_deferred w stack e :
  In e (fst (runDeferred w stack)) -> step e <> Starting.
Proof.
  intros Hin E.
  assert (H : within [Message; Closing; Stopping] (fst (runDeferred w stack)))
    by auto with within.
  unfold within in H. rewrite Forall_forall in H. specialize (H e Hin).
  rewrite E in H. simpl in H. intuition discriminate.
Qed.

(** X10: a session that was started is stopped before the command returns.
    In an invocation that returns a status, every start request sent to the
    sandbox, whether it succeeded or not, is followed later by the close of
    its destination and the stop request of its session. *)
Theorem started_sessions_are_stopped w d conf fargs s :
  snd (Execute w d conf fargs) = Exited s ->
  forall sb f,
    (In (EStartCPUProfile sb f) (fst (Execute w d conf fargs)) ->
     exists l1 l2 l3,
       fst (Execute w d conf fargs) =
         l1 ++ EStartCPUProfile sb f :: l2
            ++ EClose f :: EStopCPUProfile sb :: l3)
    /\ (In (EStartTrace sb f) (fst (Execute w d conf fargs)) ->
        exists l1 l2 l3,
          fst (Execute w d conf fargs) =
            l1 ++ EStartTrace sb f :: l2
               ++ EClose f :: EStopTrace sb :: l3).
Proof.
  intros Hs sb f.
  assert (X : snd (runDeferred w (deferred (body w d conf fargs))) = false).
  { unfold Execute, finish in Hs.
    destruct (runDeferred w (deferred (body w d conf fargs))) as [devs [ | ]];
      [ discriminate Hs | reflexivity ]. }
  destruct (body_stopsDeferred w d conf fargs sb f) as [Bc Bt].
  unfold Execute. rewrite fst_finish.
  split; intros Hin; apply in_app_or in Hin; destruct Hin as [Hin | Hin];
    try (now elim (no_start_in_deferred _ _ _ Hin)).
  - destruct (Bc Hin) as (p & Hp).
    destruct (proj1 (runDeferred_runs_all w _ X sb f p) Hp) as (m1 & m2 & ->).
    apply in_split in Hin. destruct Hin as (l1 & l2 & ->).
    exists l1, (l2 ++ m1), m2. now rewrite <- !app_assoc.
  - destruct (Bt Hin) as (p & Hp).
    destruct (proj2 (runDeferred_runs_all w _ X sb f p) Hp) as (m1 & m2 & ->).
    apply in_split in Hin. destruct Hin as (l1 & l2 & ->).
    exists l1, (l2 ++ m1), m2. now rewrite <- !app_assoc.
Qed.

Lemma started_sessions_are_stopped_witness :
  exists l1 l2 l3,
    fst (Execute Sample.noTrace
           (Sample.with_trace
              (Sample.with_profileCPU Sample.flags "/tmp/cpu.out")
              "/tmp/trace.out")
           Sample.conf ["abc"])
    = l1 ++ EStartTrace Sample.sb (Sample.file "/tmp/trace.out") :: l2
         ++ EClose (Sample.file "/tmp/trace.out") :: EStopTrace Sample.sb :: l3.
Proof.
  apply (proj2 (started_sessions_are_stopped
                  Sample.noTrace
                  (Sample.with_trace
                     (Sample.with_profileCPU Sample.flags "/tmp/cpu.out")
                     "/tmp/trace.out")
                  Sample.conf ["abc"] ExitFailure eq_refl
                  Sample.sb (Sample.file "/tmp/trace.out"))).
  vm_compute. do 6 right. left. reflexivity.
Defined.

(** ** A stop that fails *)

Lemma deferred_bind_nil {A B} (m : M A) (k : A -> M B) :
  deferred m = [] -> (forall a, deferred (k a) = []) -> deferred (bind m k) = [].
Proof.
  intros Hm Hk. rewrite deferred_bind, Hm, app_nil_r.
  destruct (flow m); [ apply Hk | reflexivity ].
Qed.

Lemma changeLogging_deferred w d sb : deferred (changeLogging w d sb) = [].
Proof.
  unfold changeLogging. destruct (_ || _); [ | reflexivity ].
  apply deferred_bind_nil;
    [ unfold straceArgs; repeat (cbn; try break_branch); reflexivity | intros a1 ].
  apply deferred_bind_nil;
    [ unfold levelArgs; repeat (cbn; try break_branch); reflexivity | intros a2 ].
  apply deferred_bind_nil;
    [ unfold logPacketsArgs; repeat (cbn; try break_branch); reflexivity | intros a3 ].
  repeat (cbn; try break_branch); reflexivity.
Qed.

Lemma after_traceSession_deferred w d sb delay :
  deferred (changeLogging w d sb ;; sleep d delay ;; @return_ unit ExitSuccess) = [].
Proof.
  apply deferred_bind_nil; [ apply changeLogging_deferred | intros _ ].
  apply deferred_bind_nil; [ now destruct delay | reflexivity ].
Qed.

Lemma traceSession_deferred w d sb delay f :
  trace d <> "" ->
  os_Create w (trace d) = Ok f ->
  deferred (traceSession w d sb delay) = [DeferStopTrace sb f (trace d)].
Proof.
  intros Hp Hc. unfold traceSession.
  apply String.eqb_neq in Hp. rewrite Hp. cbn. rewrite Hc. cbn.
  now destruct (StartTrace w sb f).
Qed.

Lemma no_stop_request_in_body w d conf fargs :
  filter isStop (events (body w d conf fargs)) = [].
Proof. apply Forall_filter_nil. apply body_events; reflexivity. Qed.

(** X11: a trace whose stop fails takes the earlier cleanups with it.  Once
    the destination of the trace is created, a failing stop of the trace
    ends the process right after the close of that destination and the stop
    request: the closures deferred before (the stop of the CPU profile, the
    close of the heap profile) never run, so no other file is closed and the
    CPU profile is never stopped. *)
Theorem failed_trace_stop_skips_earlier_cleanup
    w d conf fargs evs dfs sb delay f err :
  beforeTrace w d conf fargs = mkRun evs dfs (Next (sb, delay)) ->
  trace d <> "" ->
  os_Create w (trace d) = Ok f ->
  StopTrace w sb = Some err ->
  snd (Execute w d conf fargs) = Terminated
  /\ fst (Execute w d conf fargs) =
       events (body w d conf fargs) ++ [EClose f; EStopTrace sb; EFatalf err []]
  /\ closed (fst (Execute w d conf fargs)) = [f]
  /\ filter isStopCPUProfile (fst (Execute w d conf fargs)) = [].
Proof.
  intros Hb Hp Hc Hs.
  assert (D : deferred (body w d conf fargs) =
              DeferStopTrace sb f (trace d) :: dfs).
  { rewrite body_after_cpuProfile, (bind_Next _ _ _ _ _ Hb).
    cbn [deferred fst snd]. rewrite deferred_bind.
    rewrite (traceSession_deferred _ _ _ _ _ Hp Hc).
    destruct (flow (traceSession w d sb delay)) as [delay' | s];
      [ | reflexivity ].
    now rewrite after_traceSession_deferred. }
  assert (E : Execute w d conf fargs =
              (events (body w d conf fargs)
                 ++ [EClose f; EStopTrace sb; EFatalf err []], Terminated)).
  { unfold Execute, finish. rewrite D. cbn. now rewrite Hs. }
  rewrite E. cbn [fst snd].
  split; [ reflexivity | split; [ reflexivity | split ] ].
  - rewrite closed_app.
    now rewrite (proj1 (body_accounted w d conf fargs)).
  - rewrite filter_app. cbn [filter isStopCPUProfile]. rewrite app_nil_r.
    apply Forall_filter_nil.
    assert (F : Forall (fun e => isStop e = false) (events (body w d conf fargs)))
      by (apply body_events; reflexivity).
    revert F. apply Forall_impl. intros e He.
    unfold isStop in He. now apply orb_false_elim in He.
Qed.

Lemma failed_trace_stop_skips_earlier_cleanup_witness :
  snd (Execute Sample2.noTraceStop
         (set_profileHeap
            (Sample.with_trace
               (Sample.with_profileCPU Sample.flags "/tmp/cpu.out")
               "/tmp/trace.out")
            "/tmp/heap.out")
         Sample.conf ["abc"]) = Terminated
  /\ closed
       (fst (Execute Sample2.noTraceStop
               (set_profileHeap
                  (Sample.with_trace
                     (Sample.with_profileCPU Sample.flags "/tmp/cpu.out")
                     "/tmp/trace.out")
                  "/tmp/heap.out")
               Sample.conf ["abc"]))
     = [Sample.file "/tmp/trace.out"]
  /\ filter isStopCPUProfile
       (fst (Execute Sample2.noTraceStop
               (set_profileHeap
                  (Sample.with_trace
                     (Sample.with_profileCPU Sample.flags "/tmp/cpu.out")
                     "/tmp/trace.out")
                  "/tmp/heap.out")
               Sample.conf ["abc"]))
     = [].
Proof.
  pose proof (failed_trace_stop_skips_earlier_cleanup
                Sample2.noTraceStop
                (set_profileHeap
                   (Sample.with_trace
                      (Sample.with_profileCPU Sample.flags "/tmp/cpu.out")
                      "/tmp/trace.out")
                   "/tmp/heap.out")
                Sample.conf ["abc"] _ _ Sample.sb true
                (Sample.file "/tmp/trace.out") "trace not started"
                eq_refl ltac:(simpl; discriminate) eq_refl eq_refl)
    as (H1 & _ & H3 & H4).
  exact (conj H1 (conj H3 H4)).
Defined.

(** ** Flags that ask for nothing *)

Lemma actions_idle w d sb :
  idle d -> actions w d sb = mkRun [] [] (Return ExitSuccess).
Proof.
  intros (Hs & Hst & Hh & Hc & Ht & Hstr & Hl & Hp).
  unfold actions, sendSignal, dumpStacks, heapProfile, cpuProfile,
    traceSession, changeLogging, sleep.
  destruct (Z.gtb_spec (signal d) 0); [ lia | ].
  now rewrite Hst, Hh, Hc, Ht, Hstr, Hl, Hp.
Qed.

(** X12: flags that ask for nothing make the command a liveness check.
    With no signal (a value that is not positive, as the default -1), no
    stacks, no profile, no trace and no logging input, the command resolves
    the target, checks that its sandbox runs and returns success: it makes
    no call after the resolution, defers nothing and does not sleep.  The
    flags as [SetFlags] leaves them are of this kind. *)
Theorem idle_flags_only_resolve w d conf fargs :
  (idle d ->
   forall evs dfs sb,
     target w d conf fargs = mkRun evs dfs (Next sb) ->
     Execute w d conf fargs = (evs, Exited ExitSuccess))
  /\ (forall d0 f0 f1, SetFlags d0 f0 = Some (d, f1) -> idle d).
Proof.
  split.
  - intros Hi evs dfs sb Ht.
    assert (Hd : dfs = []).
    { pose proof (target_deferred w d conf fargs) as T. now rewrite Ht in T. }
    subst dfs.
    unfold Execute. rewrite body_after_target, (bind_Next _ _ _ _ _ Ht).
    rewrite (actions_idle w d sb Hi). unfold finish. cbn.
    now rewrite !app_nil_r.
  - intros d0 f0 f1 H. destruct (SetFlags_Some _ _ _ _ H) as (-> & _).
    unfold idle. cbn. repeat split. lia.
Qed.

Lemma idle_flags_only_resolve_witness :
  Execute Sample.calm defaults Sample.conf ["abc"]
  = ([ELoad "/var/run/runsc" "abc";
      EInfof "Found sandbox %q, PID: %d" [AStr "abc"; AInt 42]],
     Exited ExitSuccess)
  /\ idle defaults.
Proof.
  split.
  - apply (proj1 (idle_flags_only_resolve Sample.calm defaults Sample.conf ["abc"])
             ltac:(unfold idle; cbn; repeat split; lia)
             _ _ Sample.sb eq_refl).
  - apply (proj2 (idle_flags_only_resolve Sample.calm defaults Sample.conf ["abc"])
             Sample.flags [] flagNames).
    reflexivity.
Defined.

(** ** The log-packets input and the answer of the sandbox *)

Lemma loggingArgs_deferred w d : deferred (loggingArgs w d) = [].
Proof.
  unfold loggingArgs.
  apply deferred_bind_nil;
    [ unfold straceArgs; repeat (cbn; try break_branch); reflexivity | intros a1 ].
  apply deferred_bind_nil;
    [ unfold levelArgs; repeat (cbn; try break_branch); reflexivity | intros a2 ].
  unfold logPacketsArgs; repeat (cbn; try break_branch); reflexivity.
Qed.

(** What the building returns when it returns. *)
Lemma loggingArgs_returns_failure w d s :
  flow (loggingArgs w d) = Return s -> s = ExitFailure.
Proof.
  unfold loggingArgs. intros H.
  apply flow_bind_Return in H. destruct H as [H | (a1 & _ & H)].
  - revert H. unfold straceArgs. repeat (cbn; try break_branch); discriminate.
  - apply flow_bind_Return in H. destruct H as [H | (a2 & _ & H)].
    + revert H. unfold levelArgs.
      repeat (cbn; try break_branch); intros [=]; congruence.
    + revert H. unfold logPacketsArgs.
      repeat (cbn; try break_branch); intros [=]; congruence.
Qed.

Lemma loggingArgs_logPackets w d args :
  logPackets d <> "" ->
  flow (loggingArgs w d) = Next args ->
  control.SetLogPackets args = true
  /\ strconv.ParseBool (logPackets d) = Ok (control.LogPackets args).
Proof.
  intros Hp H.
  destruct (loggingArgs_fields w d args H)
    as (a1 & a2 & _ & _ & _ & _ & _ & _ & _ & EP).
  split; [ rewrite EP; now apply present_true | ].
  unfold loggingArgs in H.
  apply flow_bind_Next in H. destruct H as (b1 & _ & H).
  apply flow_bind_Next in H. destruct H as (b2 & _ & H).
  revert H. unfold logPacketsArgs. rewrite length_eqb_0.
  apply String.eqb_neq in Hp. rewrite Hp. cbn [negb].
  destruct (strconv.ParseBool (logPackets d)) as [lp | err]; [ | discriminate ].
  destruct lp; cbn; now intros [= <-].
Qed.

Lemma loggingArgs_invalid_packets w d err :
  logPackets d <> "" ->
  strconv.ParseBool (logPackets d) = Err err ->
  flow (loggingArgs w d) = Return ExitFailure.
Proof.
  intros Hp Hb.
  destruct (flow (loggingArgs w d)) as [args | s] eqn:F.
  - destruct (loggingArgs_logPackets w d args Hp F) as [_ H].
    rewrite Hb in H. discriminate H.
  - now rewrite (loggingArgs_returns_failure w d s F).
Qed.

(** The invocation from the logging step on. *)
Lemma Execute_from_logging w d conf fargs evs dfs sb delay :
  beforeLogging w d conf fargs = mkRun evs dfs (Next (sb, delay)) ->
  present (strace d) || present (logLevel d) || present (logPackets d) = true ->
  Execute w d conf fargs =
  match flow (loggingArgs w d) with
  | Return s =>
      (evs ++ events (loggingArgs w d) ++ fst (runDeferred w dfs),
       if snd (runDeferred w dfs) then Terminated else Exited s)
  | Next args =>
      match ChangeLogging w sb args with
      | Some err =>
          (evs ++ events (loggingArgs w d)
               ++ [EChangeLogging sb args; EErrorf err []]
               ++ fst (runDeferred w dfs),
           if snd (runDeferred w dfs) then Terminated else Exited ExitFailure)
      | None =>
          (evs ++ events (loggingArgs w d)
               ++ [EChangeLogging sb args; EInfof "Logging options changed" []]
               ++ (if delay then [ESleep (time.seconds (profileDelay d))] else [])
               ++ fst (runDeferred w dfs),
           if snd (runDeferred w dfs) then Terminated else Exited ExitSuccess)
      end
  end.
Proof.
  intros Hb P.
  unfold Execute. rewrite body_after_traceSession.
  rewrite (finish_bind_Next _ _ _ _ _ _ Hb). cbn [fst snd].
  rewrite changeLogging_eq, P.
  pose proof (loggingArgs_deferred w d) as LD.
  destruct (loggingArgs w d) as [le ld lf]. cbn in LD. subst ld.
  destruct lf as [args | s]; cbn.
  - destruct (ChangeLogging w sb args); cbn;
      destruct (runDeferred w dfs) as [e2 [ | ]]; cbn;
      try (destruct delay; cbn);
      rewrite <- ?app_assoc; cbn; rewrite <- ?app_assoc; reflexivity.
  - destruct (runDeferred w dfs) as [e2 [ | ]]; cbn;
      rewrite <- ?app_assoc; reflexivity.
Qed.

(** X13: a log-packets input is a boolean as [strconv.ParseBool] reads it.
    Every change built or sent has the packet-logging flag set and carries
    the parsed value.  An input that does not parse makes the command
    report the invalid value: no change is sent, and once the logging step
    is reached the command ends with the failure status, or in termination
    if a stop of its cleanup fails. *)
Theorem log_packets_input_is_a_boolean w d conf fargs :
  logPackets d <> "" ->
  (forall args,
      flow (loggingArgs w d) = Next args
      \/ In args (changesSent (fst (Execute w d conf fargs))) ->
      control.SetLogPackets args = true
      /\ strconv.ParseBool (logPackets d) = Ok (control.LogPackets args))
  /\ (forall err,
        strconv.ParseBool (logPackets d) = Err err ->
        (forall a,
            logPacketsArgs d a =
            mkRun [EErrorf "invalid value for log_packets %q"
                     [AStr (logPackets d)]] []
                  (Return ExitFailure))
        /\ changesSent (fst (Execute w d conf fargs)) = []
        /\ (forall evs dfs sb delay,
              beforeLogging w d conf fargs = mkRun evs dfs (Next (sb, delay)) ->
              Execute w d conf fargs =
                (evs ++ events (loggingArgs w d) ++ fst (runDeferred w dfs),
                 if snd (runDeferred w dfs) then Terminated
                 else Exited ExitFailure))).
Proof.
  intros Hp. split.
  - intros args [H | H].
    + exact (loggingArgs_logPackets w d args Hp H).
    + apply changesSent_built in H.
      exact (loggingArgs_logPackets w d args Hp H).
  - intros err Hb.
    pose proof (loggingArgs_invalid_packets w d err Hp Hb) as F.
    split; [ | split ].
    + intros a. now apply (logPacketsArgs_invalid d a err).
    + rewrite changesSent_Execute.
      destruct (flow (beforeLogging w d conf fargs)); [ | reflexivity ].
      destruct (_ || _); [ | reflexivity ].
      now rewrite F.
    + intros evs dfs sb delay Hbl.
      rewrite (Execute_from_logging _ _ _ _ _ _ _ _ Hbl).
      * now rewrite F.
      * apply present_true in Hp. rewrite Hp. apply orb_true_r.
Qed.

Lemma log_packets_input_is_a_boolean_witness :
  strconv.ParseBool (logPackets (set_logPackets Sample.flags "T"))
  = Ok (control.LogPackets
          {| control.SetLevel := false; control.Level := log.Warning;
             control.SetLogPackets := true; control.LogPackets := true;
             control.SetStrace := true; control.EnableStrace := false;
             control.StraceWhitelist := [] |})
  /\ Execute Sample.calm (set_logPackets Sample.flags "yes") Sample.conf ["abc"]
     = ([ELoad "/var/run/runsc" "abc";
         EInfof "Found sandbox %q, PID: %d" [AStr "abc"; AInt 42];
         EErrorf "invalid value for log_packets %q" [AStr "yes"]],
        Exited ExitFailure).
Proof.
  split.
  - apply (proj1 (log_packets_input_is_a_boolean
                    Sample.calm (set_logPackets Sample.flags "T")
                    Sample.conf ["abc"] ltac:(simpl; discriminate))).
    right. vm_compute. left. reflexivity.
  - apply (proj2 (proj2 (proj2 (log_packets_input_is_a_boolean
                    Sample.calm (set_logPackets Sample.flags "yes")
                    Sample.conf ["abc"] ltac:(simpl; discriminate))
                  "strconv.ParseBool: parsing yes: invalid syntax" eq_refl))
             _ _ Sample.sb false eq_refl).
Defined.

(** X14: the answer of the sandbox to the logging change decides how the
    command ends.  Once the change is built, it is sent once; a sandbox
    that rejects it makes the command report the error and return the
    failure status without sleeping; a sandbox that accepts it lets the
    command log the change, sleep if a session was started, and return
    success.  In both cases the cleanup runs afterwards. *)
Theorem logging_change_answer_decides_the_status
    w d conf fargs evs dfs sb delay args :
  beforeLogging w d conf fargs = mkRun evs dfs (Next (sb, delay)) ->
  strace d <> "" \/ logLevel d <> "" \/ logPackets d <> "" ->
  flow (loggingArgs w d) = Next args ->
  (forall err,
      ChangeLogging w sb args = Some err ->
      Execute w d conf fargs =
        (evs ++ events (loggingArgs w d)
             ++ [EChangeLogging sb args; EErrorf err []]
             ++ fst (runDeferred w dfs),
         if snd (runDeferred w dfs) then Terminated else Exited ExitFailure))
  /\ (ChangeLogging w sb args = None ->
      Execute w d conf fargs =
        (evs ++ events (loggingArgs w d)
             ++ [EChangeLogging sb args; EInfof "Logging options changed" []]
             ++ (if delay then [ESleep (time.seconds (profileDelay d))] else [])
             ++ fst (runDeferred w dfs),
         if snd (runDeferred w dfs) then Terminated else Exited ExitSuccess)).
Proof.
  intros Hb Hany F.
  assert (P : present (strace d) || present (logLevel d) || present (logPackets d)
              = true).
  { destruct Hany as [H | [H | H]]; apply present_true in H; rewrite H;
      now rewrite ?orb_true_r. }
  rewrite (Execute_from_logging _ _ _ _ _ _ _ _ Hb P), F.
  split.
  - intros err ->. reflexivity.
  - intros ->. reflexivity.
Qed.

Lemma logging_change_answer_decides_the_status_witness :
  Execute Sample2.noLogging
    (Sample.with_strace (Sample.with_profileCPU Sample.flags "/tmp/cpu.out") "all")
    Sample.conf ["abc"]
  = ([ELoad "/var/run/runsc" "abc";
      EInfof "Found sandbox %q, PID: %d" [AStr "abc"; AInt 42];
      ECreate "/tmp/cpu.out";
      EStartCPUProfile Sample.sb (Sample.file "/tmp/cpu.out");
      EInfof "CPU profile started for %d sec, writing to %q"
        [AInt 5; AStr "/tmp/cpu.out"];
      EInfof "Enabling all straces" [];
      EChangeLogging Sample.sb
        {| control.SetLevel := false; control.Level := log.Warning;
           control.SetLogPackets := false; control.LogPackets := false;
           control.SetStrace := true; control.EnableStrace := true;
           control.StraceWhitelist := [] |};
      EErrorf "logging rejected" [];
      EClose (Sample.file "/tmp/cpu.out");
      EStopCPUProfile Sample.sb;
      EInfof "CPU profile written to %q" [AStr "/tmp/cpu.out"]],
     Exited ExitFailure).
Proof.
  apply (proj1 (logging_change_answer_decides_the_status
                  Sample2.noLogging
                  (Sample.with_strace
                     (Sample.with_profileCPU Sample.flags "/tmp/cpu.out") "all")
                  Sample.conf ["abc"] _ _ Sample.sb true _
                  eq_refl ltac:(left; simpl; discriminate) eq_refl)
           "logging rejected").
  reflexivity.
Defined.

(** ** The fixed order of the calls *)

Lemma phases_app l1 l2 : phases (l1 ++ l2) = phases l1 ++ phases l2.
Proof.
  induction l1 as [ | e l1 IH ]; [ reflexivity | ].
  cbn. destruct (phase e); cbn; now rewrite IH.
Qed.

Lemma StronglySorted_app {A} (R : A -> A -> Prop) l1 l2 :
  StronglySorted R l1 -> StronglySorted R l2 ->
  (forall a b, In a l1 -> In b l2 -> R a b) ->
  StronglySorted R (l1 ++ l2).
Proof.
  intros H1 H2 H. induction H1 as [ | a l1 H1 IH Ha ]; [ exact H2 | ].
  cbn. constructor.
  - apply IH. intros x y Hx Hy. apply H; [ now right | exact Hy ].
  - apply Forall_app. split; [ exact Ha | ].
    apply Forall_forall. intros y Hy. apply H; [ now left | exact Hy ].
Qed.

Lemma StronglySorted_middle {A} (R : A -> A -> Prop) l1 a l2 :
  StronglySorted R (l1 ++ a :: l2) -> Forall (R a) l2.
Proof.
  induction l1 as [ | x l1 IH ]; cbn; intros H; inversion H; subst; auto.
Qed.

Lemma ordered_bind {A B} lo mid lo' hi (m : M A) (k : A -> M B) :
  ordered lo mid m ->
  (forall a, ordered lo' hi (k a)) ->
  (forall a b, (lo <= a <= mid)%nat -> (lo' <= b <= hi)%nat -> inOrder a b) ->
  (lo <= lo')%nat -> (mid <= hi)%nat ->
  ordered lo hi (bind m k).
Proof.
  intros [Hs Hb] Hk Hx Hlo Hhi. unfold ordered.
  rewrite events_bind, phases_app.
  destruct (flow m) as [a | s].
  - destruct (Hk a) as [Ks Kb]. split.
    + apply StronglySorted_app; [ exact Hs | exact Ks | ].
      intros x y Hin Hin'. rewrite Forall_forall in Hb, Kb.
      apply Hx; [ now apply Hb | now apply Kb ].
    + apply Forall_app. split.
      * revert Hb. apply Forall_impl. intros; lia.
      * revert Kb. apply Forall_impl. intros; lia.
  - cbn. rewrite app_nil_r. split; [ exact Hs | ].
    revert Hb. apply Forall_impl. intros; lia.
Qed.

(** For a block without a loop: follow every branch; a branch makes at most
    one call that has a phase. *)
Ltac block_ordered :=
  intros; unfold ordered;
  repeat (cbn; try break_branch);
  (split;
   [ repeat constructor
   | repeat (apply Forall_cons; [ lia | ]); apply Forall_nil ]).

Ltac crossing := intros ? ? ? ?; unfold inOrder; lia.

Section Ordered.

Variable w : World.
Variable d : Debug.
Variable conf : boot.Config.
Variable fargs : list string.

Lemma scan_ordered ids : ordered 0 0 (scan w d conf ids).
Proof.
  induction ids as [ | id rest IH ]; [ block_ordered | ].
  cbn [scan].
  apply (ordered_bind 0 0 0 0); [ block_ordered | | crossing | lia | lia ].
  intros [c | err]; [ | block_ordered ].
  destruct (container.SandboxPid c =? pid d); [ block_ordered | exact IH ].
Qed.

Lemma resolve_ordered : ordered 0 0 (resolve w d conf fargs).
Proof.
  unfold resolve. destruct (pid d =? 0); [ block_ordered | ].
  destruct (negb _); [ block_ordered | ].
  apply (ordered_bind 0 0 0 0); [ block_ordered | | crossing | lia | lia ].
  intros [ids | err]; [ | block_ordered ].
  apply (ordered_bind 0 0 0 0); [ apply scan_ordered | | crossing | lia | lia ].
  intros [c | ]; block_ordered.
Qed.

Lemma changeLogging_ordered sb : ordered 6 6 (changeLogging w d sb).
Proof.
  unfold changeLogging. destruct (_ || _); [ | block_ordered ].
  apply (ordered_bind 6 5 6 6);
    [ unfold straceArgs; block_ordered | intros a1 | crossing | lia | lia ].
  apply (ordered_bind 6 5 6 6);
    [ unfold levelArgs; block_ordered | intros a2 | crossing | lia | lia ].
  apply (ordered_bind 6 5 6 6);
    [ unfold logPacketsArgs; block_ordered | intros a3 | crossing | lia | lia ].
  block_ordered.
Qed.

Lemma body_ordered : ordered 0 7 (body w d conf fargs).
Proof.
  unfold body.
  apply (ordered_bind 0 0 0 7);
    [ apply resolve_ordered | intros c | crossing | lia | lia ].
  apply (ordered_bind 0 0 1 7);
    [ unfold running; block_ordered | intros sb | crossing | lia | lia ].
  apply (ordered_bind 1 1 2 7);
    [ unfold sendSignal; block_ordered | intros _ | crossing | lia | lia ].
  apply (ordered_bind 2 2 3 7);
    [ unfold dumpStacks; block_ordered | intros _ | crossing | lia | lia ].
  apply (ordered_bind 3 3 4 7);
    [ unfold heapProfile; block_ordered | intros _ | crossing | lia | lia ].
  apply (ordered_bind 4 4 5 7);
    [ unfold cpuProfile; block_ordered | intros d1 | crossing | lia | lia ].
  apply (ordered_bind 5 5 6 7);
    [ unfold traceSession; block_ordered | intros d2 | crossing | lia | lia ].
  apply (ordered_bind 6 6 7 7);
    [ apply changeLogging_ordered | intros _ | crossing | lia | lia ].
  apply (ordered_bind 7 7 8 7);
    [ unfold sleep; block_ordered | intros _ | crossing | lia | lia ].
  block_ordered.
Qed.

End Ordered.

Lemma runDeferred_phases w stack :
  Forall (fun n => n = 8%nat) (phases (fst (runDeferred w stack))).
Proof.
  induction stack as [ | c rest IH ]; [ constructor | ].
  cbn [runDeferred].
  destruct c as [ g | sb f p | sb f p ]; cbn [runClosure].
  - destruct (runDeferred w rest) as [evs x]. cbn in *. now constructor.
  - destruct (StopCPUProfile w sb); [ now repeat constructor | ].
    destruct (runDeferred w rest) as [evs x]. cbn in *. now repeat constructor.
  - destruct (StopTrace w sb); [ now repeat constructor | ].
    destruct (runDeferred w rest) as [evs x]. cbn in *. now repeat constructor.
Qed.

Lemma StronglySorted_cleanup l :
  Forall (fun n => n = 8%nat) l -> StronglySorted inOrder l.
Proof.
  induction 1 as [ | n l Hn Hl IH ]; constructor; [ exact IH | ].
  revert Hl. apply Forall_impl. intros m ->. subst n. unfold inOrder. lia.
Qed.

(** X15: the calls of an invocation come in one fixed order: the registry
    (listing, loads), then at most one signal, at most one stack dump, at
    most one heap profile, at most one start of the CPU profile, at most
    one start of the trace, at most one logging change, at most one sleep,
    and last the closes and stops of the cleanup.  No call of an earlier
    step ever follows a call of a later one. *)
Theorem calls_follow_the_fixed_order w d conf fargs :
  StronglySorted inOrder (phases (fst (Execute w d conf fargs)))
  /\ (forall l1 a l2 b l3 pa pb,
        fst (Execute w d conf fargs) = l1 ++ a :: l2 ++ b :: l3 ->
        phase a = Some pa -> phase b = Some pb ->
        inOrder pa pb).
Proof.
  assert (S : StronglySorted inOrder (phases (fst (Execute w d conf fargs)))).
  { unfold Execute. rewrite fst_finish, phases_app.
    destruct (body_ordered w d conf fargs) as [Hs Hb].
    pose proof (runDeferred_phases w (deferred (body w d conf fargs))) as Hd.
    apply StronglySorted_app;
      [ exact Hs | now apply StronglySorted_cleanup | ].
    intros x y Hx Hy. rewrite Forall_forall in Hb, Hd.
    specialize (Hb x Hx). specialize (Hd y Hy). unfold inOrder. lia. }
  split; [ exact S | ].
  intros l1 a l2 b l3 pa pb E Ha Hb. rewrite E in S.
  rewrite phases_app in S. cbn [phases] in S. rewrite Ha in S.
  apply StronglySorted_middle in S.
  rewrite phases_app in S. cbn [phases] in S. rewrite Hb in S.
  apply Forall_app in S. destruct S as [_ S].
  now inversion S.
Qed.

Lemma calls_follow_the_fixed_order_witness :
  inOrder 1 4.
Proof.
  apply (proj2 (calls_follow_the_fixed_order
                  Sample.calm
                  (Sample.with_signal
                     (Sample.with_profileCPU Sample.flags "/tmp/cpu.out") 9)
                  Sample.conf ["abc"])
           [ELoad "/var/run/runsc" "abc";
            EInfof "Found sandbox %q, PID: %d" [AStr "abc"; AInt 42];
            EInfof "Sending signal %d to process: %d" [AInt 9; AInt 42]]
           (EKill 42 9)
           [ECreate "/tmp/cpu.out"]
           (EStartCPUProfile Sample.sb (Sample.file "/tmp/cpu.out"))
           [EInfof "CPU profile started for %d sec, writing to %q"
              [AInt 5; AStr "/tmp/cpu.out"];
            ESleep 5000000000;
            EClose (Sample.file "/tmp/cpu.out");
            EStopCPUProfile Sample.sb;
            EInfof "CPU profile written to %q" [AStr "/tmp/cpu.out"]]);
    reflexivity.
Defined.

(** ** The length of the delay *)

Lemma wrap64_range z : - 2 ^ 63 <= time.wrap64 z < 2 ^ 63.
Proof.
  unfold time.wrap64.
  pose proof (Z.mod_pos_bound (z + 2 ^ 63) (2 ^ 64) ltac:(lia)). lia.
Qed.

Lemma wrap64_small z : - 2 ^ 63 <= z < 2 ^ 63 -> time.wrap64 z = z.
Proof.
  intros H. unfold time.wrap64. rewrite Z.mod_small by lia. lia.
Qed.

(** X16: the delay is [profileDelay] seconds only for delays up to
    9223372036 seconds in absolute value.  The duration handed to
    [time.Sleep] is always a 64-bit value, so for a [profileDelay] beyond
    that the multiplication by [time.Second] wraps around and the command
    sleeps for another duration than the one asked for. *)
Theorem delay_is_exact_only_in_range n :
  - 2 ^ 63 <= n < 2 ^ 63 ->
  - 2 ^ 63 <= time.seconds n < 2 ^ 63
  /\ (time.seconds n = n * 1000000000 <-> - 9223372036 <= n <= 9223372036).
Proof.
  intros Hn. unfold time.seconds, time.Second.
  split; [ apply wrap64_range | ].
  rewrite (wrap64_small n Hn).
  split.
  - intros E.
    pose proof (wrap64_range (n * 1000000000)) as R. rewrite E in R.
    change (2 ^ 63) with 9223372036854775808 in R. lia.
  - intros H. apply wrap64_small.
    change (2 ^ 63) with 9223372036854775808. lia.
Qed.

Lemma delay_is_exact_only_in_range_witness :
  (- 2 ^ 63 <= time.seconds 9223372037 < 2 ^ 63)
  /\ (time.seconds 5 = 5 * 1000000000 <-> - 9223372036 <= 5 <= 9223372036).
Proof.
  split.
  - apply (proj1 (delay_is_exact_only_in_range 9223372037 ltac:(simpl; lia))).
  - apply (proj2 (delay_is_exact_only_in_range 5 ltac:(simpl; lia))).
Defined.

(** ** A session whose destination cannot be created *)

Lemma cpuProfile_create_failure w d sb delay err :
  profileCPU d <> "" ->
  os_Create w (profileCPU d) = Err err ->
  cpuProfile w d sb delay =
  mkRun [ECreate (profileCPU d); EErrorf err []] [] (Return ExitFailure).
Proof.
  intros Hp Hc. unfold cpuProfile.
  apply String.eqb_neq in Hp. rewrite Hp. cbn. now rewrite Hc.
Qed.

Lemma traceSession_create_failure w d sb delay err :
  trace d <> "" ->
  os_Create w (trace d) = Err err ->
  traceSession w d sb delay =
  mkRun [ECreate (trace d); EErrorf err []] [] (Return ExitFailure).
Proof.
  intros Hp Hc. unfold traceSession.
  apply String.eqb_neq in Hp. rewrite Hp. cbn. now rewrite Hc.
Qed.

(** X17: when the destination of the CPU profile (of the trace) cannot be
    created, the command reports the error and returns the failure status
    without sending the start request and without deferring a stop for that
    session; what was deferred before still runs, so a CPU profile already
    started is stopped when the trace file cannot be created. *)
Theorem session_without_destination_is_not_started w d conf fargs :
  (forall evs dfs sb err,
      beforeCPUProfile w d conf fargs = mkRun evs dfs (Next sb) ->
      profileCPU d <> "" ->
      os_Create w (profileCPU d) = Err err ->
      Execute w d conf fargs =
        (evs ++ [ECreate (profileCPU d); EErrorf err []]
             ++ fst (runDeferred w dfs),
         if snd (runDeferred w dfs) then Terminated else Exited ExitFailure)
      /\ deferred (body w d conf fargs) = dfs)
  /\ (forall evs dfs sb delay err,
      beforeTrace w d conf fargs = mkRun evs dfs (Next (sb, delay)) ->
      trace d <> "" ->
      os_Create w (trace d) = Err err ->
      Execute w d conf fargs =
        (evs ++ [ECreate (trace d); EErrorf err []]
             ++ fst (runDeferred w dfs),
         if snd (runDeferred w dfs) then Terminated else Exited ExitFailure)
      /\ deferred (body w d conf fargs) = dfs).
Proof.
  split.
  - intros evs dfs sb err Hb Hp Hc.
    pose proof (cpuProfile_create_failure w d sb false err Hp Hc) as R.
    split.
    + unfold Execute. rewrite body_after_heapProfile.
      rewrite (finish_bind_Next _ _ _ _ _ _ Hb).
      rewrite (bind_Return _ _ _ _ _ R). cbn.
      now destruct (runDeferred w dfs) as [e2 [ | ]].
    + rewrite body_after_heapProfile, (bind_Next _ _ _ _ _ Hb).
      now rewrite (bind_Return _ _ _ _ _ R).
  - intros evs dfs sb delay err Hb Hp Hc.
    pose proof (traceSession_create_failure w d sb delay err Hp Hc) as R.
    split.
    + unfold Execute. rewrite body_after_cpuProfile.
      rewrite (finish_bind_Next _ _ _ _ _ _ Hb). cbn [fst snd].
      rewrite (bind_Return _ _ _ _ _ R). cbn.
      now destruct (runDeferred w dfs) as [e2 [ | ]].
    + rewrite body_after_cpuProfile, (bind_Next _ _ _ _ _ Hb).
      cbn [fst snd]. now rewrite (bind_Return _ _ _ _ _ R).
Qed.

Lemma session_without_destination_is_not_started_witness :
  Execute Sample.noTraceFile
    (Sample.with_trace (Sample.with_profileCPU Sample.flags "/tmp/cpu.out")
       "/tmp/trace.out")
    Sample.conf ["abc"]
  = ([ELoad "/var/run/runsc" "abc";
      EInfof "Found sandbox %q, PID: %d" [AStr "abc"; AInt 42];
      ECreate "/tmp/cpu.out";
      EStartCPUProfile Sample.sb (Sample.file "/tmp/cpu.out");
      EInfof "CPU profile started for %d sec, writing to %q"
        [AInt 5; AStr "/tmp/cpu.out"];
      ECreate "/tmp/trace.out";
      EErrorf "permission denied" [];
      EClose (Sample.file "/tmp/cpu.out");
      EStopCPUProfile Sample.sb;
      EInfof "CPU profile written to %q" [AStr "/tmp/cpu.out"]],
     Exited ExitFailure)
  /\ Execute Sample.noTraceFile
       (Sample.with_profileCPU Sample.flags "/tmp/trace.out")
       Sample.conf ["abc"]
     = ([ELoad "/var/run/runsc" "abc";
         EInfof "Found sandbox %q, PID: %d" [AStr "abc"; AInt 42];
         ECreate "/tmp/trace.out";
         EErrorf "permission denied" []],
        Exited ExitFailure).
Proof.
  split.
  - apply (proj1 (proj2 (session_without_destination_is_not_started
                    Sample.noTraceFile
                    (Sample.with_trace
                       (Sample.with_profileCPU Sample.flags "/tmp/cpu.out")
                       "/tmp/trace.out")
                    Sample.conf ["abc"])
                  _ _ Sample.sb true "permission denied"
                  eq_refl ltac:(simpl; discriminate) eq_refl)).
  - apply (proj1 (proj1 (session_without_destination_is_not_started
                    Sample.noTraceFile
                    (Sample.with_profileCPU Sample.flags "/tmp/trace.out")
                    Sample.conf ["abc"])
                  _ _ Sample.sb "permission denied"
                  eq_refl ltac:(simpl; discriminate) eq_refl)).
Defined.
